(** * Euralink: Player, Connection, Filters and resolve, embedded in Rocq

    A shallow embedding of the parts of the Euralink client that drive a
    guild's audio session: the [Player] state machine (Player.js), its voice
    [Connection] (Connection.js), the [Filters] block (Filters.js) and
    [Euralink.resolve] / [Euralink.updateVoiceState] (Euralink.js); and of
    what they rest on: the [Queue] (Queue.js), the players map and the
    version check of Euralink.js, the retries and the track cache of [Rest]
    (Rest.js) and the socket handlers of [Node] (Node.js).

    Conventions of the embedding.
    - A JavaScript object is a record, a method is a function from the state
      before the call to the state after it.  A method that can [throw]
      returns a [Result].
    - Everything a method does to the outside (an event emitted on the
      Euralink emitter, a gateway packet, a REST call to the node) is appended
      to the [trace] of the [World], oldest first.  [debug] records are not
      traced: they carry text only.
    - [setTimeout] / [clearTimeout] act on the [timers] of the [World]; a
      timer firing is the explicit step [fire].
    - [Date.now()] is the argument [now] of the methods that read the clock.
    - An [async] method is run to completion in one step; the outcome of the
      REST call it awaits is read from [nodeUp].
    - Player numbers that count milliseconds or volume are integers ([Z]),
      which the doubles of the code represent exactly below 2^53; filter
      gains are IEEE binary64 numbers ([PrimFloat.float]), as in JS. *)

From Stdlib Require Import ZArith List String Ascii Bool Lia.
From Stdlib Require Import PrimFloat DecimalString.
From stdpp Require Import base decidable option list gmap sets strings.

Local Open Scope Z_scope.
Local Open Scope string_scope.

#[local] Set Warnings "-inexact-float".

(* ================================================================== *)
(** * Results of calls that may throw *)

Inductive JsError : Type :=
| Error (message : string)
| RangeError (message : string)
| TypeError (message : string).

Inductive Result (A : Type) : Type :=
| Ok (value : A)
| Throw (error : JsError).

Arguments Ok {A} value.
Arguments Throw {A} error.

Definition isThrow {A : Type} (r : Result A) : bool :=
  match r with Ok _ => false | Throw _ => true end.

(* ================================================================== *)
(** * Tracks (Track.js) *)

(** [info] of a Track; [trackLength] is [info.length] (milliseconds). *)
Record TrackInfo : Type := mkInfo {
  identifier : string;
  title : string;
  author : string;
  trackLength : Z;
  sourceName : string;
  uri : string
}.

(** A Track: [track] is the encoded blob, absent while unresolved. *)
Record Track : Type := mkTrack {
  track : option string;
  info : TrackInfo
}.

(** An entry of [previousTracks]: [{...track, playedAt, replayCount}]. *)
Record HistoryEntry : Type := mkEntry {
  played : Track;
  playedAt : Z;
  replayCount : Z
}.

(* ================================================================== *)
(** * Payloads sent to the node *)

(** One equalizer band [{band, gain}]. *)
Record Band : Type := mkBand {
  band : nat;
  gain : float
}.

(** The [voice] object of a Connection. *)
Record Voice : Type := mkVoice {
  sessionId : option string;
  event : option string;
  endpoint : option string;
  token : option string
}.

(** The object handed to [Player.queueUpdate]; an absent key is [None].
    [u_track] is [track: {encoded}], where [encoded] may be [null]. *)
Record UpdateData : Type := mkUpdate {
  u_track : option (option string);
  u_position : option Z;
  u_paused : option bool;
  u_volume : option Z;
  u_timestamp : option Z
}.

Definition noUpdate : UpdateData := mkUpdate None None None None None.

Definition orElse {A : Type} (newer older : option A) : option A :=
  match newer with Some _ => newer | None => older end.

(** [Object.assign(target, source)]: every key of [source] overwrites. *)
Definition assign (target source : UpdateData) : UpdateData :=
  {| u_track := orElse (u_track source) (u_track target);
     u_position := orElse (u_position source) (u_position target);
     u_paused := orElse (u_paused source) (u_paused target);
     u_volume := orElse (u_volume source) (u_volume target);
     u_timestamp := orElse (u_timestamp source) (u_timestamp target) |}.

(** Body of a [PATCH /sessions/{sessionId}/players/{guildId}]. *)
Inductive PatchBody : Type :=
| BodyUpdate (data : UpdateData)
| BodyVoice (voice : Voice) (volume : Z)
| BodyFilters (volume : float) (equalizer : list Band).

(** What leaves the client.
    - [Emit]: [eura.emit(event, ...)].
    - [GatewaySend]: [eura.send({ op: 4, d })].
    - [Patch] / [Delete]: [node.rest.updatePlayer] / [node.rest.destroyPlayer].
    - [SetActivity] / [VoiceStatus]: the bot activity and the voice-channel
      status text, written for a track or cleared ([None]).
    - [FadeIn] / [FadeOut]: the background volume ramp of [applyFadeIn] and
      of [trackEnd] is started with these two numbers.  The ramp is a run
      of PATCHes of the volume ([applyFadeIn] begins with volume 0, sent
      before [play()] returns); they are not traced one by one, so [Patch]
      in a trace never stands for one of them.
    - [InvokeAutoplay]: [this.autoplay(player)] is called; what the
      source-specific resolver does next is outside the embedding. *)
Inductive Effect : Type :=
| Emit (event : string)
| GatewaySend (guild : string) (channel : option string) (self_mute self_deaf : bool)
| Patch (guild : string) (body : PatchBody)
| Delete (guild : string)
| SetActivity (forTrack : option Track)
| VoiceStatus (channel : string) (forTrack : option Track)
| FadeIn (targetVolume durationMs : Z)
| FadeOut (fromVolume durationMs : Z)
| InvokeAutoplay (previous : option HistoryEntry).

Definition isPatch (e : Effect) : bool :=
  match e with Patch _ _ => true | _ => false end.

Definition isDelete (e : Effect) : bool :=
  match e with Delete _ => true | _ => false end.

(* ================================================================== *)
(** * Filters (Filters.js) *)

Module Filters.

(** The fields of a Filters object that [setEqualizer] and [setBassboost]
    read or write.  [hasPlayer] is [this.player] being set. *)
Record t : Type := mk {
  hasPlayer : bool;
  guildId : string;
  volume : float;
  equalizer : list Band;
  bassboost : option float
}.

(** JS truthiness of a number: [0], [-0] and [NaN] are falsy. *)
Definition truthy (v : float) : bool :=
  negb (PrimFloat.is_zero v || PrimFloat.is_nan v).

(** [value || dflt] for a number that may be [undefined]. *)
Definition orDefault (value : option float) (dflt : float) : float :=
  match value with
  | Some v => if truthy v then v else dflt
  | None => dflt
  end.

(** [options.value < 0 || options.value > 5]; a comparison with
    [undefined] is false. *)
Definition outOfRange (value : option float) : bool :=
  match value with
  | Some v => PrimFloat.ltb v 0 || PrimFloat.ltb 5 v
  | None => false
  end.

(** [updateFilters]: one PATCH with the filters payload, then
    [filtersUpdated], or [filtersError] when the call fails. *)
Definition updateFilters (nodeUp : bool) (f : t) : list Effect :=
  [Patch (guildId f) (BodyFilters (volume f) (equalizer f));
   Emit (if nodeUp then "filtersUpdated" else "filtersError")].

Definition setEqualizer (nodeUp : bool) (bands : list Band) (f : t) : t * list Effect :=
  let f' := {| hasPlayer := hasPlayer f; guildId := guildId f; volume := volume f;
               equalizer := bands; bassboost := bassboost f |} in
  (f', updateFilters nodeUp f').

(** [(options.value || 5 - 1) * (1.25 / 9) - 0.25]: the subtraction
    [5 - 1] binds tighter than [||]. *)
Definition num (value : option float) : float :=
  (orDefault value (5 - 1) * (1.25 / 9) - 0.25)%float.

(** [Array(13).fill(0).map((n, i) => ({ band: i, gain: num }))]. *)
Definition bassBands (value : option float) : list Band :=
  map (fun i => mkBand i (num value)) (seq 0 13).

Definition setBassboost (nodeUp : bool) (enabled : bool) (value : option float) (f : t)
  : Result (t * list Effect) :=
  if negb (hasPlayer f) then Ok (f, [])
  else if enabled then
    if outOfRange value then Throw (Error "Bassboost value must be between 0 and 5")
    else
      let f1 := {| hasPlayer := hasPlayer f; guildId := guildId f; volume := volume f;
                   equalizer := equalizer f; bassboost := Some (orDefault value 5) |} in
      Ok (setEqualizer nodeUp (bassBands value) f1)
  else
    let f1 := {| hasPlayer := hasPlayer f; guildId := guildId f; volume := volume f;
                 equalizer := equalizer f; bassboost := None |} in
    Ok (setEqualizer nodeUp [] f1).

(** The derivation as the specification words it: fifteen bands, each
    with gain [(v - 1) * (1.25 / 9) - 0.25]. *)
Definition spec_gain (v : float) : float :=
  ((v - 1) * (1.25 / 9) - 0.25)%float.

Definition spec_bands (v : float) : list Band :=
  map (fun i => mkBand i (spec_gain v)) (seq 0 15).

End Filters.

(* ================================================================== *)
(** * State of a Connection, of a Player and of their surroundings *)

(** The values [connectionState] takes. *)
Inductive ConnectionState : Type :=
| disconnected
| connecting
| connected_
| destroyed.

Definition ConnectionState_eqb (a b : ConnectionState) : bool :=
  match a, b with
  | disconnected, disconnected | connecting, connecting
  | connected_, connected_ | destroyed, destroyed => true
  | _, _ => false
  end.

(** An entry of a Connection's [updateQueue]:
    [{ voice: { ...this.voice }, volume, timestamp }]. *)
Record VoiceUpdate : Type := mkVoiceUpdate {
  vu_voice : Voice;
  vu_volume : Z;
  vu_timestamp : Z
}.

(** The fields of a Connection (its constructor lists them).  The five
    that a Player has under the same name carry the prefix [conn]. *)
Record Connection : Type := mkConnection {
  voice : Voice;
  region : option string;
  self_deaf : bool;
  self_mute : bool;
  connVoiceChannel : option string;
  connectionState : ConnectionState;
  lastUpdate : Z;
  reconnectAttempts : Z;
  maxReconnectAttempts : Z;
  connUpdateQueue : list VoiceUpdate;
  connUpdateTimeout : option nat;
  connBatchUpdates : bool;
  connBatchDelay : Z
}.

(** [set_f v r] is [r] with its field [f] replaced by [v]. *)

Definition set_voice (v : Voice) (c : Connection) : Connection :=
  {| voice := v; region := region c; self_deaf := self_deaf c; self_mute := self_mute c;
     connVoiceChannel := connVoiceChannel c; connectionState := connectionState c;
     lastUpdate := lastUpdate c; reconnectAttempts := reconnectAttempts c;
     maxReconnectAttempts := maxReconnectAttempts c;
     connUpdateQueue := connUpdateQueue c; connUpdateTimeout := connUpdateTimeout c;
     connBatchUpdates := connBatchUpdates c; connBatchDelay := connBatchDelay c |}.

Definition set_region (v : option string) (c : Connection) : Connection :=
  {| voice := voice c; region := v; self_deaf := self_deaf c; self_mute := self_mute c;
     connVoiceChannel := connVoiceChannel c; connectionState := connectionState c;
     lastUpdate := lastUpdate c; reconnectAttempts := reconnectAttempts c;
     maxReconnectAttempts := maxReconnectAttempts c;
     connUpdateQueue := connUpdateQueue c; connUpdateTimeout := connUpdateTimeout c;
     connBatchUpdates := connBatchUpdates c; connBatchDelay := connBatchDelay c |}.

Definition set_self_deaf (v : bool) (c : Connection) : Connection :=
  {| voice := voice c; region := region c; self_deaf := v; self_mute := self_mute c;
     connVoiceChannel := connVoiceChannel c; connectionState := connectionState c;
     lastUpdate := lastUpdate c; reconnectAttempts := reconnectAttempts c;
     maxReconnectAttempts := maxReconnectAttempts c;
     connUpdateQueue := connUpdateQueue c; connUpdateTimeout := connUpdateTimeout c;
     connBatchUpdates := connBatchUpdates c; connBatchDelay := connBatchDelay c |}.

Definition set_self_mute (v : bool) (c : Connection) : Connection :=
  {| voice := voice c; region := region c; self_deaf := self_deaf c; self_mute := v;
     connVoiceChannel := connVoiceChannel c; connectionState := connectionState c;
     lastUpdate := lastUpdate c; reconnectAttempts := reconnectAttempts c;
     maxReconnectAttempts := maxReconnectAttempts c;
     connUpdateQueue := connUpdateQueue c; connUpdateTimeout := connUpdateTimeout c;
     connBatchUpdates := connBatchUpdates c; connBatchDelay := connBatchDelay c |}.

Definition set_connVoiceChannel (v : option string) (c : Connection) : Connection :=
  {| voice := voice c; region := region c; self_deaf := self_deaf c;
     self_mute := self_mute c; connVoiceChannel := v;
     connectionState := connectionState c; lastUpdate := lastUpdate c;
     reconnectAttempts := reconnectAttempts c;
     maxReconnectAttempts := maxReconnectAttempts c;
     connUpdateQueue := connUpdateQueue c; connUpdateTimeout := connUpdateTimeout c;
     connBatchUpdates := connBatchUpdates c; connBatchDelay := connBatchDelay c |}.

Definition set_connectionState (v : ConnectionState) (c : Connection) : Connection :=
  {| voice := voice c; region := region c; self_deaf := self_deaf c;
     self_mute := self_mute c; connVoiceChannel := connVoiceChannel c;
     connectionState := v; lastUpdate := lastUpdate c;
     reconnectAttempts := reconnectAttempts c;
     maxReconnectAttempts := maxReconnectAttempts c;
     connUpdateQueue := connUpdateQueue c; connUpdateTimeout := connUpdateTimeout c;
     connBatchUpdates := connBatchUpdates c; connBatchDelay := connBatchDelay c |}.

Definition set_lastUpdate (v : Z) (c : Connection) : Connection :=
  {| voice := voice c; region := region c; self_deaf := self_deaf c;
     self_mute := self_mute c; connVoiceChannel := connVoiceChannel c;
     connectionState := connectionState c; lastUpdate := v;
     reconnectAttempts := reconnectAttempts c;
     maxReconnectAttempts := maxReconnectAttempts c;
     connUpdateQueue := connUpdateQueue c; connUpdateTimeout := connUpdateTimeout c;
     connBatchUpdates := connBatchUpdates c; connBatchDelay := connBatchDelay c |}.

Definition set_reconnectAttempts (v : Z) (c : Connection) : Connection :=
  {| voice := voice c; region := region c; self_deaf := self_deaf c;
     self_mute := self_mute c; connVoiceChannel := connVoiceChannel c;
     connectionState := connectionState c; lastUpdate := lastUpdate c;
     reconnectAttempts := v; maxReconnectAttempts := maxReconnectAttempts c;
     connUpdateQueue := connUpdateQueue c; connUpdateTimeout := connUpdateTimeout c;
     connBatchUpdates := connBatchUpdates c; connBatchDelay := connBatchDelay c |}.

Definition set_connUpdateQueue (v : list VoiceUpdate) (c : Connection) : Connection :=
  {| voice := voice c; region := region c; self_deaf := self_deaf c;
     self_mute := self_mute c; connVoiceChannel := connVoiceChannel c;
     connectionState := connectionState c; lastUpdate := lastUpdate c;
     reconnectAttempts := reconnectAttempts c;
     maxReconnectAttempts := maxReconnectAttempts c; connUpdateQueue := v;
     connUpdateTimeout := connUpdateTimeout c; connBatchUpdates := connBatchUpdates c;
     connBatchDelay := connBatchDelay c |}.

Definition set_connUpdateTimeout (v : option nat) (c : Connection) : Connection :=
  {| voice := voice c; region := region c; self_deaf := self_deaf c;
     self_mute := self_mute c; connVoiceChannel := connVoiceChannel c;
     connectionState := connectionState c; lastUpdate := lastUpdate c;
     reconnectAttempts := reconnectAttempts c;
     maxReconnectAttempts := maxReconnectAttempts c;
     connUpdateQueue := connUpdateQueue c; connUpdateTimeout := v;
     connBatchUpdates := connBatchUpdates c; connBatchDelay := connBatchDelay c |}.

(** The fields of a Player that the embedded methods read or write.
    [queue] is a JS array and can hold [null] ([None]).  [historyLimit] is a
    size.  [updateTimeout] is the handle of the last flush timer, if any. *)
Record Player : Type := mkPlayer {
  guildId : string;
  textChannel : option string;
  voiceChannel : option string;
  connection : Connection;
  mute : bool;
  deaf : bool;
  volume : Z;
  fadeInMs : Z;
  loop : string;
  queue : list (option Track);
  position : Z;
  current : option Track;
  previousTracks : list HistoryEntry;
  historyLimit : nat;
  playing : bool;
  paused : bool;
  connected : bool;
  timestamp : Z;
  isAutoplay : bool;
  preloadEnabled : bool;
  preloadNext : option Track;
  updateQueue : list UpdateData;
  updateTimeout : option nat;
  batchUpdates : bool;
  batchDelay : Z
}.

Definition set_textChannel (v : option string) (p : Player) : Player :=
  {| guildId := guildId p; textChannel := v; voiceChannel := voiceChannel p;
     connection := connection p; mute := mute p; deaf := deaf p; volume := volume p;
     fadeInMs := fadeInMs p; loop := loop p; queue := queue p; position := position p;
     current := current p; previousTracks := previousTracks p;
     historyLimit := historyLimit p; playing := playing p; paused := paused p;
     connected := connected p; timestamp := timestamp p; isAutoplay := isAutoplay p;
     preloadEnabled := preloadEnabled p; preloadNext := preloadNext p;
     updateQueue := updateQueue p; updateTimeout := updateTimeout p;
     batchUpdates := batchUpdates p; batchDelay := batchDelay p |}.

Definition set_voiceChannel (v : option string) (p : Player) : Player :=
  {| guildId := guildId p; textChannel := textChannel p; voiceChannel := v;
     connection := connection p; mute := mute p; deaf := deaf p; volume := volume p;
     fadeInMs := fadeInMs p; loop := loop p; queue := queue p; position := position p;
     current := current p; previousTracks := previousTracks p;
     historyLimit := historyLimit p; playing := playing p; paused := paused p;
     connected := connected p; timestamp := timestamp p; isAutoplay := isAutoplay p;
     preloadEnabled := preloadEnabled p; preloadNext := preloadNext p;
     updateQueue := updateQueue p; updateTimeout := updateTimeout p;
     batchUpdates := batchUpdates p; batchDelay := batchDelay p |}.

Definition set_connection (v : Connection) (p : Player) : Player :=
  {| guildId := guildId p; textChannel := textChannel p; voiceChannel := voiceChannel p;
     connection := v; mute := mute p; deaf := deaf p; volume := volume p;
     fadeInMs := fadeInMs p; loop := loop p; queue := queue p; position := position p;
     current := current p; previousTracks := previousTracks p;
     historyLimit := historyLimit p; playing := playing p; paused := paused p;
     connected := connected p; timestamp := timestamp p; isAutoplay := isAutoplay p;
     preloadEnabled := preloadEnabled p; preloadNext := preloadNext p;
     updateQueue := updateQueue p; updateTimeout := updateTimeout p;
     batchUpdates := batchUpdates p; batchDelay := batchDelay p |}.

Definition set_volume (v : Z) (p : Player) : Player :=
  {| guildId := guildId p; textChannel := textChannel p; voiceChannel := voiceChannel p;
     connection := connection p; mute := mute p; deaf := deaf p; volume := v;
     fadeInMs := fadeInMs p; loop := loop p; queue := queue p; position := position p;
     current := current p; previousTracks := previousTracks p;
     historyLimit := historyLimit p; playing := playing p; paused := paused p;
     connected := connected p; timestamp := timestamp p; isAutoplay := isAutoplay p;
     preloadEnabled := preloadEnabled p; preloadNext := preloadNext p;
     updateQueue := updateQueue p; updateTimeout := updateTimeout p;
     batchUpdates := batchUpdates p; batchDelay := batchDelay p |}.

Definition set_loop (v : string) (p : Player) : Player :=
  {| guildId := guildId p; textChannel := textChannel p; voiceChannel := voiceChannel p;
     connection := connection p; mute := mute p; deaf := deaf p; volume := volume p;
     fadeInMs := fadeInMs p; loop := v; queue := queue p; position := position p;
     current := current p; previousTracks := previousTracks p;
     historyLimit := historyLimit p; playing := playing p; paused := paused p;
     connected := connected p; timestamp := timestamp p; isAutoplay := isAutoplay p;
     preloadEnabled := preloadEnabled p; preloadNext := preloadNext p;
     updateQueue := updateQueue p; updateTimeout := updateTimeout p;
     batchUpdates := batchUpdates p; batchDelay := batchDelay p |}.


Definition set_queue (v : list (option Track)) (p : Player) : Player :=
  {| guildId := guildId p; textChannel := textChannel p; voiceChannel := voiceChannel p;
     connection := connection p; mute := mute p; deaf := deaf p; volume := volume p;
     fadeInMs := fadeInMs p; loop := loop p; queue := v; position := position p;
     current := current p; previousTracks := previousTracks p;
     historyLimit := historyLimit p; playing := playing p; paused := paused p;
     connected := connected p; timestamp := timestamp p; isAutoplay := isAutoplay p;
     preloadEnabled := preloadEnabled p; preloadNext := preloadNext p;
     updateQueue := updateQueue p; updateTimeout := updateTimeout p;
     batchUpdates := batchUpdates p; batchDelay := batchDelay p |}.

Definition set_position (v : Z) (p : Player) : Player :=
  {| guildId := guildId p; textChannel := textChannel p; voiceChannel := voiceChannel p;
     connection := connection p; mute := mute p; deaf := deaf p; volume := volume p;
     fadeInMs := fadeInMs p; loop := loop p; queue := queue p; position := v;
     current := current p; previousTracks := previousTracks p;
     historyLimit := historyLimit p; playing := playing p; paused := paused p;
     connected := connected p; timestamp := timestamp p; isAutoplay := isAutoplay p;
     preloadEnabled := preloadEnabled p; preloadNext := preloadNext p;
     updateQueue := updateQueue p; updateTimeout := updateTimeout p;
     batchUpdates := batchUpdates p; batchDelay := batchDelay p |}.

Definition set_current (v : option Track) (p : Player) : Player :=
  {| guildId := guildId p; textChannel := textChannel p; voiceChannel := voiceChannel p;
     connection := connection p; mute := mute p; deaf := deaf p; volume := volume p;
     fadeInMs := fadeInMs p; loop := loop p; queue := queue p; position := position p;
     current := v; previousTracks := previousTracks p; historyLimit := historyLimit p;
     playing := playing p; paused := paused p; connected := connected p;
     timestamp := timestamp p; isAutoplay := isAutoplay p;
     preloadEnabled := preloadEnabled p; preloadNext := preloadNext p;
     updateQueue := updateQueue p; updateTimeout := updateTimeout p;
     batchUpdates := batchUpdates p; batchDelay := batchDelay p |}.

Definition set_previousTracks (v : list HistoryEntry) (p : Player) : Player :=
  {| guildId := guildId p; textChannel := textChannel p; voiceChannel := voiceChannel p;
     connection := connection p; mute := mute p; deaf := deaf p; volume := volume p;
     fadeInMs := fadeInMs p; loop := loop p; queue := queue p; position := position p;
     current := current p; previousTracks := v; historyLimit := historyLimit p;
     playing := playing p; paused := paused p; connected := connected p;
     timestamp := timestamp p; isAutoplay := isAutoplay p;
     preloadEnabled := preloadEnabled p; preloadNext := preloadNext p;
     updateQueue := updateQueue p; updateTimeout := updateTimeout p;
     batchUpdates := batchUpdates p; batchDelay := batchDelay p |}.

Definition set_playing (v : bool) (p : Player) : Player :=
  {| guildId := guildId p; textChannel := textChannel p; voiceChannel := voiceChannel p;
     connection := connection p; mute := mute p; deaf := deaf p; volume := volume p;
     fadeInMs := fadeInMs p; loop := loop p; queue := queue p; position := position p;
     current := current p; previousTracks := previousTracks p;
     historyLimit := historyLimit p; playing := v; paused := paused p;
     connected := connected p; timestamp := timestamp p; isAutoplay := isAutoplay p;
     preloadEnabled := preloadEnabled p; preloadNext := preloadNext p;
     updateQueue := updateQueue p; updateTimeout := updateTimeout p;
     batchUpdates := batchUpdates p; batchDelay := batchDelay p |}.

Definition set_paused (v : bool) (p : Player) : Player :=
  {| guildId := guildId p; textChannel := textChannel p; voiceChannel := voiceChannel p;
     connection := connection p; mute := mute p; deaf := deaf p; volume := volume p;
     fadeInMs := fadeInMs p; loop := loop p; queue := queue p; position := position p;
     current := current p; previousTracks := previousTracks p;
     historyLimit := historyLimit p; playing := playing p; paused := v;
     connected := connected p; timestamp := timestamp p; isAutoplay := isAutoplay p;
     preloadEnabled := preloadEnabled p; preloadNext := preloadNext p;
     updateQueue := updateQueue p; updateTimeout := updateTimeout p;
     batchUpdates := batchUpdates p; batchDelay := batchDelay p |}.

Definition set_connected (v : bool) (p : Player) : Player :=
  {| guildId := guildId p; textChannel := textChannel p; voiceChannel := voiceChannel p;
     connection := connection p; mute := mute p; deaf := deaf p; volume := volume p;
     fadeInMs := fadeInMs p; loop := loop p; queue := queue p; position := position p;
     current := current p; previousTracks := previousTracks p;
     historyLimit := historyLimit p; playing := playing p; paused := paused p;
     connected := v; timestamp := timestamp p; isAutoplay := isAutoplay p;
     preloadEnabled := preloadEnabled p; preloadNext := preloadNext p;
     updateQueue := updateQueue p; updateTimeout := updateTimeout p;
     batchUpdates := batchUpdates p; batchDelay := batchDelay p |}.

Definition set_timestamp (v : Z) (p : Player) : Player :=
  {| guildId := guildId p; textChannel := textChannel p; voiceChannel := voiceChannel p;
     connection := connection p; mute := mute p; deaf := deaf p; volume := volume p;
     fadeInMs := fadeInMs p; loop := loop p; queue := queue p; position := position p;
     current := current p; previousTracks := previousTracks p;
     historyLimit := historyLimit p; playing := playing p; paused := paused p;
     connected := connected p; timestamp := v; isAutoplay := isAutoplay p;
     preloadEnabled := preloadEnabled p; preloadNext := preloadNext p;
     updateQueue := updateQueue p; updateTimeout := updateTimeout p;
     batchUpdates := batchUpdates p; batchDelay := batchDelay p |}.

Definition set_isAutoplay (v : bool) (p : Player) : Player :=
  {| guildId := guildId p; textChannel := textChannel p; voiceChannel := voiceChannel p;
     connection := connection p; mute := mute p; deaf := deaf p; volume := volume p;
     fadeInMs := fadeInMs p; loop := loop p; queue := queue p; position := position p;
     current := current p; previousTracks := previousTracks p;
     historyLimit := historyLimit p; playing := playing p; paused := paused p;
     connected := connected p; timestamp := timestamp p; isAutoplay := v;
     preloadEnabled := preloadEnabled p; preloadNext := preloadNext p;
     updateQueue := updateQueue p; updateTimeout := updateTimeout p;
     batchUpdates := batchUpdates p; batchDelay := batchDelay p |}.

Definition set_preloadNext (v : option Track) (p : Player) : Player :=
  {| guildId := guildId p; textChannel := textChannel p; voiceChannel := voiceChannel p;
     connection := connection p; mute := mute p; deaf := deaf p; volume := volume p;
     fadeInMs := fadeInMs p; loop := loop p; queue := queue p; position := position p;
     current := current p; previousTracks := previousTracks p;
     historyLimit := historyLimit p; playing := playing p; paused := paused p;
     connected := connected p; timestamp := timestamp p; isAutoplay := isAutoplay p;
     preloadEnabled := preloadEnabled p; preloadNext := v; updateQueue := updateQueue p;
     updateTimeout := updateTimeout p; batchUpdates := batchUpdates p;
     batchDelay := batchDelay p |}.

Definition set_updateQueue (v : list UpdateData) (p : Player) : Player :=
  {| guildId := guildId p; textChannel := textChannel p; voiceChannel := voiceChannel p;
     connection := connection p; mute := mute p; deaf := deaf p; volume := volume p;
     fadeInMs := fadeInMs p; loop := loop p; queue := queue p; position := position p;
     current := current p; previousTracks := previousTracks p;
     historyLimit := historyLimit p; playing := playing p; paused := paused p;
     connected := connected p; timestamp := timestamp p; isAutoplay := isAutoplay p;
     preloadEnabled := preloadEnabled p; preloadNext := preloadNext p; updateQueue := v;
     updateTimeout := updateTimeout p; batchUpdates := batchUpdates p;
     batchDelay := batchDelay p |}.

Definition set_updateTimeout (v : option nat) (p : Player) : Player :=
  {| guildId := guildId p; textChannel := textChannel p; voiceChannel := voiceChannel p;
     connection := connection p; mute := mute p; deaf := deaf p; volume := volume p;
     fadeInMs := fadeInMs p; loop := loop p; queue := queue p; position := position p;
     current := current p; previousTracks := previousTracks p;
     historyLimit := historyLimit p; playing := playing p; paused := paused p;
     connected := connected p; timestamp := timestamp p; isAutoplay := isAutoplay p;
     preloadEnabled := preloadEnabled p; preloadNext := preloadNext p;
     updateQueue := updateQueue p; updateTimeout := v; batchUpdates := batchUpdates p;
     batchDelay := batchDelay p |}.

(** A pending [setTimeout]: what it will run when it fires. *)
Inductive Callback : Type :=
| PlayerFlush          (* Player.processUpdateQueue *)
| ConnectionFlush      (* Connection.processUpdateQueue *)
| ConnectionRetry      (* Connection.queueUpdate, after the backoff *)
| PlayerDisconnected   (* emit playerDisconnect *)
| ResumePlay.          (* the rest of play() after its one second wait *)

Record Timer : Type := mkTimer {
  handle : nat;
  delay : Z;
  callback : Callback
}.

(** One Player together with what it reaches through [this.eura] and
    [this.node]: the keys of [eura.players], the pending timers, whether a
    REST call to the node succeeds ([nodeUp]), whether
    [eura.leastUsedNodes] is non-empty, the bot's id, the two cosmetic
    switches, the outcome of [Track.resolve], and the trace. *)
Record World : Type := mkWorld {
  self : Player;
  players : gset string;
  timers : list Timer;
  nextHandle : nat;
  nodeUp : bool;
  nodesAvailable : bool;
  clientId : string;
  setActivityStatus : bool;
  euraSync : bool;
  resolveTrack : Track -> Result (option Track);
  trace : list Effect
}.

Definition set_self (v : Player) (w : World) : World :=
  {| self := v; players := players w; timers := timers w; nextHandle := nextHandle w;
     nodeUp := nodeUp w; nodesAvailable := nodesAvailable w; clientId := clientId w;
     setActivityStatus := setActivityStatus w; euraSync := euraSync w;
     resolveTrack := resolveTrack w; trace := trace w |}.

Definition set_players (v : gset string) (w : World) : World :=
  {| self := self w; players := v; timers := timers w; nextHandle := nextHandle w;
     nodeUp := nodeUp w; nodesAvailable := nodesAvailable w; clientId := clientId w;
     setActivityStatus := setActivityStatus w; euraSync := euraSync w;
     resolveTrack := resolveTrack w; trace := trace w |}.

Definition set_timers (v : list Timer) (w : World) : World :=
  {| self := self w; players := players w; timers := v; nextHandle := nextHandle w;
     nodeUp := nodeUp w; nodesAvailable := nodesAvailable w; clientId := clientId w;
     setActivityStatus := setActivityStatus w; euraSync := euraSync w;
     resolveTrack := resolveTrack w; trace := trace w |}.

Definition set_nextHandle (v : nat) (w : World) : World :=
  {| self := self w; players := players w; timers := timers w; nextHandle := v;
     nodeUp := nodeUp w; nodesAvailable := nodesAvailable w; clientId := clientId w;
     setActivityStatus := setActivityStatus w; euraSync := euraSync w;
     resolveTrack := resolveTrack w; trace := trace w |}.

Definition set_trace (v : list Effect) (w : World) : World :=
  {| self := self w; players := players w; timers := timers w;
     nextHandle := nextHandle w; nodeUp := nodeUp w; nodesAvailable := nodesAvailable w;
     clientId := clientId w; setActivityStatus := setActivityStatus w;
     euraSync := euraSync w; resolveTrack := resolveTrack w; trace := v |}.

Definition updPlayer (f : Player -> Player) (w : World) : World :=
  set_self (f (self w)) w.

Definition updConnection (f : Connection -> Connection) (w : World) : World :=
  updPlayer (fun p => set_connection (f (connection p)) p) w.

Definition effect (e : Effect) (w : World) : World :=
  set_trace (trace w ++ [e]) w.

Definition emit (event : string) (w : World) : World :=
  effect (Emit event) w.

(** [setTimeout(callback, delay)]: the new handle and the world after. *)
Definition setTimeout (cb : Callback) (ms : Z) (w : World) : nat * World :=
  let h := nextHandle w in
  (h, set_nextHandle (S h) (set_timers (timers w ++ [mkTimer h ms cb]) w)).

(** [clearTimeout(handle)]: a handle that is not pending is ignored. *)
Definition clearTimeout (h : nat) (w : World) : World :=
  set_timers (List.filter (fun t => negb (Nat.eqb (handle t) h)) (timers w)) w.

(** [if (handle) clearTimeout(handle)]. *)
Definition clearIfSet (h : option nat) (w : World) : World :=
  match h with Some n => clearTimeout n w | None => w end.

(** JS truthiness of a string that may be [null] / [undefined]. *)
Definition truthyS (s : option string) : bool :=
  match s with Some EmptyString => false | Some _ => true | None => false end.

(** What a call leaves behind when it can fail after it has already
    changed the state: the world it leaves, and the error it throws (or its
    promise rejects with), if any. *)
Record Completion : Type := mkCompletion {
  after : World;
  thrown : option JsError
}.

Definition done_ (w : World) : Completion := mkCompletion w None.
Definition failed (e : JsError) (w : World) : Completion := mkCompletion w (Some e).

(* ================================================================== *)
(** * Player (Player.js) *)

Module Player.

(** The options the constructor reads; [None] is an absent key. *)
Record Options : Type := mkOptions {
  o_guildId : string;
  o_textChannel : option string;
  o_voiceChannel : option string;
  o_mute : option bool;
  o_deaf : option bool;
  o_defaultVolume : option Z;
  o_fadeInMs : option Z;
  o_loop : option string;
  o_historyLimit : option nat
}.

(** [new Connection(player)]. *)
Definition newConnection (now : Z) (channel : option string) : Connection :=
  {| voice := mkVoice None None None None; region := None;
     self_deaf := false; self_mute := false; connVoiceChannel := channel;
     connectionState := disconnected; lastUpdate := now;
     reconnectAttempts := 0; maxReconnectAttempts := 3;
     connUpdateQueue := []; connUpdateTimeout := None;
     connBatchUpdates := true; connBatchDelay := 50 |}.

(** [new Player(eura, node, options)]. *)
Definition create (now : Z) (o : Options) : Player :=
  {| guildId := o_guildId o; textChannel := o_textChannel o;
     voiceChannel := o_voiceChannel o;
     connection := newConnection now (o_voiceChannel o);
     mute := default false (o_mute o); deaf := default false (o_deaf o);
     volume := default 100 (o_defaultVolume o);
     fadeInMs := default 0 (o_fadeInMs o);
     loop := default "none" (o_loop o);
     queue := []; position := 0; current := None; previousTracks := [];
     historyLimit := match o_historyLimit o with
                     | Some (S n) => S n
                     | _ => 20%nat
                     end;
     playing := false; paused := false; connected := false; timestamp := now;
     isAutoplay := false; preloadEnabled := true; preloadNext := None;
     updateQueue := []; updateTimeout := None; batchUpdates := true;
     batchDelay := 25 |}.

(** [get previous()]: [this.previousTracks?.[0]]. *)
Definition previous (p : Player) : option HistoryEntry :=
  head (previousTracks p).

(** [addToPreviousTrack(track)]. *)
Definition addToPreviousTrack (now : Z) (tr : option Track) (p : Player) : Player :=
  match tr with
  | None => p
  | Some t =>
      let historyEntry := mkEntry t now 1 in
      match previousTracks p with
      | h :: rest =>
          if String.eqb (identifier (info (played h))) (identifier (info t))
          then set_previousTracks (mkEntry (played h) now (replayCount h + 1) :: rest) p
          else
            let unshifted := historyEntry :: previousTracks p in
            if Nat.ltb (historyLimit p) (List.length unshifted)
            then set_previousTracks (firstn (historyLimit p) unshifted) p
            else set_previousTracks unshifted p
      | [] =>
          let unshifted := [historyEntry] in
          if Nat.ltb (historyLimit p) (List.length unshifted)
          then set_previousTracks (firstn (historyLimit p) unshifted) p
          else set_previousTracks unshifted p
      end
  end.

(** [performUpdate(updateData)]: the PATCH; on failure [playerError] is
    emitted and the error rethrown. *)
Definition performUpdate (data : UpdateData) (w : World) : Completion :=
  let w := effect (Patch (guildId (self w)) (BodyUpdate data)) w in
  if nodeUp w then done_ w
  else failed (Error "Request failed") (emit "playerError" w).

(** [queueUpdate(updateData)]. *)
Definition queueUpdate (now : Z) (data : UpdateData) (w : World) : World :=
  if negb (batchUpdates (self w)) then after (performUpdate data w)
  else
    let entry := assign data (mkUpdate None None None None (Some now)) in
    let w := updPlayer (fun p => set_updateQueue (updateQueue p ++ [entry]) p) w in
    let w := clearIfSet (updateTimeout (self w)) w in
    let '(h, w) := setTimeout PlayerFlush (batchDelay (self w)) w in
    updPlayer (set_updateTimeout (Some h)) w.

(** [processUpdateQueue()]: the queued updates merged, oldest first. *)
Definition processUpdateQueue (w : World) : World :=
  match updateQueue (self w) with
  | [] => w
  | updates =>
      let mergedUpdate := fold_left assign updates noUpdate in
      let w := updPlayer (set_updateQueue []) w in
      let c := performUpdate mergedUpdate w in
      match thrown c with
      | Some _ => emit "playerError" (after c)
      | None => after c
      end
  end.

(** The [catch] of [play]: [playerError] is emitted, the error rethrown. *)
Definition playError (e : JsError) (w : World) : Completion :=
  failed e (emit "playerError" w).

Definition notInitiated : string :=
  "Player connection is not initiated. Kindly use Euralink.createConnection() and establish a connection, TIP: Check if Guild Voice States intent is set/provided & 'updateVoiceState' is used in the raw(Gateway Raw) event".

(** The background [nextCandidate.resolve(this.eura)] of the preload:
    [Track.resolve] fills the queued track in place and the result becomes
    [preloadNext.next]; a failure is swallowed after [trackError].  Every
    queued track is a Track object, so it has its [resolve] method. *)
Definition preloadResolve (w : World) : World :=
  match queue (self w) with
  | Some n :: rest =>
      if preloadEnabled (self w) && negb (truthyS (track n)) then
        match resolveTrack w n with
        | Ok (Some r) =>
            updPlayer (fun p => set_preloadNext (Some r) (set_queue (Some r :: rest) p)) w
        | Ok None => updPlayer (set_preloadNext None) w
        | Throw _ => emit "trackError" w
        end
      else w
  | _ => w
  end.

(** [play], from [this.playing = true] on, with [this.current] set. *)
Definition startCurrent (now : Z) (cur : Track) (w : World) : Completion :=
  let w := updPlayer (fun p => set_timestamp now (set_position 0 (set_playing true p))) w in
  let w := queueUpdate now (mkUpdate (Some (track cur)) None None None None) w in
  let w :=
    match queue (self w) with
    | nextCandidate :: _ =>
        if preloadEnabled (self w) then
          match nextCandidate with
          | Some n =>
              if truthyS (track n) then updPlayer (set_preloadNext (Some n)) w else w
          | None => updPlayer (set_preloadNext None) w
          end
        else updPlayer (set_preloadNext None) w
    | [] => updPlayer (set_preloadNext None) w
    end in
  let w :=
    if Z.ltb 0 (fadeInMs (self w))
    then effect (FadeIn (volume (self w)) (fadeInMs (self w))) w
    else w in
  done_ (preloadResolve w).

(** [play], from [this.current = this.queue.shift()] on. *)
Definition resumePlay (now : Z) (w : World) : Completion :=
  match queue (self w) with
  | [] =>
      playError (TypeError "Cannot read properties of undefined (reading 'track')")
                (updPlayer (set_current None) w)
  | None :: rest =>
      playError (TypeError "Cannot read properties of null (reading 'track')")
                (updPlayer (fun p => set_current None (set_queue rest p)) w)
  | Some t :: rest =>
      let w := updPlayer (fun p => set_current (Some t) (set_queue rest p)) w in
      if truthyS (track t) then startCurrent now t w
      else
        match resolveTrack w t with
        | Throw e => playError e (emit "trackError" w)
        | Ok None =>
            playError (TypeError "Cannot destructure property 'track' of 'this.current' as it is undefined.")
              (updPlayer (fun p => set_timestamp now (set_position 0
                                     (set_playing true (set_current None p)))) w)
        | Ok (Some r) => startCurrent now r (updPlayer (set_current (Some r)) w)
        end
  end.

(** [play()].  When the Connection is not yet [connected] the call waits
    one second: the rest runs when the [ResumePlay] timer fires. *)
Definition play (now : Z) (w : World) : Completion :=
  if negb (connected (self w)) then playError (Error notInitiated) w
  else
    match queue (self w) with
    | [] => done_ w
    | _ :: _ =>
        if ConnectionState_eqb (connectionState (connection (self w))) connected_
        then resumePlay now w
        else done_ (snd (setTimeout ResumePlay 1000 w))
    end.

(** [stop()]. *)
Definition stop (now : Z) (w : World) : World :=
  let w := updPlayer (fun p => set_timestamp now (set_playing false (set_position 0 p))) w in
  queueUpdate now (mkUpdate (Some None) None None None None) w.

(** [pause(toggle = true)]. *)
Definition pause (now : Z) (toggle : bool) (w : World) : World :=
  let w := queueUpdate now (mkUpdate None None (Some toggle) None None) w in
  updPlayer (fun p => set_timestamp now (set_paused toggle (set_playing (negb toggle) p))) w.

(** [seek(position)]. *)
Definition seek (now : Z) (pos : Z) (w : World) : World :=
  let w := queueUpdate now (mkUpdate None (Some pos) None None None) w in
  updPlayer (fun p => set_timestamp now (set_position pos p)) w.

(** [setVolume(volume)]. *)
Definition setVolume (now : Z) (vol : Z) (w : World) : Result World :=
  if Z.ltb vol 0 || Z.ltb 1000 vol
  then Throw (RangeError "Volume must be between 0 and 1000")
  else
    let w := queueUpdate now (mkUpdate None None None (Some vol) None) w in
    Ok (updPlayer (set_volume vol) w).

(** [setLoop(mode)]. *)
Definition setLoop (mode : string) (w : World) : Result World :=
  if String.eqb mode "none" || String.eqb mode "track" || String.eqb mode "queue"
  then Ok (updPlayer (set_loop mode) w)
  else Throw (RangeError "Loop mode must be 'none', 'track', or 'queue'").

(** [connect(options = this)]; [options] contributes [guildId],
    [voiceChannel] and [textChannel].  [eura.send] is taken not to throw. *)
Definition connect (guild channel text : option string) (w : World) : Result World :=
  if negb (nodesAvailable w) then Throw (Error "No nodes are available.")
  else if connected (self w) then Ok w
  else
    match guild with
    | Some g =>
        if negb (truthyS guild && truthyS channel && truthyS text)
        then Throw (Error "Missing required options: guildId, voiceChannel, textChannel")
        else if ConnectionState_eqb (connectionState (connection (self w))) connecting
        then Ok w
        else
          let w := updConnection (set_connectionState connecting) w in
          let w := updPlayer (fun p => set_textChannel text (set_voiceChannel channel p)) w in
          Ok (effect (GatewaySend g channel (mute (self w)) (deaf (self w))) w)
    | None => Throw (Error "Missing required options: guildId, voiceChannel, textChannel")
    end.

(** [disconnect()]. *)
Definition disconnect (now : Z) (w : World) : World :=
  if ConnectionState_eqb (connectionState (connection (self w))) disconnected
     || negb (truthyS (voiceChannel (self w)))
  then w
  else
    let w := pause now true w in
    let w := updPlayer (set_playing false) w in
    let w := effect (GatewaySend (guildId (self w)) None false false) w in
    let w := updConnection (set_connectionState disconnected) w in
    let w := updPlayer (fun p => set_voiceChannel None (set_connected false p)) w in
    snd (setTimeout PlayerDisconnected 100 w).

(** [destroy(disconnect = true)]. *)
Definition destroy (now : Z) (disconnectFirst : bool) (w : World) : World :=
  let w := if disconnectFirst then disconnect now w else w in
  let w :=
    match updateTimeout (self w) with
    | Some h => updPlayer (set_updateTimeout None) (clearTimeout h w)
    | None => w
    end in
  let w := updPlayer (set_updateQueue []) w in
  let w := effect (Delete (guildId (self w))) w in
  let w := if nodeUp w then w else emit "playerError" w in
  let w :=
    if bool_decide (guildId (self w) ∈ players w)
    then set_players (players w ∖ {[ guildId (self w) ]}) w
    else w in
  let w := if setActivityStatus w then effect (SetActivity None) w else w in
  emit "playerDestroy" w.

(** [trackStart(player, track, payload)]. *)
Definition trackStart (now : Z) (tr : option Track) (w : World) : Completion :=
  let w := updPlayer (fun p => set_timestamp now (set_playing true p)) w in
  let w :=
    match current (self w), tr with
    | None, Some t => updPlayer (set_current (Some t)) w
    | _, _ => w
    end in
  let w := emit "trackStart" w in
  let readsTrack := setActivityStatus w || (euraSync w && truthyS (voiceChannel (self w))) in
  match tr with
  | None =>
      if readsTrack
      then failed (TypeError "Cannot read properties of null (reading 'info')") w
      else done_ w
  | Some t =>
      let w := if setActivityStatus w then effect (SetActivity (Some t)) w else w in
      let w :=
        if euraSync w && truthyS (voiceChannel (self w))
        then effect (VoiceStatus (default "" (voiceChannel (self w))) (Some t)) w
        else w in
      done_ w
  end.

(** [trackEnd], up to and including the first [emit("trackEnd", ...)]:
    the flag, the pseudo crossfade, the history, the observation. *)
Definition trackEnded (now : Z) (tr : option Track) (reason : string) (w : World) : World :=
  let w := updPlayer (set_playing false) w in
  let shouldFadeOut :=
    Nat.ltb 0 (List.length (queue (self w))) && String.eqb reason "FINISHED"
    && Z.ltb 0 (fadeInMs (self w)) in
  let w :=
    if shouldFadeOut
    then effect (FadeOut (volume (self w)) (Z.min (fadeInMs (self w)) 3000)) w
    else w in
  let w := updPlayer (addToPreviousTrack now tr) w in
  emit "trackEnd" w.

(** The end of [trackEnd] when nothing is left to play. *)
Definition queueEnded (w : World) : World :=
  let w :=
    if euraSync w && truthyS (voiceChannel (self w))
    then effect (VoiceStatus (default "" (voiceChannel (self w))) None) w
    else w in
  let w := if setActivityStatus w then effect (SetActivity None) w else w in
  emit "queueEnd" w.

(** [trackEnd(player, track, payload)]; [reason] is [payload.reason].
    [this.play()] and [this.autoplay(player)] are not awaited: an error of
    [play] is left in its rejected promise. *)
Definition trackEnd (now : Z) (tr : option Track) (reason : string) (w : World) : World :=
  let w := trackEnded now tr reason w in
  if String.eqb reason "REPLACED" then emit "trackEnd" w
  else if negb (connected (self w)) then
    let w := emit "queueEnd" w in
    if setActivityStatus w then effect (SetActivity None) w else w
  else if String.eqb (loop (self w)) "track" && negb (String.eqb reason "STOPPED") then
    after (play now (updPlayer (fun p => set_queue (tr :: queue p) p) w))
  else if String.eqb (loop (self w)) "queue" && negb (String.eqb reason "STOPPED") then
    after (play now (updPlayer (fun p => set_queue (queue p ++ [tr]) p) w))
  else if Nat.ltb 0 (List.length (queue (self w))) then after (play now w)
  else if isAutoplay (self w) then effect (InvokeAutoplay (previous (self w))) w
  else queueEnded w.

(** The payload of a node event: its [type] and, for a TrackEndEvent,
    its [reason]. *)
Record EventPayload : Type := mkPayload {
  type_ : string;
  reason_ : string
}.

(** [trackStuck], up to its observation.  With [voiceResilience.enabled]
    the code goes on to [attemptVoiceRecovery], which connects and restarts
    and so sends to the node; that is not part of this definition. *)
Definition trackStuck (w : World) : World := emit "trackStuck" w.

(** [handleEvent(payload)]; the track handed on is [this.current].  The
    restart that [socketClosed] may schedule is outside the embedding. *)
Definition handleEvent (now : Z) (payload : EventPayload) (w : World) : World :=
  if String.eqb (type_ payload) "TrackStartEvent"
  then after (trackStart now (current (self w)) w)
  else if String.eqb (type_ payload) "TrackEndEvent"
  then trackEnd now (current (self w)) (reason_ payload) w
  else if String.eqb (type_ payload) "TrackExceptionEvent" then emit "trackError" w
  else if String.eqb (type_ payload) "TrackStuckEvent" then trackStuck w
  else if String.eqb (type_ payload) "WebSocketClosedEvent" then emit "socketClosed" w
  else w.

End Player.

(* ================================================================== *)
(** * Connection (Connection.js) *)

Module Connection.

(** ** The string functions [extractRegion] is built from *)

Definition isDigit (c : ascii) : bool :=
  Nat.leb 48 (nat_of_ascii c) && Nat.leb (nat_of_ascii c) 57.

Definition isLowerLetter (c : ascii) : bool :=
  Nat.leb 97 (nat_of_ascii c) && Nat.leb (nat_of_ascii c) 122.

Definition isUpperLetter (c : ascii) : bool :=
  Nat.leb 65 (nat_of_ascii c) && Nat.leb (nat_of_ascii c) 90.

(** [s.split(".")[0]], which is also [s.split(".").shift()]. *)
Fixpoint firstSegment (s : string) : string :=
  match s with
  | EmptyString => EmptyString
  | String c rest => if Ascii.eqb c "." then EmptyString else String c (firstSegment rest)
  end.

(** [s.replace(/[0-9]/g, "")]. *)
Fixpoint removeDigits (s : string) : string :=
  match s with
  | EmptyString => EmptyString
  | String c rest => if isDigit c then removeDigits rest else String c (removeDigits rest)
  end.

(** [s.toLowerCase()], on the ASCII letters. *)
Fixpoint toLowerCase (s : string) : string :=
  match s with
  | EmptyString => EmptyString
  | String c rest =>
      String (if isUpperLetter c then ascii_of_nat (nat_of_ascii c + 32) else c)
             (toLowerCase rest)
  end.

(** The longest prefix of [s] whose characters satisfy [f], and the rest. *)
Fixpoint span (f : ascii -> bool) (s : string) : string * string :=
  match s with
  | EmptyString => (EmptyString, EmptyString)
  | String c rest =>
      if f c then let '(taken, others) := span f rest in (String c taken, others)
      else (EmptyString, s)
  end.

(** [/([a-z]+)[0-9]*\.discord\.com/] anchored at the start of [s]: the
    three character classes are disjoint, so the greedy runs are the only
    way to match. *)
Definition matchDiscordAt (s : string) : option string :=
  let '(letters, afterLetters) := span isLowerLetter s in
  match letters with
  | EmptyString => None
  | _ =>
      let '(_, afterDigits) := span isDigit afterLetters in
      if String.prefix ".discord.com" afterDigits then Some letters else None
  end.

(** [s.match(/([a-z]+)[0-9]*\.discord\.com/)?.[1]]: the leftmost match. *)
Fixpoint matchDiscord (s : string) : option string :=
  match matchDiscordAt s with
  | Some group => Some group
  | None =>
      match s with
      | EmptyString => None
      | String _ rest => matchDiscord rest
      end
  end.

(** The [for (const method of methods)] loop of [extractRegion]. *)
Fixpoint firstRegion (candidates : list (option string)) : string :=
  match candidates with
  | [] => "unknown"
  | candidate :: others =>
      match candidate with
      | Some (String c rest) => toLowerCase (String c rest)
      | _ => firstRegion others
      end
  end.

(** [extractRegion(endpoint)]. *)
Definition extractRegion (endpoint : option string) : option string :=
  match endpoint with
  | Some (String c rest) =>
      let e := String c rest in
      Some (firstRegion [ Some (removeDigits (firstSegment e));
                          matchDiscord e;
                          Some (removeDigits (firstSegment e)) ])
  | _ => None
  end.

(** ** The methods *)

(** [updatePlayerVoiceData(updateData = null)]. *)
Definition updatePlayerVoiceData (now : Z) (updateData : option VoiceUpdate) (w : World)
  : Completion :=
  let c := connection (self w) in
  let '(v, vol) :=
    match updateData with
    | Some u => (vu_voice u, vu_volume u)
    | None => (voice c, volume (self w))
    end in
  let w := effect (Patch (guildId (self w)) (BodyVoice v vol)) w in
  if nodeUp w
  then done_ (updConnection (fun c => set_reconnectAttempts 0 (set_lastUpdate now c)) w)
  else failed (Error "Request failed") (emit "connectionError" w).

(** [queueUpdate()]. *)
Definition queueUpdate (now : Z) (w : World) : World :=
  if negb (connBatchUpdates (connection (self w)))
  then after (updatePlayerVoiceData now None w)
  else
    let entry := mkVoiceUpdate (voice (connection (self w))) (volume (self w)) now in
    let w := updConnection (fun c => set_connUpdateQueue (connUpdateQueue c ++ [entry]) c) w in
    let w := clearIfSet (connUpdateTimeout (connection (self w))) w in
    let '(h, w) := setTimeout ConnectionFlush (connBatchDelay (connection (self w))) w in
    updConnection (set_connUpdateTimeout (Some h)) w.

(** [processUpdateQueue()]: only the latest queued update is sent. *)
Definition processUpdateQueue (now : Z) (w : World) : World :=
  match last (connUpdateQueue (connection (self w))) with
  | None => w
  | Some latestUpdate =>
      let w := updConnection (set_connUpdateQueue []) w in
      let c := updatePlayerVoiceData now (Some latestUpdate) w in
      match thrown c with
      | None => after c
      | Some _ =>
          let w := after c in
          let conn := connection (self w) in
          if Z.ltb (reconnectAttempts conn) (maxReconnectAttempts conn) then
            let attempts := reconnectAttempts conn + 1 in
            let w := updConnection (set_reconnectAttempts attempts) w in
            snd (setTimeout ConnectionRetry (2 ^ attempts * 1000) w)
          else emit "connectionError" w
      end
  end.

(** The payload [d] of a VOICE_SERVER_UPDATE. *)
Record ServerUpdate : Type := mkServerUpdate {
  su_endpoint : option string;
  su_token : option string
}.

(** The payload [d] of a VOICE_STATE_UPDATE. *)
Record StateUpdate : Type := mkStateUpdate {
  st_session_id : option string;
  st_channel_id : option string;
  st_self_deaf : bool;
  st_self_mute : bool
}.

Definition missingEndpoint : string :=
  "Missing 'endpoint' property in VOICE_SERVER_UPDATE packet/payload, Wait for some time Or Disconnect the Bot from Voice Channel and Try Again.".

(** [setServerUpdate], first part: endpoint, token and region are stored. *)
Definition storeServer (data : ServerUpdate) (w : World) : World :=
  updConnection (fun c =>
    set_region (extractRegion (su_endpoint data))
      (set_voice (mkVoice (sessionId (voice c)) (event (voice c))
                          (su_endpoint data) (su_token data)) c)) w.

(** [setServerUpdate], the auto-resume:
    [if (this.player.paused && this.connectionState === 'connecting')
       this.player.pause(false)]. *)
Definition autoResume (now : Z) (w : World) : World :=
  if paused (self w)
     && ConnectionState_eqb (connectionState (connection (self w))) connecting
  then Player.pause now false w
  else w.

(** [setServerUpdate], last part before the flush is queued. *)
Definition markConnected (now : Z) (w : World) : World :=
  let w := updConnection (set_connectionState connected_) w in
  let w := updPlayer (set_connected true) w in
  updConnection (fun c => set_reconnectAttempts 0 (set_lastUpdate now c)) w.

(** [setServerUpdate(data)]. *)
Definition setServerUpdate (now : Z) (data : ServerUpdate) (w : World) : Result World :=
  if negb (truthyS (su_endpoint data)) then Throw (Error missingEndpoint)
  else Ok (queueUpdate now (markConnected now (autoResume now (storeServer data w)))).

(** [session_id || null]. *)
Definition orNull (s : option string) : option string :=
  if truthyS s then s else None.

(** [setStateUpdate(data)]. *)
Definition setStateUpdate (now : Z) (data : StateUpdate) (w : World) : World :=
  match st_channel_id data with
  | None =>
      let w := updConnection (set_connectionState disconnected) w in
      let w := updPlayer (set_connected false) w in
      let w := emit "playerDisconnect" w in
      Player.destroy now true w
  | Some channel_id =>
      let moved :=
        truthyS (voiceChannel (self w)) && truthyS (Some channel_id)
        && negb (bool_decide (voiceChannel (self w) = Some channel_id)) in
      let w :=
        if moved then
          let w := emit "playerMove" w in
          let w := updPlayer (set_voiceChannel (Some channel_id)) w in
          updConnection (set_connVoiceChannel (Some channel_id)) w
        else w in
      let w := updConnection (fun c =>
                 set_voice (mkVoice (orNull (st_session_id data)) (event (voice c))
                                    (endpoint (voice c)) (token (voice c)))
                   (set_self_mute (st_self_mute data)
                      (set_self_deaf (st_self_deaf data) c))) w in
      let w := updConnection (set_connectionState connected_) w in
      let w := updPlayer (set_connected true) w in
      updConnection (set_lastUpdate now) w
  end.

(** [destroy()]. *)
Definition destroy (w : World) : World :=
  let w := clearIfSet (connUpdateTimeout (connection (self w))) w in
  updConnection (fun c => set_connectionState destroyed (set_connUpdateQueue [] c)) w.

End Connection.

(* ================================================================== *)
(** * The timers firing *)

(** The pending timer with handle [h] fires at time [now]: it leaves
    [timers] and its callback runs.  A handle that is not pending does
    nothing. *)
Definition fire (now : Z) (h : nat) (w : World) : World :=
  match List.find (fun t => Nat.eqb (handle t) h) (timers w) with
  | None => w
  | Some t =>
      let w := clearTimeout h w in
      match callback t with
      | PlayerFlush => Player.processUpdateQueue w
      | ConnectionFlush => Connection.processUpdateQueue now w
      | ConnectionRetry => Connection.queueUpdate now w
      | PlayerDisconnected => emit "playerDisconnect" w
      | ResumePlay => after (Player.resumePlay now w)
      end
  end.

(* ================================================================== *)
(** * Euralink (Euralink.js) *)

Module Euralink.

(** ** Gateway packets *)

(** A raw gateway packet [{ t, d }], for the two kinds that
    [updateVoiceState] accepts and any other [t]. *)
Inductive Packet : Type :=
| VOICE_SERVER_UPDATE (guild_id : string) (d : Connection.ServerUpdate)
| VOICE_STATE_UPDATE (guild_id user_id : string) (d : Connection.StateUpdate)
| OtherPacket (t : string).

(** [this.players.get(guild_id)] finds the Player of this world: its key
    is in the map and the packet is for its guild.  A Player of another
    guild is not part of the world. *)
Definition hasPlayer (guild_id : string) (w : World) : bool :=
  bool_decide (guild_id ∈ players w) && String.eqb guild_id (guildId (self w)).

(** [updateVoiceState(packet)]. *)
Definition updateVoiceState (now : Z) (packet : Packet) (w : World) : Result World :=
  match packet with
  | OtherPacket _ => Ok w
  | VOICE_SERVER_UPDATE guild_id d =>
      if hasPlayer guild_id w then Connection.setServerUpdate now d w else Ok w
  | VOICE_STATE_UPDATE guild_id user_id d =>
      if hasPlayer guild_id w then
        if negb (String.eqb user_id (clientId w)) then Ok w
        else Ok (Connection.setStateUpdate now d w)
      else Ok w
  end.

(** [createPlayer(node, options)]: the new Player replaces [self].
    [player.connect(options)] is not awaited: when it fails the error
    stays in its promise. *)
Definition createPlayer (now : Z) (o : Player.Options) (w : World) : World :=
  let w := set_self (Player.create now o) w in
  let w := set_players (players w ∪ {[ Player.o_guildId o ]}) w in
  let w :=
    match Player.connect (Some (Player.o_guildId o)) (Player.o_voiceChannel o)
                         (Player.o_textChannel o) w with
    | Ok connectedWorld => connectedWorld
    | Throw _ => w
    end in
  emit "playerCreate" w.

(** ** resolve *)

(** A track as the node sends it: [{ encoded, info }]. *)
Record RawTrack : Type := mkRaw {
  encoded : option string;
  rawInfo : TrackInfo
}.

(** [new Track(data, requester, node)], for the fields of [Track]. *)
Definition newTrack (data : RawTrack) : Track :=
  mkTrack (encoded data) (rawInfo data).

(** The body of a [loadtracks] answer, by shape.  The first five are the
    v4 answers, named by their [loadType]; [Legacy] is a v3 answer with its
    own [loadType] and top-level [tracks]; [Text] is a body that is not
    JSON. *)
Inductive Response : Type :=
| TrackLoaded (data : option RawTrack)
| PlaylistLoaded (data : option (option string * list RawTrack))
| SearchLoaded (data : option (list RawTrack))
| EmptyLoaded
| ErrorLoaded (message : option string)
| Legacy (loadType : string) (tracks : option (list RawTrack))
| Text (body : string).

(** [response.loadType]; [None] is [undefined]. *)
Definition loadType (r : Response) : option string :=
  match r with
  | TrackLoaded _ => Some "track"
  | PlaylistLoaded _ => Some "playlist"
  | SearchLoaded _ => Some "search"
  | EmptyLoaded => Some "empty"
  | ErrorLoaded _ => Some "error"
  | Legacy lt _ => Some lt
  | Text _ => None
  end.

Definition loadTypeIs (name : string) (r : Response) : bool :=
  match loadType r with Some lt => String.eqb lt name | None => false end.

(** [response.loadType === "empty" || response.loadType === "NO_MATCHES"]. *)
Definition noMatches (r : Response) : bool :=
  loadTypeIs "empty" r || loadTypeIs "NO_MATCHES" r.

(** [!response || response.loadType === "error"]; [None] is [null]. *)
Definition failedLoad (response : option Response) : bool :=
  match response with
  | None => true
  | Some (Text EmptyString) => true
  | Some r => loadTypeIs "error" r
  end.

(** [response?.data?.message || 'Failed to load tracks']. *)
Definition failureMessage (response : option Response) : string :=
  match response with
  | Some (ErrorLoaded (Some (String c rest))) => String c rest
  | _ => "Failed to load tracks"
  end.

(** The node a request goes to: [rest.version] and what the node answers
    to its [n]-th request of this call, for the endpoint asked. *)
Record Node : Type := mkNode {
  name : string;
  version : string;
  answer : nat -> string -> Result (option Response)
}.

(** Requests are threaded through a log of the endpoints asked so far;
    the log survives a throw. *)
Definition Requests (A : Type) : Type := list string -> Result A * list string.

Definition ret {A : Type} (a : A) : Requests A := fun log => (Ok a, log).

Definition throw {A : Type} (e : JsError) : Requests A := fun log => (Throw e, log).

Definition bind {A B : Type} (m : Requests A) (k : A -> Requests B) : Requests B :=
  fun log =>
    match m log with
    | (Ok a, log') => k a log'
    | (Throw e, log') => (Throw e, log')
    end.

Notation "'call' x <- m ; k" := (bind m (fun x => k))
  (at level 10, x name, m at level 100, k at level 200).

(** [requestNode.rest.makeRequest("GET", endpoint)]. *)
Definition makeRequest (node : Node) (endpoint : string) : Requests (option Response) :=
  fun log => (answer node (List.length log) endpoint, (log ++ [endpoint])%list).

(** [/^https?:\/\//.test(query)]. *)
Definition isUrl (query : string) : bool :=
  String.prefix "http://" query || String.prefix "https://" query.

Definition hexDigit (n : nat) : ascii :=
  match String.get n "0123456789ABCDEF" with Some c => c | None => "0"%char end.

(** The characters [encodeURIComponent] leaves as they are. *)
Definition unreserved (c : ascii) : bool :=
  Connection.isLowerLetter c || Connection.isUpperLetter c || Connection.isDigit c
  || existsb (Ascii.eqb c) (list_ascii_of_string "-_.!~*'()").

(** [encodeURIComponent(s)], byte by byte on the UTF-8 text. *)
Fixpoint encodeURIComponent (s : string) : string :=
  match s with
  | EmptyString => EmptyString
  | String c rest =>
      if unreserved c then String c (encodeURIComponent rest)
      else String "%" (String (hexDigit (Nat.div (nat_of_ascii c) 16))
                        (String (hexDigit (Nat.modulo (nat_of_ascii c) 16))
                           (encodeURIComponent rest)))
  end.

Definition loadtracks (node : Node) (identifier : string) : string :=
  "/" ++ version node ++ "/loadtracks?identifier=" ++ identifier.

Definition spotifyTrack (query : string) : string :=
  "https://open.spotify.com/track/" ++ query.

Definition youtubeWatch (query : string) : string :=
  "https://www.youtube.com/watch?v=" ++ query.

Definition readLoadType : JsError :=
  TypeError "Cannot read properties of null (reading 'loadType')".

(** The first request of [resolve] and its retry for a URL that failed. *)
Definition firstLoad (node : Node) (querySource query : string) : Requests Response :=
  let identifier := if isUrl query then query else querySource ++ ":" ++ query in
  call response <- makeRequest node (loadtracks node (encodeURIComponent identifier));
  call response <-
    (if failedLoad response then
       call response <-
         (if isUrl query
          then makeRequest node
                 (loadtracks node (encodeURIComponent (querySource ++ ":" ++ query)))
          else ret response);
       if failedLoad response then throw (Error (failureMessage response))
       else ret response
     else ret response);
  match response with
  | Some r => ret r
  | None => throw readLoadType
  end.

(** "for resolving identifiers - Only works in Spotify and Youtube": the
    two further requests after an answer without matches. *)
Definition identifierFallback (node : Node) (query : string) (response : Response)
  : Requests (option Response) :=
  if noMatches response then
    call response <- makeRequest node (loadtracks node (spotifyTrack query));
    match response with
    | None => throw readLoadType
    | Some r =>
        if noMatches r
        then makeRequest node (loadtracks node (youtubeWatch query))
        else ret (Some r)
    end
  else ret (Some response).

(** What [resolve] returns. *)
Record Resolved : Type := mkResolved {
  r_loadType : option string;
  r_tracks : list Track;
  r_playlistInfo : option string
}.

(** [this.tracks], from the answer; the debug record of a [track] answer
    reads [this.tracks[0].info], which throws when [data] was absent. *)
Definition tracksOf (node : Node) (r : Response) : Result (list Track) :=
  if String.eqb (version node) "v4" then
    if loadTypeIs "track" r then
      match r with
      | TrackLoaded (Some data) => Ok [newTrack data]
      | _ => Throw (TypeError "Cannot read properties of undefined (reading 'info')")
      end
    else if loadTypeIs "playlist" r then
      match r with
      | PlaylistLoaded (Some (_, trackData)) => Ok (map newTrack trackData)
      | _ => Ok []
      end
    else
      match r with
      | SearchLoaded (Some trackData) => Ok (map newTrack trackData)
      | _ => Ok []
      end
  else
    match r with
    | Legacy _ (Some trackData) => Ok (map newTrack trackData)
    | _ => Ok []
    end.

(** [this.playlistInfo], from the answer. *)
Definition playlistInfoOf (node : Node) (r : Response) : option string :=
  if String.eqb (version node) "v4" && loadTypeIs "playlist" r then
    match r with
    | PlaylistLoaded (Some (playlist, _)) => playlist
    | _ => None
    end
  else None.

(** The rest of [resolve], from the answer that is kept. *)
Definition finish (node : Node) (response : option Response) : Requests Resolved :=
  match response with
  | None => throw readLoadType
  | Some r =>
      match tracksOf node r with
      | Ok tracks => ret (mkResolved (loadType r) tracks (playlistInfoOf node r))
      | Throw e => throw e
      end
  end.

(** [resolve({ query, source, requester, node })].  [requestNode] is the
    node the lookup [nodeMap.get(node) || node || leastUsedNodes[0]]
    ends on, if any. *)
Definition resolve (initiated : bool) (requestNode : option Node)
    (defaultSearchPlatform : string) (query : string) (source : option string)
  : Requests Resolved :=
  if negb initiated
  then throw (Error "You have to initialize Euralink in your ready event")
  else
    match requestNode with
    | None => throw (Error "No nodes are available.")
    | Some node =>
        let querySource := if truthyS source then default "" source
                           else defaultSearchPlatform in
        call response <- firstLoad node querySource query;
        call response <- identifierFallback node query response;
        finish node response
    end.

End Euralink.

(* ================================================================== *)
(** * Worlds to run the code on *)

Module Sample.

Definition options : Player.Options :=
  {| Player.o_guildId := "1"; Player.o_textChannel := Some "TC";
     Player.o_voiceChannel := Some "VC"; Player.o_mute := None;
     Player.o_deaf := None; Player.o_defaultVolume := None;
     Player.o_fadeInMs := None; Player.o_loop := None;
     Player.o_historyLimit := None |}.

(** A process with one node up, the bot ["bot"], no Player yet. *)
Definition blank : World :=
  {| self := Player.create 0 options; players := ∅; timers := [];
     nextHandle := 0; nodeUp := true; nodesAvailable := true;
     clientId := "bot"; setActivityStatus := false; euraSync := false;
     resolveTrack := fun t => Ok (Some t); trace := [] |}.

(** [eura.createConnection] for guild ["1"], at time [0]. *)
Definition created : World := Euralink.createPlayer 0 options blank.

Definition trackA : Track :=
  mkTrack (Some "QAAA") (mkInfo "idA" "A" "artist" 180000 "youtube" "https://a").

Definition trackB : Track :=
  mkTrack (Some "QBBB") (mkInfo "idB" "B" "artist" 200000 "youtube" "https://b").

(** The Player after its voice handshake, with [trackA] current and
    [trackB] queued. *)
Definition playingA : World :=
  updPlayer (fun p =>
    set_connected true (set_playing true (set_current (Some trackA)
      (set_queue [Some trackB]
         (set_connection (set_connectionState connected_ (connection p)) p)))))
    created.

(** The same, with [trackA] already the newest entry of the history. *)
Definition replayingA : World :=
  updPlayer (set_previousTracks [mkEntry trackA 0 1]) playingA.

(** A Player that is registered but has not asked for a voice connection:
    its Connection is still [disconnected]. *)
Definition registered : World :=
  set_players {[ "1" ]} blank.

(** [playingA] with the queue empty. *)
Definition lastA : World :=
  updPlayer (set_queue []) playingA.

(** A v4 node that has no match for the first two requests of a call and
    answers the third with [trackA]. *)
Definition thirdTime : Euralink.Node :=
  {| Euralink.name := "main"; Euralink.version := "v4";
     Euralink.answer := fun n _ =>
       match n with
       | 0%nat | 1%nat => Ok (Some Euralink.EmptyLoaded)
       | _ => Ok (Some (Euralink.TrackLoaded
                          (Some (Euralink.mkRaw (track trackA) (info trackA)))))
       end |}.

Definition serverUpdate : Euralink.Packet :=
  Euralink.VOICE_SERVER_UPDATE "1"
    (Connection.mkServerUpdate (Some "us-east42.example:443") (Some "T")).

Definition stateUpdate : Euralink.Packet :=
  Euralink.VOICE_STATE_UPDATE "1" "bot"
    (Connection.mkStateUpdate (Some "S") (Some "VC") false false).

End Sample.

(* ================================================================== *)
(** * What the specification says, in its own words *)

Module Spec.

(** "p.playing ⇒ p.current ≠ null and p.paused ⇒ ¬p.playing". *)
Definition playerInvariant (p : Player) : Prop :=
  (playing p = true -> current p <> None) /\ (paused p = true -> playing p = false).

(** "seek(posMs) must be within [0, current.length] if current.length > 0;
    otherwise a validation error", which changes no state. *)
Definition seekOutOfRange (pos : Z) (p : Player) : bool :=
  match current p with
  | Some t => Z.ltb 0 (trackLength (info t))
              && (Z.ltb pos 0 || Z.ltb (trackLength (info t)) pos)
  | None => false
  end.

Definition seek (now pos : Z) (w : World) : Result World :=
  if seekOutOfRange pos (self w)
  then Throw (RangeError "Position must be within the current track")
  else Ok (Player.seek now pos w).

(** "stop() clears current, sets playing=false, schedules
    track.encoded = null; does not clear the queue". *)
Definition stopped (now : Z) (before after : World) : Prop :=
  current (self after) = None
  /\ playing (self after) = false
  /\ updateQueue (self after)
     = (updateQueue (self before)
          ++ [mkUpdate (Some None) None None None (Some now)])%list
  /\ queue (self after) = queue (self before).

(** "destroy() called twice is equivalent to called once; no second
    DELETE /players/{id} is issued". *)
Definition destroyedOnce (first second : World) : Prop :=
  self second = self first
  /\ List.length (List.filter isDelete (trace second))
     = List.length (List.filter isDelete (trace first)).

(** "len(history) ≤ historyLimit" and "history[i].identifier ≠
    history[i+1].identifier". *)
Fixpoint adjacentDistinct (history : list HistoryEntry) : Prop :=
  match history with
  | newer :: (older :: _) as rest =>
      identifier (info (played newer)) <> identifier (info (played older))
      /\ adjacentDistinct rest
  | _ => True
  end.

Definition historyInvariant (p : Player) : Prop :=
  (List.length (previousTracks p) <= historyLimit p)%nat
  /\ adjacentDistinct (previousTracks p).

(** S1: the voice handshake, server update first.  [sent] is the world
    when the flush timer of the Connection has fired. *)
Definition handshake (start afterServer afterState sent : World) : Prop :=
  connectionState (connection (self start)) = disconnected
  /\ connectionState (connection (self afterServer)) = connecting
  /\ connectionState (connection (self afterState)) = connected_
  /\ region (connection (self afterState)) = Some "us-east"
  /\ List.filter isPatch (trace sent)
     = [Patch (guildId (self start))
          (BodyVoice (mkVoice (Some "S") None (Some "us-east42.example:443") (Some "T"))
                     (volume (self start)))].

End Spec.

(* ================================================================== *)
(** * Queue (Queue.js) *)

Module Queue.

Section Elements.
Context {A : Type}.

(** [this.splice(start, deleteCount, ...items)] for [0 <= start]: the
    removed elements and the array after. *)
Definition splice (start deleteCount : nat) (items : list A) (q : list A)
  : list A * list A :=
  (firstn deleteCount (skipn start q),
   (firstn start q ++ items ++ skipn (start + deleteCount) q)%list).

(** [index < 0 || index >= this.length]. *)
Definition outside (index : Z) (q : list A) : bool :=
  Z.ltb index 0 || Z.leb (Z.of_nat (List.length q)) index.

(** [remove(index)]: the removed element ([None] is the [null] of an index
    out of range) and the queue after. *)
Definition remove (index : Z) (q : list A) : option A * list A :=
  if outside index q then (None, q)
  else
    let '(removed, rest) := splice (Z.to_nat index) 1 [] q in
    (head removed, rest).

(** [move(from, to)]. *)
Definition move (from to : Z) (q : list A) : list A :=
  if outside from q || outside to q then q
  else
    let '(removed, rest) := splice (Z.to_nat from) 1 [] q in
    snd (splice (Z.to_nat to) 0 removed rest).

(** [insert(index, track)]. *)
Definition insert (index : Z) (item : A) (q : list A) : list A :=
  let index := if Z.ltb index 0 then 0 else index in
  let index := if Z.ltb (Z.of_nat (List.length q)) index
               then Z.of_nat (List.length q) else index in
  snd (splice (Z.to_nat index) 0 [item] q).

(** [[this[i], this[j]] = [this[j], this[i]]] for two indices in range
    (out of range the array is left as it is here; no caller does that). *)
Definition exchange (i j : nat) (q : list A) : list A :=
  match q !! i, q !! j with
  | Some x, Some y => <[j := x]> (<[i := y]> q)
  | _, _ => q
  end.

(** [swap(index1, index2)]. *)
Definition swap (index1 index2 : Z) (q : list A) : list A :=
  if outside index1 q || outside index2 q then q
  else exchange (Z.to_nat index1) (Z.to_nat index2) q.

(** [getRange(start, end)]. *)
Definition getRange (start end_ : Z) (q : list A) : list A :=
  let start := if Z.ltb start 0 then 0 else start in
  let end_ := if Z.ltb (Z.of_nat (List.length q)) end_
              then Z.of_nat (List.length q) else end_ in
  if Z.leb end_ start then []
  else firstn (Z.to_nat end_ - Z.to_nat start) (skipn (Z.to_nat start) q).

(** The Fisher-Yates loop
    [for (let i = n; i > 0; i--) { const j = Math.floor(Math.random() * (i + 1)); swap i, j }].
    [pick i] is the [j] drawn at index [i]; [Math.random()] lies in [0, 1),
    so [pick i <= i]. *)
Fixpoint fisherYates (pick : nat -> nat) (i : nat) (q : list A) : list A :=
  match i with
  | O => q
  | S below => fisherYates pick below (exchange i (pick i) q)
  end.

(** [shuffle()]. *)
Definition shuffle (pick : nat -> nat) (q : list A) : list A :=
  if Nat.leb (List.length q) 1 then q
  else fisherYates pick (List.length q - 1) q.

(** The inner loop of [shuffleAsync] for the chunk that starts at [i]:
    [for (let j = end - 1; j > i; j--) {
       const k = i + Math.floor(Math.random() * (j - i + 1)); swap j, k }],
    with [rounds] rounds to go, so that [j] is [i + rounds].  [pick j] is
    the floor drawn at [j], at most [j - i]. *)
Fixpoint shuffleChunk (pick : nat -> nat) (i rounds : nat) (q : list A) : list A :=
  match rounds with
  | O => q
  | S below =>
      shuffleChunk pick i below
        (exchange (i + rounds)%nat (i + pick (i + rounds)%nat)%nat q)
  end.

(** The outer loop, [for (let i = 0; i < this.length; i += chunkSize)],
    with [chunks] chunks to go; [end] is
    [Math.min(i + chunkSize, this.length)]. *)
Fixpoint shuffleChunks (pick : nat -> nat) (chunkSize chunks i : nat) (q : list A)
  : list A :=
  match chunks with
  | O => q
  | S more =>
      let end_ := Nat.min (i + chunkSize)%nat (List.length q) in
      shuffleChunks pick chunkSize more (i + chunkSize)%nat
                    (shuffleChunk pick i (end_ - 1 - i)%nat q)
  end.

(** [shuffleAsync()], with its chunks of 1000: the queue it resolves to.
    The chunks are those that start below the length. *)
Definition shuffleAsync (pick : nat -> nat) (q : list A) : list A :=
  if Nat.leb (List.length q) 1 then q
  else shuffleChunks pick 1000 (Nat.div (List.length q + 999)%nat 1000) 0 q.

(** [removeTracks(criteria)] for a function: the removed tracks and the
    queue after, both in queue order. *)
Definition removeTracks (criteria : A -> bool) (q : list A) : list A * list A :=
  (List.filter criteria q, List.filter (fun x => negb (criteria x)) q).

End Elements.

(** [add(track)]: a falsy track is not added. *)
Definition add (item : option Track) (q : list (option Track)) : list (option Track) :=
  match item with
  | None => q
  | Some _ => (q ++ [item])%list
  end.

(** The identifiers [smartShuffle] collects from the first [recentCount]
    entries of the history. *)
Definition recentIdentifiers (recentCount : nat) (history : list HistoryEntry)
  : list string :=
  List.filter (fun s => negb (String.eqb s ""))
    (map (fun h => identifier (info (played h))) (firstn recentCount history)).

(** [track?.info?.identifier && recent.has(track.info.identifier)]. *)
Definition isRecent (recent : list string) (item : option Track) : bool :=
  match item with
  | Some t =>
      negb (String.eqb (identifier (info t)) "")
      && existsb (String.eqb (identifier (info t))) recent
  | None => false
  end.

(** [smartShuffle(recentCount = 5)]; [history] is
    [this.player?.previousTracks || []], and the two shuffles draw from
    [pickOther] and [pickRecent]. *)
Definition smartShuffle (pickOther pickRecent : nat -> nat) (recentCount : nat)
    (history : list HistoryEntry) (q : list (option Track)) : list (option Track) :=
  if Nat.leb (List.length q) 1 then q
  else
    let recent := recentIdentifiers recentCount history in
    let recentTracks := List.filter (isRecent recent) q in
    let otherTracks := List.filter (fun x => negb (isRecent recent x)) q in
    (fisherYates pickOther (List.length otherTracks - 1) otherTracks
     ++ fisherYates pickRecent (List.length recentTracks - 1) recentTracks)%list.

(** [getTotalDuration()]: the sum of [track.info.length || 0]. *)
Definition getTotalDuration (q : list Track) : Z :=
  fold_left (fun total t => total + trackLength (info t)) q 0.

End Queue.

(* ================================================================== *)
(** * Player (Player.js), seeking by percentage and saved state *)

Module Playback.

(** [seekPercentage(percentage)], for a whole percentage.  The position is
    computed in integers here; [Math.floor((length * percentage) / 100)] is
    computed in doubles, and is the same number while [length * 100] stays
    below 2^53. *)
Definition seekPercentage (now : Z) (percentage : Z) (w : World) : World :=
  match current (self w) with
  | None => w
  | Some cur =>
      if Z.ltb percentage 0 || Z.ltb 100 percentage then w
      else Player.seek now (trackLength (info cur) * percentage / 100) w
  end.

(** [autoResumeState]; [lastFilters] is a filters payload, or [null]. *)
Record AutoResume : Type := mkAutoResume {
  enabled : bool;
  lastTrack : option Track;
  lastPosition : Z;
  lastVolume : Z;
  lastFilters : option string;
  lastUpdate : Z
}.

(** A Player with the three fields that [toJSON] saves besides those of
    [Player]: [ping], the entries of [data], and [autoResumeState]
    ([None] when it is [null] or [undefined]). *)
Record Instance : Type := mkInstance {
  player : Player;
  ping : Z;
  data : list (string * string);
  autoResumeState : option AutoResume
}.

(** [new Player(eura, node, options)] with these three fields, for options
    without [autoResume]. *)
Definition create (now : Z) (o : Player.Options) : Instance :=
  {| player := Player.create now o;
     ping := 0;
     data := [];
     autoResumeState :=
       Some (mkAutoResume false None 0 (volume (Player.create now o)) None now) |}.

(** What [toJSON()] returns, as the value that [savePlayersState] writes
    with [JSON.stringify] and [loadPlayersState] reads back: nothing of it
    is shared with the Player it was taken from. *)
Record Saved : Type := mkSaved {
  s_guildId : string;
  s_textChannel : option string;
  s_voiceChannel : option string;
  s_volume : Z;
  s_loop : string;
  s_playing : bool;
  s_paused : bool;
  s_connected : bool;
  s_position : Z;
  s_timestamp : Z;
  s_ping : Z;
  s_current : option Track;
  s_queue : list (option Track);
  s_previousTracks : list HistoryEntry;
  s_data : list (string * string);
  s_autoResumeState : option AutoResume
}.

Definition set_s_autoResumeState (v : option AutoResume) (saved : Saved) : Saved :=
  {| s_guildId := s_guildId saved; s_textChannel := s_textChannel saved;
     s_voiceChannel := s_voiceChannel saved; s_volume := s_volume saved;
     s_loop := s_loop saved; s_playing := s_playing saved; s_paused := s_paused saved;
     s_connected := s_connected saved; s_position := s_position saved;
     s_timestamp := s_timestamp saved; s_ping := s_ping saved;
     s_current := s_current saved; s_queue := s_queue saved;
     s_previousTracks := s_previousTracks saved; s_data := s_data saved;
     s_autoResumeState := v |}.

(** [toJSON()]. *)
Definition toJSON (i : Instance) : Saved :=
  let p := player i in
  {| s_guildId := guildId p; s_textChannel := textChannel p;
     s_voiceChannel := voiceChannel p; s_volume := volume p; s_loop := loop p;
     s_playing := playing p; s_paused := paused p; s_connected := connected p;
     s_position := position p; s_timestamp := timestamp p; s_ping := ping i;
     s_current := current p; s_queue := queue p;
     s_previousTracks := previousTracks p; s_data := data i;
     s_autoResumeState := autoResumeState i |}.

(** [if (player.autoResumeState && player.position > 0)
       player.autoResumeState.lastPosition = player.position]. *)
Definition resumeAt (position : Z) (state : option AutoResume) : option AutoResume :=
  match state with
  | Some a =>
      if Z.ltb 0 position
      then Some (mkAutoResume (enabled a) (lastTrack a) position (lastVolume a)
                              (lastFilters a) (lastUpdate a))
      else Some a
  | None => None
  end.

(** [Player.fromJSON(eura, node, data)]: a new Player from five of the
    saved fields, then the others are assigned, and [lastPosition] is set
    to the saved position. *)
Definition fromJSON (now : Z) (saved : Saved) : Instance :=
  let p :=
    Player.create now
      {| Player.o_guildId := s_guildId saved;
         Player.o_textChannel := s_textChannel saved;
         Player.o_voiceChannel := s_voiceChannel saved;
         Player.o_mute := None; Player.o_deaf := None;
         Player.o_defaultVolume := Some (s_volume saved);
         Player.o_fadeInMs := None;
         Player.o_loop := Some (s_loop saved);
         Player.o_historyLimit := None |} in
  let p := set_playing (s_playing saved) p in
  let p := set_paused (s_paused saved) p in
  let p := set_connected (s_connected saved) p in
  let p := set_position (s_position saved) p in
  let p := set_timestamp (s_timestamp saved) p in
  let p := set_current (s_current saved) p in
  let p := set_queue (s_queue saved) p in
  let p := set_previousTracks (s_previousTracks saved) p in
  {| player := p;
     ping := s_ping saved;
     data := s_data saved;
     autoResumeState := resumeAt (s_position saved) (s_autoResumeState saved) |}.

End Playback.

(* ================================================================== *)
(** * A Player that is saved and restored *)

Module Restored.

(** The sample options with [historyLimit: 25]. *)
Definition options : Player.Options :=
  {| Player.o_guildId := "1"; Player.o_textChannel := Some "TC";
     Player.o_voiceChannel := Some "VC"; Player.o_mute := None;
     Player.o_deaf := None; Player.o_defaultVolume := None;
     Player.o_fadeInMs := None; Player.o_loop := None;
     Player.o_historyLimit := Some 25%nat |}.

(** [trackA] and [trackB] in turn, 21 tracks in all, and [trackA] once
    more. *)
Definition tracks : list Track :=
  (map (fun n => if Nat.odd n then Sample.trackA else Sample.trackB) (seq 1 21)
     ++ [Sample.trackA])%list.

(** The Player that [eura.createConnection] makes with these options,
    after its voice handshake, with these tracks queued and [play()]
    called. *)
Definition started : World :=
  after
    (Player.play 0
       (updPlayer (fun p =>
          set_connected true
            (set_queue (map Some tracks)
               (set_connection (set_connectionState connected_ (connection p)) p)))
          (Euralink.createPlayer 0 options Sample.blank))).

(** The same after 21 TrackEnd events, at times 1 to 21: the last track
    is playing. *)
Definition afterPlays : World :=
  fold_left (fun w now => Player.handleEvent now (Player.mkPayload "TrackEndEvent" "FINISHED") w)
            (map Z.of_nat (seq 1 21)) started.

(** What [savePlayersState] writes for it: it has a current track. *)
Definition saved : Playback.Saved :=
  Playback.toJSON
    {| Playback.player := self afterPlays; Playback.ping := 0; Playback.data := [];
       Playback.autoResumeState :=
         Playback.autoResumeState (Playback.create 0 options) |}.

(** The Player that [loadPlayersState] makes of it with [Player.fromJSON],
    at time 100, in a new process. *)
Definition restored : World :=
  set_players {[ "1" ]}
    (set_self (Playback.player (Playback.fromJSON 100 saved)) Sample.blank).

End Restored.

(* ================================================================== *)
(** * Euralink (Euralink.js), the players map and the version check *)

Module Manager.

(** [createConnection(options)]: a guild that already has a Player gets
    that Player back. *)
Definition createConnection (initiated : bool) (now : Z) (o : Player.Options) (w : World)
  : Result World :=
  if negb initiated
  then Throw (Error "You have to initialize Euralink in your ready event")
  else if bool_decide (Player.o_guildId o ∈ players w) then Ok w
  else if negb (nodesAvailable w) then Throw (Error "No nodes are available")
  else Ok (Euralink.createPlayer now o w).

(** [destroyPlayer(guildId)].  [player.destroy()] is not awaited: it runs
    up to the end of its [await this.disconnect()], the map entry is
    deleted and [playerDestroy] emitted, and the rest of [destroy] runs
    after that. *)
Definition destroyPlayer (now : Z) (guild_id : string) (w : World) : World :=
  if Euralink.hasPlayer guild_id w then
    let w := Player.disconnect now w in
    let w := set_players (players w ∖ {[ guild_id ]}) w in
    let w := emit "playerDestroy" w in
    Player.destroy now false w
  else w.

(** [removeConnection(guildId)]. *)
Definition removeConnection (now : Z) (guild_id : string) (w : World) : World :=
  if Euralink.hasPlayer guild_id w then
    let w := Player.disconnect now w in
    let w := set_players (players w ∖ {[ guild_id ]}) w in
    Player.destroy now false w
  else set_players (players w ∖ {[ guild_id ]}) w.

(** [s.replace(/[^\d.]/g, '')]. *)
Fixpoint digitsAndDots (s : string) : string :=
  match s with
  | EmptyString => EmptyString
  | String c rest =>
      if Connection.isDigit c || Ascii.eqb c "."
      then String c (digitsAndDots rest) else digitsAndDots rest
  end.

(** [s.split('.')]. *)
Fixpoint split (s : string) : list string :=
  match s with
  | EmptyString => [EmptyString]
  | String c rest =>
      if Ascii.eqb c "." then EmptyString :: split rest
      else
        match split rest with
        | first :: others => String c first :: others
        | [] => [String c EmptyString]
        end
  end.

(** [Number(s)] for a string of digits; [Number('')] is [0].  The value is
    exact here; [Number] gives a double, which is this value while it is
    below 2^53. *)
Definition Number (s : string) : N :=
  fold_left (fun n c => (n * 10 + (N.of_nat (nat_of_ascii c) - 48))%N)
            (list_ascii_of_string s) 0%N.

Definition parts (version : string) : list N :=
  map Number (split (digitsAndDots version)).

(** The loop of [isNewerVersion], from index [i] on, [remaining] rounds
    to go; [nth i parts 0] is [parts[i] || 0]. *)
Fixpoint comparePartsFrom (v1parts v2parts : list N) (remaining i : nat) : bool :=
  match remaining with
  | O => false
  | S remaining' =>
      let v1part := nth i v1parts 0%N in
      let v2part := nth i v2parts 0%N in
      if N.ltb v2part v1part then true
      else if N.ltb v1part v2part then false
      else comparePartsFrom v1parts v2parts remaining' (S i)
  end.

(** [isNewerVersion(version1, version2)]. *)
Definition isNewerVersion (version1 version2 : string) : bool :=
  let v1parts := parts version1 in
  let v2parts := parts version2 in
  comparePartsFrom v1parts v2parts
    (Nat.max (List.length v1parts) (List.length v2parts)) 0.

End Manager.

(* ================================================================== *)
(** * Rest (Rest.js) *)

Module Rest.

(** What [JSON.parse(errorText)] comes to for a response that is not [ok]:
    text that is not JSON (the text is then the message), the JSON [null],
    or another JSON value, with the text of its [message] ([""] when it has
    none, or a falsy one). *)
Inductive ErrorBody : Type :=
| NotJson (text : string)
| JsonNull
| JsonValue (message : string).

(** A response: its status, the body as [parseResponse] reads it
    ([None] when it cannot be parsed) and the body as the error path of
    [makeRequest] reads it. *)
Record Response : Type := mkResponse {
  status : Z;
  payload : option string;
  errorBody : ErrorBody
}.

(** What one [undiciFetch] comes to: a response, or a rejection (a network
    error, or the abort after [requestTimeoutMs]). *)
Inductive Fetched : Type :=
| Responded (resp : Response)
| Rejected (err : JsError).

(** The decimal text of a number. *)
Definition showZ (n : Z) : string := NilEmpty.string_of_int (Z.to_int n).

(** [resp.status === 429 || (resp.status >= 500 && resp.status < 600)]. *)
Definition retryable (code : Z) : bool :=
  Z.eqb code 429 || (Z.leb 500 code && Z.ltb code 600).

(** What a call has done: its result, the number of fetches and the
    waits between them, in milliseconds. *)
Record Run (A : Type) : Type := mkRun {
  outcome : Result A;
  fetches : nat;
  waits : list Z
}.

Arguments mkRun {A} outcome fetches waits.
Arguments outcome {A} r.
Arguments fetches {A} r.
Arguments waits {A} r.

Section Requests.

(** [fetch n] is what the [n]-th fetch of the call comes to, counted from
    0, and [jitter n] the [Math.floor(Math.random() * 100)] drawn before
    the [n]-th fetch. *)
Variable fetch : nat -> Fetched.
Variable jitter : nat -> Z.

(** The [while (attempt <= this.maxRetries)] loop of [requestWithRetry],
    with [remaining] rounds to go.  Each round fetches once, so [attempt]
    is also the number of fetches made. *)
Fixpoint retryLoop (remaining attempt : nat) (slept : list Z) : Run Response :=
  match remaining with
  | O => mkRun (Throw (Error "Request failed")) attempt slept
  | S remaining' =>
      let caught (err : JsError) :=
        let attempt := S attempt in
        match remaining' with
        | O => mkRun (Throw err) attempt slept
        | S _ =>
            let backoff := Z.min 5000 (250 * 2 ^ Z.of_nat attempt) in
            retryLoop remaining' attempt (slept ++ [backoff + jitter attempt])%list
        end in
      match fetch attempt with
      | Responded resp =>
          if retryable (status resp)
          then caught (Error ("HTTP " ++ showZ (status resp)))
          else mkRun (Ok resp) (S attempt) slept
      | Rejected err => caught err
      end
  end.

(** [requestWithRetry(url, options)]. *)
Definition requestWithRetry (maxRetries : Z) : Run Response :=
  retryLoop (Z.to_nat (maxRetries + 1)) 0 [].

(** [response.ok]. *)
Definition ok (code : Z) : bool := Z.leb 200 code && Z.leb code 299.

(** [parseResponse(response)]: [null] for a 204. *)
Definition parseResponse (resp : Response) : option string :=
  if Z.eqb (status resp) 204 then None else payload resp.

(** [errorData.message || 'Request failed']. *)
Definition orRequestFailed (s : string) : string :=
  match s with EmptyString => "Request failed" | _ => s end.

(** What [makeRequest] throws for a response that is not [ok]: reading
    [errorData.message] of [null] is a TypeError. *)
Definition httpError (resp : Response) : JsError :=
  match errorBody resp with
  | JsonNull => TypeError "Cannot read properties of null (reading 'message')"
  | NotJson text =>
      Error ("HTTP " ++ showZ (status resp) ++ ": " ++ orRequestFailed text)
  | JsonValue message =>
      Error ("HTTP " ++ showZ (status resp) ++ ": " ++ orRequestFailed message)
  end.

(** [makeRequest(method, endpoint, body)]: the parsed data. *)
Definition makeRequest (maxRetries : Z) : Run (option string) :=
  let r := requestWithRetry maxRetries in
  match outcome r with
  | Throw err => mkRun (Throw err) (fetches r) (waits r)
  | Ok resp =>
      if negb (ok (status resp))
      then mkRun (Throw (httpError resp)) (fetches r) (waits r)
      else mkRun (Ok (parseResponse resp)) (fetches r) (waits r)
  end.

(** An entry of [trackCache]. *)
Record Cached : Type := mkCached {
  data : option string;
  cachedAt : Z
}.

(** [getTracks(identifier)]: [now] is the clock when the cache is read,
    [later] the clock when the answer is stored. *)
Definition getTracks (maxRetries : Z) (now later : Z) (identifier : string)
    (trackCache : gmap string Cached) : Run (option string) * gmap string Cached :=
  let cacheKey := "tracks:" ++ identifier in
  let request (_ : unit) :=
    let r := makeRequest maxRetries in
    match outcome r with
    | Ok result => (r, <[cacheKey := mkCached result later]> trackCache)
    | Throw _ => (r, trackCache)
    end in
  match trackCache !! cacheKey with
  | Some cached =>
      if Z.ltb (now - cachedAt cached) 300000
      then (mkRun (Ok (data cached)) 0 [], trackCache)
      else request tt
  | None => request tt
  end.

End Requests.

End Rest.

(* ================================================================== *)
(** * Node (Node.js) *)

Module Node.

(** The fields of a Node that its socket handlers read or write.
    [reconnectAttempt] is the pending reconnect timer, with its delay;
    [sockets] counts the [new Websocket] of [connect]. *)
Record t : Type := mk {
  connected : bool;
  reconnectTimeout : Z;
  reconnectTries : Z;
  reconnectAttempted : Z;
  reconnectAttempt : option Z;
  lastPing : Z;
  pingHistory : list Z;
  sockets : nat;
  emitted : list string
}.

(** [new Node(eura, node, options)], from [options.reconnectTimeout] and
    [options.reconnectTries]. *)
Definition create (o_reconnectTimeout o_reconnectTries : option Z) : t :=
  {| connected := false;
     reconnectTimeout := match o_reconnectTimeout with
                         | Some 0 | None => 5000
                         | Some ms => ms
                         end;
     reconnectTries := match o_reconnectTries with
                       | Some 0 | None => 5
                       | Some n => n
                       end;
     reconnectAttempted := 1;
     reconnectAttempt := None;
     lastPing := 0;
     pingHistory := [];
     sockets := 0;
     emitted := [] |}.

(** [connect()]. *)
Definition connect (n : t) : t :=
  if connected n then n
  else
    {| connected := connected n; reconnectTimeout := reconnectTimeout n;
       reconnectTries := reconnectTries n; reconnectAttempted := reconnectAttempted n;
       reconnectAttempt := reconnectAttempt n; lastPing := lastPing n;
       pingHistory := pingHistory n; sockets := S (sockets n); emitted := emitted n |}.

(** [open()], as far as the fields go.  Its
    [clearTimeout(this.reconnectTimeout)] is handed the configured number
    of milliseconds, which is no timer. *)
Definition open (n : t) : t :=
  {| connected := true; reconnectTimeout := reconnectTimeout n;
     reconnectTries := reconnectTries n; reconnectAttempted := reconnectAttempted n;
     reconnectAttempt := reconnectAttempt n; lastPing := lastPing n;
     pingHistory := pingHistory n; sockets := sockets n; emitted := emitted n |}.

(** [reconnect()]; [jitter] is [Math.floor(Math.random() * 250)]. *)
Definition reconnect (jitter : Z) (n : t) : t :=
  let base := reconnectTimeout n in
  let attempt := Z.max 1 (reconnectAttempted n) in
  let backoff := Z.min 30000 (base * 2 ^ (attempt - 1)) in
  {| connected := connected n; reconnectTimeout := reconnectTimeout n;
     reconnectTries := reconnectTries n; reconnectAttempted := reconnectAttempted n;
     reconnectAttempt := Some (backoff + jitter); lastPing := lastPing n;
     pingHistory := pingHistory n; sockets := sockets n; emitted := emitted n |}.

(** [close(event, reason)]. *)
Definition close (jitter : Z) (n : t) : t :=
  let n :=
    {| connected := false; reconnectTimeout := reconnectTimeout n;
       reconnectTries := reconnectTries n; reconnectAttempted := reconnectAttempted n;
       reconnectAttempt := reconnectAttempt n; lastPing := lastPing n;
       pingHistory := pingHistory n; sockets := sockets n;
       emitted := (emitted n ++ ["nodeDisconnect"])%list |} in
  if Z.leb (reconnectAttempted n) (reconnectTries n) then reconnect jitter n else n.

(** The reconnect timer fires: [this.reconnectAttempted++; this.connect()].
    Without a pending timer nothing fires. *)
Definition reconnectFired (n : t) : t :=
  match reconnectAttempt n with
  | None => n
  | Some _ =>
      connect
        {| connected := connected n; reconnectTimeout := reconnectTimeout n;
           reconnectTries := reconnectTries n;
           reconnectAttempted := reconnectAttempted n + 1;
           reconnectAttempt := None; lastPing := lastPing n;
           pingHistory := pingHistory n; sockets := sockets n; emitted := emitted n |}
  end.

(** [disconnect()]. *)
Definition disconnect (n : t) : t :=
  {| connected := false; reconnectTimeout := reconnectTimeout n;
     reconnectTries := reconnectTries n; reconnectAttempted := reconnectAttempted n;
     reconnectAttempt := None; lastPing := lastPing n;
     pingHistory := pingHistory n; sockets := sockets n; emitted := emitted n |}.

(** [message(msg)] for a [stats] payload without a guild: [raw] is
    emitted and the ping recorded. *)
Definition stats (ping : Z) (n : t) : t :=
  let pushed := (pingHistory n ++ [ping])%list in
  {| connected := connected n; reconnectTimeout := reconnectTimeout n;
     reconnectTries := reconnectTries n; reconnectAttempted := reconnectAttempted n;
     reconnectAttempt := reconnectAttempt n;
     lastPing := if Z.eqb ping 0 then lastPing n else ping;
     pingHistory := if Z.eqb ping 0 then pingHistory n
                    else if Nat.ltb 10 (List.length pushed) then tl pushed else pushed;
     sockets := sockets n; emitted := (emitted n ++ ["raw"])%list |}.

(** What happens to a Node, one event at a time. *)
Inductive Event : Type :=
| Opened
| Closed (jitter : Z)
| ReconnectFired
| Stats (ping : Z)
| Disconnect.

Definition step (n : t) (e : Event) : t :=
  match e with
  | Opened => open n
  | Closed jitter => close jitter n
  | ReconnectFired => reconnectFired n
  | Stats ping => stats ping n
  | Disconnect => disconnect n
  end.

Definition run (events : list Event) (n : t) : t := fold_left step events n.

End Node.

(* ================================================================== *)
(** * Predicates the properties below are stated with *)

Module Shape.

(** A character a region name is made of: no digit, no upper-case ASCII
    letter, no dot. *)
Definition regionCharacter (c : ascii) : bool :=
  negb (Connection.isDigit c) && negb (Connection.isUpperLetter c)
  && negb (Ascii.eqb c ".").

(** A character that stands for itself in a URL query, or is part of a
    percent escape. *)
Definition queryCharacter (c : ascii) : bool :=
  Euralink.unreserved c || Ascii.eqb c "%".

Definition all (f : ascii -> bool) (s : string) : bool :=
  forallb f (list_ascii_of_string s).

Definition isGatewaySend (e : Effect) : bool :=
  match e with GatewaySend _ _ _ _ => true | _ => false end.

Definition isEmit (event : string) (e : Effect) : bool :=
  match e with Emit name => String.eqb name event | _ => false end.


(** A fetch that [requestWithRetry] does not accept: a rejection, or a
    response with status 429 or 5xx. *)
Definition failing (f : Rest.Fetched) : bool :=
  match f with
  | Rest.Responded resp => Rest.retryable (Rest.status resp)
  | Rest.Rejected _ => true
  end.

(** A character of the ASCII range. *)
Definition isAscii (c : ascii) : bool := Nat.ltb (nat_of_ascii c) 128.

(** Every part of a version is below 2^53, where a double is exact. *)
Definition exactParts (version : string) : bool :=
  forallb (fun n => N.ltb n (2 ^ 53)) (Manager.parts version).

(** The last [k] elements of a list. *)
Definition lastN {A : Type} (k : nat) (l : list A) : list A :=
  skipn (List.length l - k) l.

End Shape.

(** Closes a condition on concrete data: an equation, an inequality, the
    negation of a conjunction that fails in its first part. *)
Ltac decide_condition :=
  match goal with
  | |- _ /\ _ => split; decide_condition
  | |- ~ (_ /\ _) => let H := fresh in intros [H _]; vm_compute in H; discriminate H
  | |- _ <> _ => discriminate
  | |- _ = _ => reflexivity
  end.

(* ================================================================== *)
(** * The sample worlds *)

Example created_is_connecting :
  connectionState (connection (self Sample.created)) = connecting
  /\ trace Sample.created = [GatewaySend "1" (Some "VC") false false; Emit "playerCreate"].
Proof. vm_compute. split; reflexivity. Qed.

Example region_of_us_east42 :
  Connection.extractRegion (Some "us-east42.example:443") = Some "us-east".
Proof. reflexivity. Qed.

Example region_by_discord_pattern :
  Connection.extractRegion (Some "123.us5.discord.com") = Some "us".
Proof. reflexivity. Qed.

Example encodeURIComponent_search :
  Euralink.encodeURIComponent "ytmsearch:abc 123/x" = "ytmsearch%3Aabc%20123%2Fx".
Proof. reflexivity. Qed.

(* ================================================================== *)
(** * Filters: bassboost *)

(** The guard of [setBassboost]: a value below 0 or above 5 is rejected. *)
Lemma setBassboost_rejects (nodeUp : bool) (v : float) (f : Filters.t) :
  Filters.hasPlayer f = true ->
  (PrimFloat.ltb v 0 = true \/ PrimFloat.ltb 5 v = true) ->
  Filters.setBassboost nodeUp true (Some v) f
  = Throw (Error "Bassboost value must be between 0 and 5").
Proof.
  intros Hp Hv. unfold Filters.setBassboost. rewrite Hp. cbn [negb].
  unfold Filters.outOfRange.
  destruct Hv as [-> | ->]; [reflexivity | now rewrite orb_true_r].
Qed.

(** An accepted value gives thirteen bands, numbered from 0, all with the
    gain [Filters.num]. *)
Lemma setBassboost_bands (nodeUp : bool) (value : option float) (f : Filters.t) :
  Filters.hasPlayer f = true ->
  Filters.outOfRange value = false ->
  exists f' effects,
    Filters.setBassboost nodeUp true value f = Ok (f', effects)
    /\ List.length (Filters.equalizer f') = 13%nat
    /\ map band (Filters.equalizer f') = seq 0 13
    /\ Forall (fun b => gain b = Filters.num value) (Filters.equalizer f').
Proof.
  intros Hp Hv. unfold Filters.setBassboost. rewrite Hp, Hv. cbn [negb].
  eexists _, _. split; [reflexivity |]. cbn [Filters.equalizer].
  repeat split.
  unfold Filters.bassBands. cbn [seq map]. repeat constructor.
Qed.

(** C7, on the code: [setBassboost(true, { value: 2 })] sets the equalizer
    to the thirteen bands 0..12, each with gain [2 * (1.25 / 9) - 0.25]
    (0.0277...), where the specification has the fifteen bands 0..14 with
    gain [(2 - 1) * (1.25 / 9) - 0.25] (-0.111...). *)
Theorem setBassboost_at_2 :
  exists f' effects,
    Filters.setBassboost true true (Some 2%float)
      (Filters.mk true "1" 1%float [] None) = Ok (f', effects)
    /\ List.length (Filters.equalizer f') = 13%nat
    /\ List.length (Filters.spec_bands 2) = 15%nat
    /\ map band (Filters.equalizer f') = seq 0 13
    /\ Forall (fun b => gain b = 0.02777777777777779%float) (Filters.equalizer f')
    /\ Filters.spec_gain 2 = (-0.1111111111111111)%float
    /\ Forall (fun b => PrimFloat.eqb (gain b) (Filters.spec_gain 2) = false)
              (Filters.equalizer f').
Proof.
  eexists _, _. split; [vm_compute; reflexivity |].
  cbn [Filters.equalizer].
  repeat split; try (vm_compute; reflexivity); vm_compute; repeat constructor.
Qed.

(* ================================================================== *)
(** * Player: what the setters and the batch do *)

(** Reading a field of the Player through [updPlayer]. *)
Lemma self_updPlayer (f : Player -> Player) (w : World) :
  self (updPlayer f w) = f (self w).
Proof. reflexivity. Qed.

(** [Player.queueUpdate] with batching on: the update joins the batch
    under the clock's timestamp, and nothing else of the Player changes but
    the timer handle. *)
Lemma queueUpdate_batched (now : Z) (data : UpdateData) (w : World) :
  batchUpdates (self w) = true ->
  let w' := Player.queueUpdate now data w in
  self w'
  = set_updateTimeout (Some (nextHandle w))
      (set_updateQueue
         (updateQueue (self w)
            ++ [assign data (mkUpdate None None None None (Some now))]) (self w))
  /\ trace w' = trace w
  /\ players w' = players w
  /\ In (mkTimer (nextHandle w) (batchDelay (self w)) PlayerFlush) (timers w').
Proof.
  intros Hb. unfold Player.queueUpdate. rewrite Hb. cbn [negb].
  destruct (updateTimeout _) as [h |]; cbn; repeat split;
    apply in_or_app; right; left; reflexivity.
Qed.

(** [Player.queueUpdate] with batching off: the PATCH goes out at once. *)
Lemma queueUpdate_direct (now : Z) (data : UpdateData) (w : World) :
  batchUpdates (self w) = false ->
  let w' := Player.queueUpdate now data w in
  self w' = self w
  /\ timers w' = timers w
  /\ trace w'
     = (trace w ++ Patch (guildId (self w)) (BodyUpdate data)
          :: (if nodeUp w then [] else [Emit "playerError"]))%list.
Proof.
  intros Hb. unfold Player.queueUpdate, Player.performUpdate. rewrite Hb. cbn [negb].
  cbn. destruct (nodeUp w) eqn:E; cbn; rewrite ?E; cbn; repeat split.
  now rewrite <- app_assoc.
Qed.

(** [Player.queueUpdate] never touches the playback fields. *)
Lemma queueUpdate_frame (now : Z) (data : UpdateData) (w : World) :
  let p := self w in
  let p' := self (Player.queueUpdate now data w) in
  current p' = current p /\ queue p' = queue p /\ playing p' = playing p
  /\ paused p' = paused p /\ position p' = position p /\ volume p' = volume p
  /\ previousTracks p' = previousTracks p /\ connection p' = connection p
  /\ connected p' = connected p /\ voiceChannel p' = voiceChannel p
  /\ guildId p' = guildId p /\ batchUpdates p' = batchUpdates p.
Proof.
  unfold Player.queueUpdate, Player.performUpdate.
  destruct (batchUpdates (self w)) eqn:Hb; cbn [negb].
  - destruct (updateTimeout _); cbn; repeat split; exact Hb.
  - destruct (nodeUp w) eqn:E; cbn; rewrite ?E; cbn; repeat split; exact Hb.
Qed.

(* ================================================================== *)
(** * Player: the playback invariant *)

(** [pause(false)] sets [playing] whatever [current] is. *)
Lemma pause_false_plays (now : Z) (w : World) :
  let p' := self (Player.pause now false w) in
  playing p' = true /\ paused p' = false /\ current p' = current (self w).
Proof.
  cbn. repeat split.
  apply (queueUpdate_frame now (mkUpdate None None (Some false) None None) w).
Qed.

(** C3, on the code: [pause(false)] on a Player that has no current track
    (the Player as created) leaves [playing = true] with [current = null],
    so "playing ⇒ current ≠ null" is broken; a TrackStartEvent on the same
    Player does the same. *)
Theorem pause_false_without_track :
  let p := self (Player.pause 1 false Sample.created) in
  let q := self (Player.handleEvent 1 (Player.mkPayload "TrackStartEvent" "") Sample.created) in
  current (self Sample.created) = None
  /\ Spec.playerInvariant (self Sample.created)
  /\ playing p = true /\ current p = None /\ ~ Spec.playerInvariant p
  /\ playing q = true /\ current q = None /\ ~ Spec.playerInvariant q.
Proof.
  cbv zeta. split; [reflexivity |]. split.
  { split; intros H; vm_compute in H; discriminate. }
  repeat split; try reflexivity.
  - intros [H _]. apply H; reflexivity.
  - intros [H _]. apply H; reflexivity.
Qed.

(* ================================================================== *)
(** * Player: seek and stop *)

(** C4, counterexample: on a Player whose current track is 180000 ms long,
    [seek(-1)] raises nothing: it stores position -1 and queues it for the
    node, where the specification has a validation error and no change. *)
Lemma seek_minus_one_is_accepted :
  let w := Sample.playingA in
  let w' := Player.seek 1 (-1) w in
  Spec.seek 1 (-1) w = Throw (RangeError "Position must be within the current track")
  /\ Spec.seek 1 (-1) w <> Ok w'
  /\ position (self w') = -1
  /\ updateQueue (self w') = [mkUpdate None (Some (-1)) None None (Some 1)]
  /\ self w' <> self w.
Proof.
  cbv zeta. repeat split; try (vm_compute; reflexivity).
  - vm_compute. discriminate.
  - intros H. apply (f_equal position) in H. vm_compute in H. discriminate.
Qed.

(** C4, as the code has it: [seek(position)] checks nothing.  For every
    Player and every [pos] it sets [position] to [pos], reads the clock into
    [timestamp], leaves the track, the queue and the flags alone, and
    schedules [{ position: pos }]: into the batch when batching is on,
    as an immediate PATCH when it is off. *)
Theorem seek_any_position (now pos : Z) (w : World) :
  let p := self w in
  let w' := Player.seek now pos w in
  let p' := self w' in
  position p' = pos /\ timestamp p' = now
  /\ current p' = current p /\ queue p' = queue p
  /\ playing p' = playing p /\ paused p' = paused p
  /\ (if batchUpdates p
      then updateQueue p'
           = (updateQueue p ++ [mkUpdate None (Some pos) None None (Some now)])%list
           /\ trace w' = trace w
           /\ In (mkTimer (nextHandle w) (batchDelay p) PlayerFlush) (timers w')
      else updateQueue p' = updateQueue p
           /\ trace w'
              = (trace w
                  ++ Patch (guildId p) (BodyUpdate (mkUpdate None (Some pos) None None None))
                  :: (if nodeUp w then [] else [Emit "playerError"]))%list).
Proof.
  cbv zeta. unfold Player.seek.
  set (data := mkUpdate None (Some pos) None None None).
  pose proof (queueUpdate_frame now data w) as F. cbv zeta in F.
  destruct F as (Fc & Fq & Fpl & Fpa & _).
  rewrite !self_updPlayer. cbn [position timestamp current queue playing paused
    set_timestamp set_position updateQueue].
  repeat split; try assumption.
  destruct (batchUpdates (self w)) eqn:Hb.
  - pose proof (queueUpdate_batched now data w Hb) as B. cbv zeta in B.
    destruct B as (Bs & Bt & _ & Bi). rewrite Bs. cbn. repeat split; assumption.
  - pose proof (queueUpdate_direct now data w Hb) as D. cbv zeta in D.
    destruct D as (Ds & _ & Dt). rewrite Ds. cbn. split; [reflexivity | exact Dt].
Qed.

(** C6, counterexample: [stop()] on a Player that is playing [trackA]
    leaves [trackA] as [current]. *)
Lemma stop_keeps_trackA :
  let w' := Player.stop 1 Sample.playingA in
  current (self w') = Some Sample.trackA
  /\ ~ Spec.stopped 1 Sample.playingA w'.
Proof.
  cbv zeta. split; [reflexivity |].
  intros (H & _). vm_compute in H. discriminate.
Qed.

(** C6, as the code has it: [stop()] sets [playing = false] and
    [position = 0], schedules [{ track: { encoded: null } }] (into the batch,
    or as an immediate PATCH when batching is off), and leaves both the
    queue and [current] as they were. *)
Theorem stop_frame (now : Z) (w : World) :
  let p := self w in
  let w' := Player.stop now w in
  let p' := self w' in
  playing p' = false /\ position p' = 0
  /\ queue p' = queue p /\ current p' = current p
  /\ (if batchUpdates p
      then updateQueue p'
           = (updateQueue p ++ [mkUpdate (Some None) None None None (Some now)])%list
           /\ trace w' = trace w
           /\ In (mkTimer (nextHandle w) (batchDelay p) PlayerFlush) (timers w')
      else updateQueue p' = updateQueue p
           /\ trace w'
              = (trace w
                  ++ Patch (guildId p) (BodyUpdate (mkUpdate (Some None) None None None None))
                  :: (if nodeUp w then [] else [Emit "playerError"]))%list).
Proof.
  cbv zeta. unfold Player.stop.
  set (data := mkUpdate (Some None) None None None None).
  set (w0 := updPlayer _ w).
  pose proof (queueUpdate_frame now data w0) as F. cbv zeta in F.
  destruct F as (Fc & Fq & Fpl & _ & Fpo & _).
  rewrite Fc, Fq, Fpl, Fpo. subst w0.
  repeat split.
  destruct (batchUpdates (self w)) eqn:Hb.
  - pose proof (queueUpdate_batched now data (updPlayer
      (fun p => set_timestamp now (set_playing false (set_position 0 p))) w) Hb) as B.
    cbv zeta in B. destruct B as (Bs & Bt & _ & Bi). rewrite Bs. cbn.
    repeat split; assumption.
  - pose proof (queueUpdate_direct now data (updPlayer
      (fun p => set_timestamp now (set_playing false (set_position 0 p))) w) Hb) as D.
    cbv zeta in D. destruct D as (Ds & _ & Dt). rewrite Ds. cbn.
    split; [reflexivity | exact Dt].
Qed.

(* ================================================================== *)
(** * Player: the history *)

Lemma adjacentDistinct_firstn (n : nat) (history : list HistoryEntry) :
  Spec.adjacentDistinct history -> Spec.adjacentDistinct (firstn n history).
Proof.
  revert n. induction history as [| newer rest IH]; intros n H.
  - destruct n; exact I.
  - destruct n as [| n]; [exact I |].
    destruct rest as [| older rest']; [destruct n; exact I |].
    destruct H as [Hne Hrest]. specialize (IH n Hrest).
    destruct n as [| n]; [exact I |]. split; assumption.
Qed.

(** What [addToPreviousTrack] leaves in [previousTracks]. *)
Lemma addToPreviousTrack_history (now : Z) (t : Track) (p : Player) :
  previousTracks (Player.addToPreviousTrack now (Some t) p)
  = match previousTracks p with
    | h :: rest =>
        if String.eqb (identifier (info (played h))) (identifier (info t))
        then mkEntry (played h) now (replayCount h + 1) :: rest
        else firstn (historyLimit p) (mkEntry t now 1 :: previousTracks p)
    | [] => firstn (historyLimit p) [mkEntry t now 1]
    end
  /\ historyLimit (Player.addToPreviousTrack now (Some t) p) = historyLimit p.
Proof.
  unfold Player.addToPreviousTrack.
  destruct (previousTracks p) as [| h rest] eqn:Hh.
  - destruct (Nat.ltb _ _) eqn:Hlt; cbn [previousTracks set_previousTracks historyLimit];
      split; try reflexivity.
    apply Nat.ltb_ge in Hlt. symmetry. apply firstn_all2. exact Hlt.
  - destruct (String.eqb _ _); [split; reflexivity |].
    destruct (Nat.ltb _ _) eqn:Hlt; cbn [previousTracks set_previousTracks historyLimit];
      split; try reflexivity.
    apply Nat.ltb_ge in Hlt. symmetry. apply firstn_all2. exact Hlt.
Qed.

(** One insertion keeps the history bounded and free of equal neighbours. *)
Lemma addToPreviousTrack_invariant (now : Z) (tr : option Track) (p : Player) :
  Spec.historyInvariant p ->
  Spec.historyInvariant (Player.addToPreviousTrack now tr p).
Proof.
  intros [Hlen Hadj]. destruct tr as [t |]; [| split; assumption].
  unfold Spec.historyInvariant.
  destruct (addToPreviousTrack_history now t p) as [-> ->].
  destruct (previousTracks p) as [| h rest] eqn:Hh.
  - split.
    + rewrite length_firstn. apply Nat.le_min_l.
    + apply adjacentDistinct_firstn. exact I.
  - destruct (String.eqb _ _) eqn:Heq.
    + split; [exact Hlen |]. destruct rest; [exact I | exact Hadj].
    + split.
      * rewrite length_firstn. apply Nat.le_min_l.
      * apply adjacentDistinct_firstn. split; [| exact Hadj].
        apply String.eqb_neq in Heq. cbn. intros E. apply Heq. symmetry. exact E.
Qed.

(** From the empty history, any run of insertions keeps the invariant. *)
Lemma history_from_empty (plays : list (Z * option Track)) (p : Player) :
  previousTracks p = [] ->
  Spec.historyInvariant
    (fold_left (fun q play => Player.addToPreviousTrack (fst play) (snd play) q) plays p).
Proof.
  intros Hempty.
  assert (Spec.historyInvariant p) as Hinv.
  { unfold Spec.historyInvariant. rewrite Hempty. split; [apply Nat.le_0_l | exact I]. }
  clear Hempty. revert p Hinv.
  induction plays as [| play plays IH]; intros p Hinv; [exact Hinv |].
  cbn [fold_left]. apply IH. apply addToPreviousTrack_invariant. exact Hinv.
Qed.

(** [queueUpdate] and [play] do not touch the history. *)
Lemma queueUpdate_history (now : Z) (data : UpdateData) (w : World) :
  previousTracks (self (Player.queueUpdate now data w)) = previousTracks (self w)
  /\ historyLimit (self (Player.queueUpdate now data w)) = historyLimit (self w).
Proof.
  unfold Player.queueUpdate, Player.performUpdate.
  destruct (batchUpdates (self w)); cbn [negb].
  - destruct (updateTimeout _); cbn; split; reflexivity.
  - destruct (nodeUp w) eqn:E; cbn; rewrite ?E; cbn; split; reflexivity.
Qed.

Lemma startCurrent_history (now : Z) (cur : Track) (w : World) :
  previousTracks (self (after (Player.startCurrent now cur w))) = previousTracks (self w)
  /\ historyLimit (self (after (Player.startCurrent now cur w))) = historyLimit (self w).
Proof.
  unfold Player.startCurrent, Player.preloadResolve.
  set (w0 := updPlayer _ w).
  destruct (queueUpdate_history now (mkUpdate (Some (track cur)) None None None None) w0)
    as [Hp Hl].
  set (w1 := Player.queueUpdate _ _ w0) in *.
  assert (previousTracks (self w0) = previousTracks (self w)
          /\ historyLimit (self w0) = historyLimit (self w)) as [H0p H0l]
    by (split; reflexivity).
  rewrite <- H0p, <- H0l, <- Hp, <- Hl. clearbody w1. clear.
  repeat match goal with
         | |- context [match ?x with _ => _ end] => destruct x; cbn
         end; split; reflexivity.
Qed.

Lemma play_history (now : Z) (w : World) :
  previousTracks (self (after (Player.play now w))) = previousTracks (self w)
  /\ historyLimit (self (after (Player.play now w))) = historyLimit (self w).
Proof.
  unfold Player.play, Player.resumePlay, Player.playError.
  destruct (connected (self w)); cbn [negb]; [| split; reflexivity].
  destruct (queue (self w)) as [| [t |] rest]; [split; reflexivity | |].
  - destruct (ConnectionState_eqb _ _); [| split; reflexivity].
    destruct (truthyS (track t)).
    + set (w0 := updPlayer _ w). destruct (startCurrent_history now t w0) as [-> ->].
      split; reflexivity.
    + cbn [resolveTrack updPlayer set_self].
      destruct (resolveTrack w t) as [[r |] | e]; try (split; reflexivity).
      set (w0 := updPlayer _ _). destruct (startCurrent_history now r w0) as [-> ->].
      split; reflexivity.
  - destruct (ConnectionState_eqb _ _); split; reflexivity.
Qed.

Lemma addToPreviousTrack_reads_history (now : Z) (tr : option Track) (p q : Player) :
  previousTracks q = previousTracks p -> historyLimit q = historyLimit p ->
  previousTracks (Player.addToPreviousTrack now tr q)
  = previousTracks (Player.addToPreviousTrack now tr p)
  /\ historyLimit (Player.addToPreviousTrack now tr q) = historyLimit p.
Proof.
  intros Hp Hl. destruct tr as [t |]; [| split; assumption].
  destruct (addToPreviousTrack_history now t q) as [-> ->].
  destruct (addToPreviousTrack_history now t p) as [-> _].
  rewrite Hp, Hl. split; reflexivity.
Qed.

(** The history after the whole [trackEnd] handler is the history after its
    one call of [addToPreviousTrack]. *)
Lemma trackEnd_history (now : Z) (tr : option Track) (reason : string) (w : World) :
  previousTracks (self (Player.trackEnd now tr reason w))
  = previousTracks (Player.addToPreviousTrack now tr (self w))
  /\ historyLimit (self (Player.trackEnd now tr reason w)) = historyLimit (self w).
Proof.
  assert (previousTracks (self (Player.trackEnded now tr reason w))
          = previousTracks (Player.addToPreviousTrack now tr (self w))
          /\ historyLimit (self (Player.trackEnded now tr reason w)) = historyLimit (self w))
    as [Hp Hl].
  { unfold Player.trackEnded.
    destruct (_ && _ && _); cbn;
      apply addToPreviousTrack_reads_history; reflexivity. }
  unfold Player.trackEnd. rewrite <- Hp, <- Hl.
  set (w1 := Player.trackEnded now tr reason w). clearbody w1. clear.
  destruct (String.eqb reason "REPLACED"); [split; reflexivity |].
  destruct (connected (self w1)); cbn [negb];
    [| destruct (setActivityStatus _); split; reflexivity].
  destruct (_ && _).
  { set (w2 := updPlayer _ w1). destruct (play_history now w2) as [-> ->].
    split; reflexivity. }
  destruct (_ && _).
  { set (w2 := updPlayer _ w1). destruct (play_history now w2) as [-> ->].
    split; reflexivity. }
  destruct (Nat.ltb _ _); [apply play_history |].
  destruct (isAutoplay _); [split; reflexivity |].
  unfold Player.queueEnded.
  destruct (euraSync w1 && _); cbn; destruct (setActivityStatus w1); split; reflexivity.
Qed.

(** X30: a TrackEnd on a Player whose history is within [historyLimit]
    and has no two neighbours with the same identifier leaves it so, and
    never changes [historyLimit].  When the ended track has the identifier
    of the newest entry, that entry's [replayCount] goes up by one and its
    [playedAt] becomes the present time, with no new entry; otherwise (a
    track of another identifier, or an empty history) the track becomes
    the newest entry, played once at the present time, before the old
    entries, and only the first [historyLimit] entries are kept; without
    an ended track the history stays as it is. *)
Theorem trackEnd_history_invariant
    (now : Z) (tr : option Track) (reason : string) (w : World) :
  let p := self w in
  let p' := self (Player.trackEnd now tr reason w) in
  historyLimit p' = historyLimit p
  /\ (Spec.historyInvariant p -> Spec.historyInvariant p')
  /\ (forall t newest older,
        tr = Some t -> previousTracks p = newest :: older ->
        identifier (info (played newest)) = identifier (info t) ->
        previousTracks p' = mkEntry (played newest) now (replayCount newest + 1) :: older)
  /\ (forall t,
        tr = Some t ->
        (forall newest, head (previousTracks p) = Some newest ->
                        identifier (info (played newest)) <> identifier (info t)) ->
        previousTracks p' = firstn (historyLimit p) (mkEntry t now 1 :: previousTracks p)
        /\ (List.length (previousTracks p') <= historyLimit p)%nat)
  /\ (tr = None -> previousTracks p' = previousTracks p).
Proof.
  cbv zeta.
  destruct (trackEnd_history now tr reason w) as [Hp Hl].
  split; [exact Hl |]. split; [| split; [| split]].
  - intros Hinv.
    pose proof (addToPreviousTrack_invariant now tr (self w) Hinv) as [Hlen Hadj].
    unfold Spec.historyInvariant. rewrite Hp, Hl. split; [| exact Hadj].
    destruct tr as [t |]; [| exact Hlen].
    destruct (addToPreviousTrack_history now t (self w)) as [_ <-]. exact Hlen.
  - intros t newest older -> Hh Hid. rewrite Hp.
    destruct (addToPreviousTrack_history now t (self w)) as [-> _].
    rewrite Hh. apply String.eqb_eq in Hid. rewrite Hid. reflexivity.
  - intros t -> Hother. rewrite Hp.
    destruct (addToPreviousTrack_history now t (self w)) as [-> _].
    destruct (previousTracks (self w)) as [| newest older].
    + split; [reflexivity |]. rewrite length_firstn. apply Nat.le_min_l.
    + destruct (String.eqb_spec (identifier (info (played newest))) (identifier (info t)))
        as [Hsame | _]; [exfalso; exact (Hother newest eq_refl Hsame) |].
      split; [reflexivity |]. rewrite length_firstn. apply Nat.le_min_l.
  - intros ->. rewrite Hp. reflexivity.
Qed.

(** X30 on the sample Players: [trackA] ends again and its entry counts 2;
    [trackB] ends after it and becomes the newest entry. *)
Lemma trackEnd_history_invariant_witness :
  Spec.historyInvariant (self Sample.replayingA)
  /\ Spec.historyInvariant
       (self (Player.trackEnd 5 (Some Sample.trackA) "FINISHED" Sample.replayingA))
  /\ previousTracks (self (Player.trackEnd 5 (Some Sample.trackA) "FINISHED" Sample.replayingA))
     = [mkEntry Sample.trackA 5 2]
  /\ previousTracks (self (Player.trackEnd 5 (Some Sample.trackB) "FINISHED" Sample.replayingA))
     = [mkEntry Sample.trackB 5 1; mkEntry Sample.trackA 0 1].
Proof.
  assert (Spec.historyInvariant (self Sample.replayingA)) as H.
  { split; [vm_compute; lia | exact I]. }
  split; [exact H |].
  destruct (trackEnd_history_invariant 5 (Some Sample.trackA) "FINISHED" Sample.replayingA)
    as (_ & Hinv & Hreplay & _).
  split; [exact (Hinv H) |].
  split; [exact (Hreplay Sample.trackA (mkEntry Sample.trackA 0 1) [] eq_refl eq_refl eq_refl) |].
  destruct (trackEnd_history_invariant 5 (Some Sample.trackB) "FINISHED" Sample.replayingA)
    as (_ & _ & _ & Hother & _).
  destruct (Hother Sample.trackB eq_refl) as [Hnew _]; [| exact Hnew].
  intros newest [= <-]. discriminate.
Defined.

(** C8: the Player of [Restored] was made with [historyLimit: 25] and has
    played 21 tracks, so its history has 21 entries, no two neighbours
    alike, and the track that is playing has the identifier of the newest
    entry.  Saved and restored, it has [historyLimit] 20 and the 21
    entries, and after the TrackEnd of its current track it has them still,
    the newest counted twice: the history is longer than [historyLimit]. *)
Lemma restored_history_exceeds_limit :
  let before := self Restored.afterPlays in
  let p := self Restored.restored in
  let p' := self (Player.handleEvent 200 (Player.mkPayload "TrackEndEvent" "FINISHED")
                    Restored.restored) in
  (historyLimit before = 25%nat /\ Spec.historyInvariant before
   /\ List.length (previousTracks before) = 21%nat
   /\ current before = Some Sample.trackA)
  /\ (historyLimit p = 20%nat /\ List.length (previousTracks p) = 21%nat
      /\ current p = Some Sample.trackA)
  /\ (historyLimit p' = 20%nat /\ List.length (previousTracks p') = 21%nat)
  /\ head (previousTracks p') = Some (mkEntry Sample.trackA 200 2)
  /\ ~ Spec.historyInvariant p'.
Proof.
  cbv zeta.
  split.
  { split; [vm_compute; reflexivity |].
    split; [| split; vm_compute; reflexivity].
    split; [vm_compute; lia |]. vm_compute. repeat split; discriminate. }
  split; [repeat split; vm_compute; reflexivity |].
  split; [split; vm_compute; reflexivity |].
  split; [vm_compute; reflexivity |].
  intros [Hlen _]. vm_compute in Hlen. lia.
Qed.

(* ================================================================== *)
(** * Connection: the server update *)

(** [Connection.queueUpdate] leaves the Player's own fields and the state
    of the Connection as they are. *)
Lemma connection_queueUpdate_frame (now : Z) (w : World) :
  let p := self w in
  let p' := self (Connection.queueUpdate now w) in
  paused p' = paused p /\ playing p' = playing p /\ connected p' = connected p
  /\ current p' = current p /\ updateQueue p' = updateQueue p
  /\ connectionState (connection p') = connectionState (connection p)
  /\ voice (connection p') = voice (connection p)
  /\ region (connection p') = region (connection p).
Proof.
  unfold Connection.queueUpdate, Connection.updatePlayerVoiceData.
  destruct (connBatchUpdates (connection (self w))); cbn [negb].
  - destruct (connUpdateTimeout _); cbn; repeat split.
  - destruct (nodeUp w) eqn:E; cbn; rewrite ?E; cbn; repeat split.
Qed.

(** C10: a server update that finds the Player paused and the Connection
    [connecting] calls [pause(false)]: at that point [paused] is false,
    [playing] is true, [{ paused: false }] is scheduled for the node, and the
    Connection is still [connecting]; only then is it marked [connected],
    and the Player is still un-paused when [setServerUpdate] returns. *)
Theorem setServerUpdate_unpauses (now : Z) (d : Connection.ServerUpdate) (w : World) :
  paused (self w) = true ->
  connectionState (connection (self w)) = connecting ->
  truthyS (Connection.su_endpoint d) = true ->
  let resumed := Player.pause now false (Connection.storeServer d w) in
  let w' := Connection.queueUpdate now (Connection.markConnected now resumed) in
  Connection.setServerUpdate now d w = Ok w'
  /\ paused (self resumed) = false /\ playing (self resumed) = true
  /\ connectionState (connection (self resumed)) = connecting
  /\ (if batchUpdates (self w)
      then updateQueue (self resumed)
           = (updateQueue (self w) ++ [mkUpdate None None (Some false) None (Some now)])%list
           /\ In (mkTimer (nextHandle w) (batchDelay (self w)) PlayerFlush) (timers resumed)
      else trace resumed
           = (trace w
               ++ Patch (guildId (self w))
                    (BodyUpdate (mkUpdate None None (Some false) None None))
               :: (if nodeUp w then [] else [Emit "playerError"]))%list)
  /\ paused (self w') = false /\ playing (self w') = true
  /\ updateQueue (self w') = updateQueue (self resumed)
  /\ connectionState (connection (self w')) = connected_
  /\ connected (self w') = true.
Proof.
  intros Hpaused Hstate Hendpoint. cbv zeta.
  set (w0 := Connection.storeServer d w).
  set (data := mkUpdate None None (Some false) None None).
  assert (Connection.setServerUpdate now d w
          = Ok (Connection.queueUpdate now
                  (Connection.markConnected now (Player.pause now false w0)))) as Hrun.
  { unfold Connection.setServerUpdate, Connection.autoResume. rewrite Hendpoint.
    cbn [negb]. fold w0.
    replace (paused (self w0)) with true by (symmetry; exact Hpaused).
    replace (connectionState (connection (self w0))) with connecting
      by (symmetry; exact Hstate).
    reflexivity. }
  pose proof (queueUpdate_frame now data w0) as F. cbv zeta in F.
  destruct F as (_ & _ & _ & _ & _ & _ & _ & Fconn & _).
  pose proof (connection_queueUpdate_frame now
                (Connection.markConnected now (Player.pause now false w0))) as C.
  cbv zeta in C. destruct C as (Cpa & Cpl & Cco & _ & Cq & Cst & _).
  split; [exact Hrun |].
  split; [reflexivity |]. split; [reflexivity |].
  split.
  { unfold Player.pause. rewrite self_updPlayer. cbn [connection set_timestamp set_paused
      set_playing]. fold data. rewrite Fconn. exact Hstate. }
  split.
  { unfold Player.pause. rewrite self_updPlayer.
    cbn [updateQueue set_timestamp set_paused set_playing]. fold data.
    change (batchUpdates (self w)) with (batchUpdates (self w0)).
    destruct (batchUpdates (self w0)) eqn:Hb.
    - pose proof (queueUpdate_batched now data w0 Hb) as B. cbv zeta in B.
      destruct B as (Bs & _ & _ & Bi). rewrite Bs. split; [reflexivity | exact Bi].
    - pose proof (queueUpdate_direct now data w0 Hb) as D. cbv zeta in D.
      destruct D as (_ & _ & Dt). exact Dt. }
  rewrite Cpa, Cpl, Cq, Cst, Cco. repeat split.
Qed.

(** C10 on the created Player, paused before its server update arrives. *)
Lemma setServerUpdate_unpauses_witness :
  let w := updPlayer (set_paused true) Sample.created in
  exists w',
    Connection.setServerUpdate 10
      (Connection.mkServerUpdate (Some "us-east42.example:443") (Some "T")) w = Ok w'
    /\ paused (self w') = false /\ playing (self w') = true
    /\ updateQueue (self w') = [mkUpdate None None (Some false) None (Some 10)]
    /\ connectionState (connection (self w')) = connected_.
Proof.
  cbv zeta.
  pose proof (setServerUpdate_unpauses 10
                (Connection.mkServerUpdate (Some "us-east42.example:443") (Some "T"))
                (updPlayer (set_paused true) Sample.created)
                eq_refl eq_refl eq_refl) as H.
  cbv zeta in H. destruct H as (Hrun & _ & _ & _ & _ & Hpa & Hpl & Hq & Hst & _).
  eexists. split; [exact Hrun |].
  split; [exact Hpa |]. split; [exact Hpl |]. split; [| exact Hst].
  rewrite Hq. vm_compute. reflexivity.
Defined.

(* ================================================================== *)
(** * Player: the TrackEnd handler *)

(** The first part of [trackEnd] changes [playing] and the history only. *)
Lemma trackEnded_frame (now : Z) (tr : option Track) (reason : string) (w : World) :
  let p := self w in
  let p1 := self (Player.trackEnded now tr reason w) in
  queue p1 = queue p /\ current p1 = current p /\ loop p1 = loop p
  /\ connected p1 = connected p /\ isAutoplay p1 = isAutoplay p
  /\ playing p1 = false
  /\ previousTracks p1 = previousTracks (Player.addToPreviousTrack now tr p).
Proof.
  cbv zeta. unfold Player.trackEnded.
  assert (forall q : Player,
             let q' := Player.addToPreviousTrack now tr q in
             queue q' = queue q /\ current q' = current q /\ loop q' = loop q
             /\ connected q' = connected q /\ isAutoplay q' = isAutoplay q
             /\ playing q' = playing q) as Hadd.
  { intros q. cbv zeta. unfold Player.addToPreviousTrack.
    destruct tr as [t |]; [| repeat split].
    destruct (previousTracks q) as [| h rest].
    - destruct (Nat.ltb _ _); repeat split.
    - destruct (String.eqb _ _); [repeat split |].
      destruct (Nat.ltb _ _); repeat split. }
  destruct (_ && _ && _); cbn;
    match goal with
    | |- context [Player.addToPreviousTrack now tr ?q] =>
        destruct (Hadd q) as (-> & -> & -> & -> & -> & ->)
    end;
    repeat split;
    apply (addToPreviousTrack_reads_history now tr (self w)); reflexivity.
Qed.

(** C2: the TrackEnd handler puts the ended track into the history first:
    in the state [w1] in which the decision is taken, the history is the old
    one with the ended track entered (a new newest entry, the list cut to
    [historyLimit], or the newest entry counted once more when it has the
    same identifier), its newest entry has the identifier of the ended
    track and the present time, and nothing after that touches the history.
    Then the handler decides in this order: REPLACED, the observation is
    emitted again and nothing else happens (queue and current track stay);
    not connected, queue-end; loop=track and not STOPPED, the track goes to
    the head of the queue and [play()] runs; loop=queue and not STOPPED,
    the track goes to the tail and [play()] runs; queue not empty, [play()]
    runs; autoplay on, the autoplay resolver is invoked; otherwise
    queue-end. *)
Theorem trackEnd_decision_order
    (now : Z) (tr : option Track) (reason : string) (w : World) :
  let p := self w in
  let w1 := Player.trackEnded now tr reason w in
  let w' := Player.trackEnd now tr reason w in
  let loops (mode : string) := loop p = mode /\ reason <> "STOPPED" in
  ((tr = None -> previousTracks (self w1) = previousTracks p)
   /\ (forall t,
         tr = Some t ->
         previousTracks (self w1)
         = match previousTracks p with
           | newest :: older =>
               if String.eqb (identifier (info (played newest))) (identifier (info t))
               then mkEntry (played newest) now (replayCount newest + 1) :: older
               else firstn (historyLimit p) (mkEntry t now 1 :: newest :: older)
           | [] => firstn (historyLimit p) [mkEntry t now 1]
           end)
   /\ (forall t,
         tr = Some t -> (0 < historyLimit p)%nat ->
         exists newest older,
           previousTracks (self w1) = newest :: older
           /\ identifier (info (played newest)) = identifier (info t)
           /\ playedAt newest = now)
   /\ previousTracks (self w') = previousTracks (self w1))
  /\ queue (self w1) = queue p
  /\ (reason = "REPLACED" ->
        w' = emit "trackEnd" w1
        /\ queue (self w') = queue p /\ current (self w') = current p)
  /\ (reason <> "REPLACED" -> connected p = false ->
        w' = (if setActivityStatus w then effect (SetActivity None) else id)
               (emit "queueEnd" w1)
        /\ queue (self w') = queue p)
  /\ (reason <> "REPLACED" -> connected p = true -> loops "track" ->
        w' = after (Player.play now (updPlayer (fun q => set_queue (tr :: queue q) q) w1)))
  /\ (reason <> "REPLACED" -> connected p = true -> ~ loops "track" -> loops "queue" ->
        w' = after (Player.play now (updPlayer (fun q => set_queue (queue q ++ [tr]) q) w1)))
  /\ (reason <> "REPLACED" -> connected p = true -> ~ loops "track" -> ~ loops "queue" ->
      queue p <> [] ->
        w' = after (Player.play now w1))
  /\ (reason <> "REPLACED" -> connected p = true -> ~ loops "track" -> ~ loops "queue" ->
      queue p = [] -> isAutoplay p = true ->
        w' = effect (InvokeAutoplay (Player.previous (self w1))) w1)
  /\ (reason <> "REPLACED" -> connected p = true -> ~ loops "track" -> ~ loops "queue" ->
      queue p = [] -> isAutoplay p = false ->
        w' = Player.queueEnded w1
        /\ last (trace w') = Some (Emit "queueEnd")).
Proof.
  cbv zeta.
  pose proof (trackEnded_frame now tr reason w) as F. cbv zeta in F.
  destruct F as (Fq & Fc & Fl & Fco & Fa & _ & Fh).
  assert (forall mode,
             (loop (self w) = mode /\ reason <> "STOPPED")
             <-> String.eqb (loop (self w)) mode && negb (String.eqb reason "STOPPED") = true)
    as Hloops.
  { intros mode. rewrite andb_true_iff, negb_true_iff, String.eqb_eq, String.eqb_neq.
    reflexivity. }
  assert (forall mode,
             ~ (loop (self w) = mode /\ reason <> "STOPPED")
             -> String.eqb (loop (self w)) mode && negb (String.eqb reason "STOPPED") = false)
    as Hnot.
  { intros mode H. apply not_true_is_false. intros E. apply H, Hloops, E. }
  assert ((tr = None -> previousTracks (self (Player.trackEnded now tr reason w))
                        = previousTracks (self w))
          /\ (forall t,
                tr = Some t ->
                previousTracks (self (Player.trackEnded now tr reason w))
                = match previousTracks (self w) with
                  | newest :: older =>
                      if String.eqb (identifier (info (played newest))) (identifier (info t))
                      then mkEntry (played newest) now (replayCount newest + 1) :: older
                      else firstn (historyLimit (self w)) (mkEntry t now 1 :: newest :: older)
                  | [] => firstn (historyLimit (self w)) [mkEntry t now 1]
                  end)
          /\ (forall t,
                tr = Some t -> (0 < historyLimit (self w))%nat ->
                exists newest older,
                  previousTracks (self (Player.trackEnded now tr reason w)) = newest :: older
                  /\ identifier (info (played newest)) = identifier (info t)
                  /\ playedAt newest = now)
          /\ previousTracks (self (Player.trackEnd now tr reason w))
             = previousTracks (self (Player.trackEnded now tr reason w))) as Hhistory.
  { rewrite Fh. split; [intros ->; reflexivity |].
    split.
    { intros t ->. destruct (addToPreviousTrack_history now t (self w)) as [-> _].
      destruct (previousTracks (self w)); reflexivity. }
    split.
    { intros t -> Hlimit.
      destruct (addToPreviousTrack_history now t (self w)) as [-> _].
      destruct (historyLimit (self w)) as [| limit]; [lia |].
      destruct (previousTracks (self w)) as [| newest older].
      - exists (mkEntry t now 1), [].
        split; [cbn [firstn]; rewrite firstn_nil; reflexivity | split; reflexivity].
      - destruct (String.eqb (identifier (info (played newest))) (identifier (info t)))
          eqn:Hsame.
        + exists (mkEntry (played newest) now (replayCount newest + 1)), older.
          apply String.eqb_eq in Hsame. repeat split. exact Hsame.
        + cbn [firstn]. eexists _, _. repeat split. }
    exact (proj1 (trackEnd_history now tr reason w)). }
  split; [exact Hhistory |]. clear Hhistory.
  unfold Player.trackEnd.
  set (w1 := Player.trackEnded now tr reason w) in *.
  assert (setActivityStatus (emit "queueEnd" w1) = setActivityStatus w) as Hact.
  { unfold w1, Player.trackEnded. destruct (_ && _ && _); reflexivity. }
  rewrite Fl, Fco, Fq, Fa.
  split; [reflexivity |].
  split.
  { intros ->. cbn [String.eqb Ascii.eqb Bool.eqb]. cbn.
    repeat split; assumption. }
  split.
  { intros Hr Hc. apply String.eqb_neq in Hr. rewrite Hr, Hc. cbn [negb].
    rewrite Hact. destruct (setActivityStatus w); cbn; split; (reflexivity || exact Fq). }
  split.
  { intros Hr Hc Ht. apply String.eqb_neq in Hr. apply Hloops in Ht.
    rewrite Hr, Hc, Ht. reflexivity. }
  split.
  { intros Hr Hc Ht Hq. apply String.eqb_neq in Hr. apply Hnot in Ht. apply Hloops in Hq.
    rewrite Hr, Hc, Ht, Hq. reflexivity. }
  split.
  { intros Hr Hc Ht Hq Hne. apply String.eqb_neq in Hr. apply Hnot in Ht. apply Hnot in Hq.
    rewrite Hr, Hc, Ht, Hq. cbn [negb].
    destruct (queue (self w)); [congruence | reflexivity]. }
  split.
  { intros Hr Hc Ht Hq He Ha. apply String.eqb_neq in Hr. apply Hnot in Ht.
    apply Hnot in Hq. rewrite Hr, Hc, Ht, Hq, He, Ha. reflexivity. }
  intros Hr Hc Ht Hq He Ha. apply String.eqb_neq in Hr. apply Hnot in Ht.
  apply Hnot in Hq. rewrite Hr, Hc, Ht, Hq, He, Ha. cbn [negb List.length Nat.ltb Nat.leb].
  split; [reflexivity |].
  unfold Player.queueEnded, emit, effect. cbn [trace set_trace].
  apply last_snoc.
Qed.

(** C2 on seven concrete Players, one for each branch of the handler. *)
Lemma trackEnd_decision_order_witness :
  let A := Some Sample.trackA in
  let ended reason w := Player.trackEnded 5 A reason w in
  let disconnectedA := updPlayer (set_connected false) Sample.playingA in
  let loopTrack := updPlayer (set_loop "track") Sample.playingA in
  let loopQueue := updPlayer (set_loop "queue") Sample.playingA in
  let autoplayA := updPlayer (set_isAutoplay true) Sample.lastA in
  Player.trackEnd 5 A "REPLACED" Sample.playingA
  = emit "trackEnd" (ended "REPLACED" Sample.playingA)
  /\ Player.trackEnd 5 A "FINISHED" disconnectedA
     = emit "queueEnd" (ended "FINISHED" disconnectedA)
  /\ Player.trackEnd 5 A "FINISHED" loopTrack
     = after (Player.play 5 (updPlayer (fun q => set_queue (A :: queue q) q)
                               (ended "FINISHED" loopTrack)))
  /\ Player.trackEnd 5 A "FINISHED" loopQueue
     = after (Player.play 5 (updPlayer (fun q => set_queue (queue q ++ [A]) q)
                               (ended "FINISHED" loopQueue)))
  /\ Player.trackEnd 5 A "FINISHED" Sample.playingA
     = after (Player.play 5 (ended "FINISHED" Sample.playingA))
  /\ Player.trackEnd 5 A "FINISHED" autoplayA
     = effect (InvokeAutoplay (Player.previous (self (ended "FINISHED" autoplayA))))
              (ended "FINISHED" autoplayA)
  /\ Player.trackEnd 5 A "FINISHED" Sample.lastA
     = Player.queueEnded (ended "FINISHED" Sample.lastA)
  /\ previousTracks (self (Player.trackEnd 5 A "FINISHED" Sample.playingA))
     = [mkEntry Sample.trackA 5 1]
  /\ previousTracks (self (Player.trackEnd 5 A "FINISHED" Sample.replayingA))
     = [mkEntry Sample.trackA 5 2]
  /\ previousTracks (self (Player.trackEnd 5 (Some Sample.trackB) "FINISHED"
                             Sample.replayingA))
     = [mkEntry Sample.trackB 5 1; mkEntry Sample.trackA 0 1].
Proof.
  cbv zeta.
  split.
  { destruct (trackEnd_decision_order 5 (Some Sample.trackA) "REPLACED" Sample.playingA)
      as (_ & _ & H & _). apply H. reflexivity. }
  split.
  { destruct (trackEnd_decision_order 5 (Some Sample.trackA) "FINISHED"
                (updPlayer (set_connected false) Sample.playingA))
      as (_ & _ & _ & H & _). apply H; decide_condition. }
  split.
  { destruct (trackEnd_decision_order 5 (Some Sample.trackA) "FINISHED"
                (updPlayer (set_loop "track") Sample.playingA))
      as (_ & _ & _ & _ & H & _). apply H; decide_condition. }
  split.
  { destruct (trackEnd_decision_order 5 (Some Sample.trackA) "FINISHED"
                (updPlayer (set_loop "queue") Sample.playingA))
      as (_ & _ & _ & _ & _ & H & _). apply H; decide_condition. }
  split.
  { destruct (trackEnd_decision_order 5 (Some Sample.trackA) "FINISHED" Sample.playingA)
      as (_ & _ & _ & _ & _ & _ & H & _). apply H; decide_condition. }
  split.
  { destruct (trackEnd_decision_order 5 (Some Sample.trackA) "FINISHED"
                (updPlayer (set_isAutoplay true) Sample.lastA))
      as (_ & _ & _ & _ & _ & _ & _ & H & _). apply H; decide_condition. }
  split.
  { destruct (trackEnd_decision_order 5 (Some Sample.trackA) "FINISHED" Sample.lastA)
      as (_ & _ & _ & _ & _ & _ & _ & _ & H). apply H; decide_condition. }
  split.
  { destruct (trackEnd_decision_order 5 (Some Sample.trackA) "FINISHED" Sample.playingA)
      as ((_ & Hentered & _ & Hkept) & _).
    rewrite Hkept, (Hentered Sample.trackA eq_refl). reflexivity. }
  split.
  { destruct (trackEnd_decision_order 5 (Some Sample.trackA) "FINISHED" Sample.replayingA)
      as ((_ & Hentered & _ & Hkept) & _).
    rewrite Hkept, (Hentered Sample.trackA eq_refl). reflexivity. }
  destruct (trackEnd_decision_order 5 (Some Sample.trackB) "FINISHED" Sample.replayingA)
    as ((_ & Hentered & _ & Hkept) & _).
  rewrite Hkept, (Hentered Sample.trackB eq_refl). reflexivity.
Defined.

(** S3 of the specification: with [trackA] current and [trackB] queued,
    TrackEnd FINISHED makes [trackB] current, empties the queue and puts
    [trackA] into the history. *)
Example queue_advance :
  let w' := Player.handleEvent 5 (Player.mkPayload "TrackEndEvent" "FINISHED")
              Sample.playingA in
  current (self w') = Some Sample.trackB
  /\ queue (self w') = []
  /\ previousTracks (self w') = [mkEntry Sample.trackA 5 1]
  /\ playing (self w') = true
  /\ updateQueue (self w') = [mkUpdate (Some (Some "QBBB")) None None None (Some 5)].
Proof. vm_compute. repeat split. Qed.

(** S2 of the specification: with loop=track, TrackEnd FINISHED plays
    [trackA] again, and a second TrackEnd raises its [replayCount] to 2. *)
Example loop_track_replays :
  let ended := Player.mkPayload "TrackEndEvent" "FINISHED" in
  let w1 := Player.handleEvent 5 ended (updPlayer (set_loop "track") Sample.lastA) in
  let w2 := Player.handleEvent 9 ended w1 in
  current (self w1) = Some Sample.trackA
  /\ queue (self w1) = []
  /\ previousTracks (self w1) = [mkEntry Sample.trackA 5 1]
  /\ current (self w2) = Some Sample.trackA
  /\ previousTracks (self w2) = [mkEntry Sample.trackA 9 2].
Proof. vm_compute. repeat split. Qed.

(** "TrackEnd{reason=REPLACED} never advances the queue". *)
Example replaced_keeps_queue :
  let w' := Player.handleEvent 5 (Player.mkPayload "TrackEndEvent" "REPLACED")
              Sample.playingA in
  current (self w') = Some Sample.trackA
  /\ queue (self w') = [Some Sample.trackB]
  /\ trace w' = (trace Sample.playingA ++ [Emit "trackEnd"; Emit "trackEnd"])%list.
Proof. vm_compute. repeat split. Qed.

(* ================================================================== *)
(** * Player: destroy *)

Lemma set_updateQueue_same (p : Player) :
  updateQueue p = [] -> set_updateQueue [] p = p.
Proof. destruct p; cbn; intros ->; reflexivity. Qed.

(** What [disconnect] guarantees when it returns. *)
Lemma disconnect_result (now : Z) (w : World) :
  let w' := Player.disconnect now w in
  (ConnectionState_eqb (connectionState (connection (self w'))) disconnected
   || negb (truthyS (voiceChannel (self w'))) = true)
  /\ guildId (self w') = guildId (self w)
  /\ players w' = players w /\ nodeUp w' = nodeUp w
  /\ setActivityStatus w' = setActivityStatus w.
Proof.
  cbv zeta. unfold Player.disconnect.
  destruct (ConnectionState_eqb (connectionState (connection (self w))) disconnected
            || negb (truthyS (voiceChannel (self w)))) eqn:Hcond;
    [repeat split; exact Hcond |].
  unfold Player.pause, Player.queueUpdate, Player.performUpdate.
  destruct (batchUpdates (self w)); cbn [negb].
  - destruct (updateTimeout _); cbn; repeat split.
  - destruct (nodeUp w) eqn:E; cbn; rewrite ?E; cbn; repeat split; exact E.
Qed.

(** [destroy] after the disconnect, on its own. *)
Lemma destroy_without_disconnect (now : Z) (w : World) :
  let w' := Player.destroy now false w in
  let g := guildId (self w) in
  self w' = set_updateQueue [] (set_updateTimeout None (self w))
  /\ players w' = players w ∖ {[ g ]}
  /\ timers w'
     = match updateTimeout (self w) with
       | Some h => timers (clearTimeout h w)
       | None => timers w
       end
  /\ trace w'
     = (trace w ++ Delete g
          :: (if nodeUp w then [] else [Emit "playerError"])
          ++ (if setActivityStatus w then [SetActivity None] else [])
          ++ [Emit "playerDestroy"])%list
  /\ nodeUp w' = nodeUp w /\ setActivityStatus w' = setActivityStatus w.
Proof.
  cbv zeta. unfold Player.destroy.
  assert (players w ∖ {[ guildId (self w) ]} = players w ∖ {[ guildId (self w) ]}
          /\ (bool_decide (guildId (self w) ∈ players w) = false ->
              players w = players w ∖ {[ guildId (self w) ]})) as [_ Hout].
  { split; [reflexivity |]. intros H. apply bool_decide_eq_false_1 in H.
    symmetry. apply difference_disjoint_L, disjoint_singleton_r. exact H. }
  destruct (bool_decide (guildId (self w) ∈ players w)) eqn:Hin;
    destruct (updateTimeout (self w)) as [h |] eqn:Ht;
    destruct (nodeUp w) eqn:Hn; destruct (setActivityStatus w) eqn:Ha;
    cbn; rewrite ?Hn, ?Ha, ?Hin; cbn; rewrite ?Hn, ?Ha, ?Hin; cbn;
    rewrite ?Hn, ?Ha, ?Hin; cbn; rewrite <- ?app_assoc; cbn;
    repeat split; try reflexivity; try assumption; try (apply Hout; reflexivity);
    destruct (self w); cbn in *; subst; reflexivity.
Qed.

(** C5, counterexample: the second [destroy()] issues a second DELETE. *)
Lemma destroy_twice_deletes_twice :
  let w1 := Player.destroy 1 true Sample.playingA in
  let w2 := Player.destroy 2 true w1 in
  List.filter isDelete (trace w1) = [Delete "1"]
  /\ List.filter isDelete (trace w2) = [Delete "1"; Delete "1"]
  /\ ~ Spec.destroyedOnce w1 w2.
Proof.
  cbv zeta. split; [vm_compute; reflexivity |]. split; [vm_compute; reflexivity |].
  intros [_ H]. vm_compute in H. discriminate.
Qed.

Lemma destroy_unfold (now : Z) (w : World) :
  Player.destroy now true w = Player.destroy now false (Player.disconnect now w).
Proof. unfold Player.destroy. reflexivity. Qed.

Lemma difference_twice (X : gset string) (g : string) :
  X ∖ {[ g ]} ∖ {[ g ]} = X ∖ {[ g ]}.
Proof. apply set_eq. intros x. rewrite !elem_of_difference. tauto. Qed.

(** C5, as the code has it: a second [destroy()] leaves the Player, the
    player map and the timers as the first call left them, and it calls
    [destroyPlayer] on the node once more: the trace grows by one DELETE
    (followed by [playerError] when the call fails), the cleared activity
    when that is switched on, and [playerDestroy]. *)
Theorem destroy_twice (now1 now2 : Z) (w : World) :
  let w1 := Player.destroy now1 true w in
  let w2 := Player.destroy now2 true w1 in
  self w2 = self w1
  /\ players w2 = players w1
  /\ timers w2 = timers w1
  /\ trace w2
     = (trace w1 ++ Delete (guildId (self w))
          :: (if nodeUp w then [] else [Emit "playerError"])
          ++ (if setActivityStatus w then [SetActivity None] else [])
          ++ [Emit "playerDestroy"])%list.
Proof.
  cbv zeta.
  rewrite !destroy_unfold.
  set (w0 := Player.disconnect now1 w).
  destruct (disconnect_result now1 w) as (Hcond & Hg & _ & Hn & Ha). fold w0 in Hcond, Hg, Hn, Ha.
  destruct (destroy_without_disconnect now1 w0) as (Hs1 & Hp1 & _ & _ & Hn1 & Ha1).
  cbv zeta in Hs1, Hp1, Hn1, Ha1.
  set (w1 := Player.destroy now1 false w0) in *.
  assert (Player.disconnect now2 w1 = w1) as Hdis.
  { unfold Player.disconnect. rewrite Hs1. cbn [connection voiceChannel set_updateQueue
      set_updateTimeout]. rewrite Hcond. reflexivity. }
  rewrite Hdis.
  destruct (destroy_without_disconnect now2 w1) as (Hs2 & Hp2 & Ht2 & Htr2 & _).
  cbv zeta in Hs2, Hp2, Ht2, Htr2.
  assert (guildId (self w1) = guildId (self w)) as Hg1 by (rewrite Hs1; exact Hg).
  split.
  { rewrite Hs2, Hs1. destruct (self w0); reflexivity. }
  split.
  { rewrite Hp2, Hp1, Hg1, Hg. apply difference_twice. }
  split.
  { rewrite Ht2, Hs1. reflexivity. }
  rewrite Htr2, Hg1, Hn1, Ha1, Hn, Ha. reflexivity.
Qed.

(* ================================================================== *)
(** * Connection: the voice handshake *)

(** A handle that is younger than every pending timer finds its own timer. *)
Lemma find_fresh (h : nat) (t : Timer) (pending : list Timer) :
  handle t = h ->
  Forall (fun x => (handle x < h)%nat) pending ->
  List.find (fun x => Nat.eqb (handle x) h) (pending ++ [t]) = Some t.
Proof.
  intros Ht Hfresh. induction pending as [| x pending IH]; cbn.
  - rewrite Ht, Nat.eqb_refl. reflexivity.
  - inversion Hfresh as [| ? ? Hx Hrest]; subst.
    destruct (Nat.eqb_spec (handle x) (handle t)) as [E | _]; [lia | exact (IH Hrest)].
Qed.

Lemma clearIfSet_fresh (h : nat) (old : option nat) (w : World) :
  Forall (fun x => (handle x < h)%nat) (timers w) ->
  Forall (fun x => (handle x < h)%nat) (timers (clearIfSet old w)).
Proof.
  intros H. destruct old as [n |]; [| exact H]. cbn.
  induction (timers w) as [| x ts IH]; cbn; [constructor |].
  inversion H; subst. destruct (negb _); [constructor |]; auto.
Qed.

(** [Connection.queueUpdate] with batching on: a copy of [voice] and the
    Player's volume join the queue and the flush timer is set anew. *)
Lemma connection_queueUpdate_batched (now : Z) (w : World) :
  connBatchUpdates (connection (self w)) = true ->
  let c := connection (self w) in
  let w' := Connection.queueUpdate now w in
  self w'
  = set_connection
      (set_connUpdateTimeout (Some (nextHandle w))
         (set_connUpdateQueue
            (connUpdateQueue c ++ [mkVoiceUpdate (voice c) (volume (self w)) now]) c))
      (self w)
  /\ timers w'
     = (timers (clearIfSet (connUpdateTimeout c) w)
          ++ [mkTimer (nextHandle w) (connBatchDelay c) ConnectionFlush])%list
  /\ trace w' = trace w /\ players w' = players w /\ nodeUp w' = nodeUp w
  /\ clientId w' = clientId w.
Proof.
  intros Hb. cbv zeta. unfold Connection.queueUpdate. rewrite Hb. cbn [negb].
  destruct (connUpdateTimeout (connection (self w))) eqn:E; cbn; rewrite ?E; cbn;
    repeat split.
Qed.

(** The server update on a Player that is not paused, batching on. *)
Lemma setServerUpdate_batched (now : Z) (d : Connection.ServerUpdate) (w : World) :
  truthyS (Connection.su_endpoint d) = true ->
  paused (self w) = false ->
  connBatchUpdates (connection (self w)) = true ->
  let c := connection (self w) in
  let snapshot := mkVoice (sessionId (voice c)) (event (voice c))
                    (Connection.su_endpoint d) (Connection.su_token d) in
  exists w',
    Connection.setServerUpdate now d w = Ok w'
    /\ connectionState (connection (self w')) = connected_
    /\ connected (self w') = true
    /\ region (connection (self w')) = Connection.extractRegion (Connection.su_endpoint d)
    /\ voice (connection (self w')) = snapshot
    /\ connUpdateQueue (connection (self w'))
       = (connUpdateQueue c ++ [mkVoiceUpdate snapshot (volume (self w)) now])%list
    /\ timers w'
       = (timers (clearIfSet (connUpdateTimeout c) w)
            ++ [mkTimer (nextHandle w) (connBatchDelay c) ConnectionFlush])%list
    /\ trace w' = trace w /\ players w' = players w /\ nodeUp w' = nodeUp w
    /\ clientId w' = clientId w /\ guildId (self w') = guildId (self w)
    /\ volume (self w') = volume (self w)
    /\ voiceChannel (self w') = voiceChannel (self w).
Proof.
  intros He Hp Hb. cbv zeta.
  unfold Connection.setServerUpdate, Connection.autoResume. rewrite He. cbn [negb].
  replace (paused (self (Connection.storeServer d w))) with false
    by (symmetry; exact Hp).
  cbn [andb].
  set (w0 := Connection.markConnected now (Connection.storeServer d w)).
  assert (connBatchUpdates (connection (self w0)) = true) as Hb0 by exact Hb.
  destruct (connection_queueUpdate_batched now w0 Hb0) as (Hs & Ht & Htr & Hpl & Hn & Hcl).
  eexists. split; [reflexivity |].
  rewrite Hs, Ht, Htr, Hpl, Hn, Hcl. cbn.
  destruct (connUpdateTimeout (connection (self w))); repeat split.
Qed.

(** The state update that names a channel. *)
Lemma setStateUpdate_joined (now : Z) (d : Connection.StateUpdate) (vc : string) (w : World) :
  Connection.st_channel_id d = Some vc ->
  let c := connection (self w) in
  let moved := truthyS (voiceChannel (self w)) && truthyS (Some vc)
               && negb (bool_decide (voiceChannel (self w) = Some vc)) in
  let w' := Connection.setStateUpdate now d w in
  connectionState (connection (self w')) = connected_
  /\ connected (self w') = true
  /\ region (connection (self w')) = region c
  /\ voice (connection (self w'))
     = mkVoice (Connection.orNull (Connection.st_session_id d)) (event (voice c))
               (endpoint (voice c)) (token (voice c))
  /\ connUpdateQueue (connection (self w')) = connUpdateQueue c
  /\ timers w' = timers w
  /\ trace w' = (trace w ++ (if moved then [Emit "playerMove"] else []))%list
  /\ nodeUp w' = nodeUp w /\ guildId (self w') = guildId (self w).
Proof.
  intros Hc. cbv zeta. unfold Connection.setStateUpdate. rewrite Hc.
  destruct (_ && _ && _); cbn; repeat split. now rewrite app_nil_r.
Qed.

(** The flush timer of the Connection fires while the node is up: the
    latest queued update is the one PATCH, and the queue is empty after. *)
Lemma fire_connection_flush
    (now : Z) (h : nat) (ms : Z) (earlier : list VoiceUpdate) (latest : VoiceUpdate)
    (w : World) :
  List.find (fun t => Nat.eqb (handle t) h) (timers w) = Some (mkTimer h ms ConnectionFlush) ->
  connUpdateQueue (connection (self w)) = (earlier ++ [latest])%list ->
  nodeUp w = true ->
  let w' := fire now h w in
  trace w'
  = (trace w ++ [Patch (guildId (self w)) (BodyVoice (vu_voice latest) (vu_volume latest))])%list
  /\ connUpdateQueue (connection (self w')) = []
  /\ connectionState (connection (self w')) = connectionState (connection (self w))
  /\ voice (connection (self w')) = voice (connection (self w)).
Proof.
  intros Hfind Hq Hup. cbv zeta. unfold fire. rewrite Hfind. cbn [callback].
  unfold Connection.processUpdateQueue.
  replace (connUpdateQueue (connection (self (clearTimeout h w)))) with (earlier ++ [latest])%list
    by (symmetry; exact Hq).
  rewrite last_snoc. unfold Connection.updatePlayerVoiceData.
  cbn. rewrite Hup. cbn. repeat split.
Qed.

(** C1, counterexample: on a registered Player whose Connection is
    [disconnected], the server update alone already makes the Connection
    [connected] (it is never [connecting] on the way), and the one PATCH
    that is flushed after the state update carries the voice block as it
    was copied at the server update, with no session id in it. *)
Lemma handshake_server_first :
  exists w1 w2,
    Euralink.updateVoiceState 10 Sample.serverUpdate Sample.registered = Ok w1
    /\ Euralink.updateVoiceState 20 Sample.stateUpdate w1 = Ok w2
    /\ connectionState (connection (self Sample.registered)) = disconnected
    /\ connectionState (connection (self w1)) = connected_
    /\ sessionId (voice (connection (self w2))) = Some "S"
    /\ timers w2 = [mkTimer 0 50 ConnectionFlush]
    /\ List.filter isPatch (trace (fire 70 0 w2))
       = [Patch "1" (BodyVoice (mkVoice None None (Some "us-east42.example:443") (Some "T"))
                               100)]
    /\ ~ Spec.handshake Sample.registered w1 w2 (fire 70 0 w2).
Proof.
  eexists _, _.
  split; [vm_compute; reflexivity |]. split; [vm_compute; reflexivity |].
  repeat split; try (vm_compute; reflexivity).
  intros (_ & H & _). vm_compute in H. discriminate.
Qed.

(** C1, as the code has it.  For a registered Player that is not paused,
    with the node up and voice updates batched: the server update for
    endpoint "us-east42.example:443" marks the Connection [connected] at
    once and sets the region to "us-east"; the state update of the bot
    that follows stores the session id and leaves it [connected]; and when
    the flush timer fires, exactly one PATCH goes to the node, whose voice
    block is the copy taken at the server update, with that update's
    endpoint and token. *)
Theorem handshake_server_then_state
    (now1 now2 now3 : Z) (g vc : string) (tok sess : option string)
    (deaf mute_ : bool) (w : World) :
  Euralink.hasPlayer g w = true ->
  connBatchUpdates (connection (self w)) = true ->
  paused (self w) = false ->
  nodeUp w = true ->
  Forall (fun t => (handle t < nextHandle w)%nat) (timers w) ->
  let server := Euralink.VOICE_SERVER_UPDATE g
                  (Connection.mkServerUpdate (Some "us-east42.example:443") tok) in
  let state := Euralink.VOICE_STATE_UPDATE g (clientId w)
                 (Connection.mkStateUpdate sess (Some vc) deaf mute_) in
  let moved := truthyS (voiceChannel (self w)) && truthyS (Some vc)
               && negb (bool_decide (voiceChannel (self w) = Some vc)) in
  exists w1 w2 snapshot,
    Euralink.updateVoiceState now1 server w = Ok w1
    /\ connectionState (connection (self w1)) = connected_
    /\ connected (self w1) = true
    /\ region (connection (self w1)) = Some "us-east"
    /\ voice (connection (self w1)) = snapshot
    /\ endpoint snapshot = Some "us-east42.example:443" /\ token snapshot = tok
    /\ Euralink.updateVoiceState now2 state w1 = Ok w2
    /\ connectionState (connection (self w2)) = connected_
    /\ region (connection (self w2)) = Some "us-east"
    /\ sessionId (voice (connection (self w2))) = Connection.orNull sess
    /\ trace (fire now3 (nextHandle w) w2)
       = (trace w ++ (if moved then [Emit "playerMove"] else [])
            ++ [Patch g (BodyVoice snapshot (volume (self w)))])%list
    /\ connUpdateQueue (connection (self (fire now3 (nextHandle w) w2))) = []
    /\ connectionState (connection (self (fire now3 (nextHandle w) w2))) = connected_.
Proof.
  intros Hhas Hbatch Hpaused Hup Hfresh. cbv zeta.
  pose proof Hhas as Hhas'. unfold Euralink.hasPlayer in Hhas'.
  apply andb_true_iff in Hhas' as [Hin Hg]. apply String.eqb_eq in Hg.
  set (d := Connection.mkServerUpdate (Some "us-east42.example:443") tok).
  set (st := Connection.mkStateUpdate sess (Some vc) deaf mute_).
  destruct (setServerUpdate_batched now1 d w eq_refl Hpaused Hbatch)
    as (w1 & Hrun1 & Hst1 & Hco1 & Hre1 & Hvo1 & Hq1 & Hti1 & Htr1 & Hpl1 & Hn1 & Hcl1
        & Hg1 & Hvol1 & Hvc1).
  cbv zeta in Hvo1, Hq1.
  destruct (setStateUpdate_joined now2 st vc w1 eq_refl)
    as (Hst2 & Hco2 & Hre2 & Hvo2 & Hq2 & Hti2 & Htr2 & Hn2 & Hg2).
  set (w2 := Connection.setStateUpdate now2 st w1) in *.
  exists w1, w2, (voice (connection (self w1))).
  split. { unfold Euralink.updateVoiceState. rewrite Hhas. exact Hrun1. }
  split; [exact Hst1 |]. split; [exact Hco1 |]. split; [exact Hre1 |].
  split; [reflexivity |].
  split; [rewrite Hvo1; reflexivity |]. split; [rewrite Hvo1; reflexivity |].
  split.
  { unfold Euralink.updateVoiceState, Euralink.hasPlayer.
    rewrite Hpl1, Hg1, Hin, Hcl1, <- Hg, !String.eqb_refl. reflexivity. }
  split; [exact Hst2 |]. split; [rewrite Hre2; exact Hre1 |].
  split; [rewrite Hvo2; reflexivity |].
  assert (List.find (fun t => Nat.eqb (handle t) (nextHandle w)) (timers w2)
          = Some (mkTimer (nextHandle w) (connBatchDelay (connection (self w)))
                          ConnectionFlush)) as Hfind.
  { rewrite Hti2, Hti1. apply find_fresh; [reflexivity |].
    apply clearIfSet_fresh. exact Hfresh. }
  assert (nodeUp w2 = true) as Hup2 by (rewrite Hn2, Hn1; exact Hup).
  assert (connUpdateQueue (connection (self w2))
          = (connUpdateQueue (connection (self w))
               ++ [mkVoiceUpdate (voice (connection (self w1))) (volume (self w)) now1])%list)
    as Hq by (rewrite Hq2, Hq1, Hvo1; reflexivity).
  destruct (fire_connection_flush now3 _ _ _ _ w2 Hfind Hq Hup2)
    as (Htr3 & Hq3 & Hst3 & _).
  split.
  { rewrite Htr3, Htr2, Htr1, Hg2, Hg1, Hvc1, <- Hg, <- app_assoc. reflexivity. }
  split; [exact Hq3 |]. rewrite Hst3. exact Hst2.
Qed.

(** C1 on the Player that [createConnection] has just made. *)
Lemma handshake_server_then_state_witness :
  exists w1 w2,
    Euralink.updateVoiceState 10 Sample.serverUpdate Sample.created = Ok w1
    /\ connectionState (connection (self w1)) = connected_
    /\ region (connection (self w1)) = Some "us-east"
    /\ Euralink.updateVoiceState 20 Sample.stateUpdate w1 = Ok w2
    /\ exists snapshot,
         endpoint snapshot = Some "us-east42.example:443" /\ token snapshot = Some "T"
         /\ trace (fire 70 0 w2)
            = (trace Sample.created ++ [Patch "1" (BodyVoice snapshot 100)])%list.
Proof.
  assert (Forall (fun t => (handle t < nextHandle Sample.created)%nat)
                 (timers Sample.created)) as Hfresh by constructor.
  destruct (handshake_server_then_state 10 20 70 "1" "VC" (Some "T") (Some "S") false false
              Sample.created eq_refl eq_refl eq_refl eq_refl Hfresh)
    as (w1 & w2 & snapshot & Hrun1 & Hst1 & _ & Hre1 & _ & Hep & Htok & Hrun2 & _ & _ & _
        & Htr & _).
  exists w1, w2. split; [exact Hrun1 |]. split; [exact Hst1 |]. split; [exact Hre1 |].
  split; [exact Hrun2 |]. exists snapshot. split; [exact Hep |]. split; [exact Htok |].
  exact Htr.
Defined.

(* ================================================================== *)
(** * Euralink: resolve *)

(** The first request of [resolve] for a query that is not a URL, answered
    without an error. *)
Lemma firstLoad_plain (node : Euralink.Node) (querySource query : string)
    (r1 : Euralink.Response) :
  Euralink.isUrl query = false ->
  let e1 := Euralink.loadtracks node
              (Euralink.encodeURIComponent (querySource ++ ":" ++ query)) in
  Euralink.answer node 0 e1 = Ok (Some r1) ->
  Euralink.failedLoad (Some r1) = false ->
  Euralink.firstLoad node querySource query [] = (Ok r1, [e1]).
Proof.
  intros Hurl e1 Hanswer Hfailed.
  unfold Euralink.firstLoad, Euralink.bind, Euralink.makeRequest. rewrite Hurl.
  fold e1. cbn [List.length]. rewrite Hanswer.
  rewrite Hfailed. reflexivity.
Qed.

(** C9: for a query that is not a URL and whose first [loadtracks] answer
    has [loadType] "empty", [resolve] asks a second time, with identifier
    https://open.spotify.com/track/<query>.  An answer to that which has
    matches is the one the result is built from, after two requests.  When
    it has none either, a third request goes out, with identifier
    https://www.youtube.com/watch?v=<query>, and the result is built from
    its answer. *)
Theorem resolve_fallback_order
    (node : Euralink.Node) (platform query : string) (source : option string)
    (r1 : Euralink.Response) :
  Euralink.isUrl query = false ->
  let querySource := if truthyS source then default "" source else platform in
  let e1 := Euralink.loadtracks node
              (Euralink.encodeURIComponent (querySource ++ ":" ++ query)) in
  let e2 := Euralink.loadtracks node ("https://open.spotify.com/track/" ++ query) in
  let e3 := Euralink.loadtracks node ("https://www.youtube.com/watch?v=" ++ query) in
  let run := Euralink.resolve true (Some node) platform query source [] in
  Euralink.answer node 0 e1 = Ok (Some r1) ->
  Euralink.loadType r1 = Some "empty" ->
  (exists more, snd run = e1 :: e2 :: more)
  /\ (forall r2,
        Euralink.answer node 1 e2 = Ok (Some r2) -> Euralink.noMatches r2 = false ->
        run = Euralink.finish node (Some r2) [e1; e2])
  /\ (forall r2 r3,
        Euralink.answer node 1 e2 = Ok (Some r2) -> Euralink.noMatches r2 = true ->
        Euralink.answer node 2 e3 = Ok r3 ->
        run = Euralink.finish node r3 [e1; e2; e3])
  /\ (forall r tracks log,
        Euralink.tracksOf node r = Ok tracks ->
        Euralink.finish node (Some r) log
        = (Ok (Euralink.mkResolved (Euralink.loadType r) tracks
                 (Euralink.playlistInfoOf node r)), log)).
Proof.
  intros Hurl querySource e1 e2 e3 run Hanswer Hempty.
  assert (Euralink.failedLoad (Some r1) = false) as Hfailed.
  { unfold Euralink.failedLoad, Euralink.loadTypeIs. rewrite Hempty.
    destruct r1 as [| | | | | |[|]]; try reflexivity; discriminate Hempty. }
  assert (Euralink.noMatches r1 = true) as Hnone.
  { unfold Euralink.noMatches, Euralink.loadTypeIs. rewrite Hempty. reflexivity. }
  pose proof (firstLoad_plain node querySource query r1 Hurl Hanswer Hfailed) as Hfirst.
  cbv zeta in Hfirst. fold e1 in Hfirst.
  assert (run
          = Euralink.bind (Euralink.identifierFallback node query r1)
                          (Euralink.finish node) [e1]) as Hrun.
  { unfold run, Euralink.resolve. cbn [negb]. fold querySource.
    unfold Euralink.bind at 1. rewrite Hfirst. reflexivity. }
  assert (forall k : option Euralink.Response -> Euralink.Requests Euralink.Resolved,
             Euralink.bind (Euralink.identifierFallback node query r1) k [e1]
             = match Euralink.answer node 1 e2 with
               | Ok (Some r2) =>
                   if Euralink.noMatches r2
                   then Euralink.bind (Euralink.makeRequest node e3) k [e1; e2]
                   else k (Some r2) [e1; e2]
               | Ok None => (Throw Euralink.readLoadType, [e1; e2])
               | Throw e => (Throw e, [e1; e2])
               end) as Hsecond.
  { intros k. unfold Euralink.identifierFallback. rewrite Hnone.
    unfold Euralink.bind, Euralink.makeRequest at 1, Euralink.spotifyTrack,
      Euralink.youtubeWatch. fold e2 e3. cbn [List.length app].
    destruct (Euralink.answer node 1 e2) as [[r2 |] | e]; try reflexivity.
    destruct (Euralink.noMatches r2); reflexivity. }
  rewrite Hrun, Hsecond.
  split.
  { destruct (Euralink.answer node 1 e2) as [[r2 |] | e]; try (eexists; reflexivity).
    destruct (Euralink.noMatches r2).
    - unfold Euralink.bind, Euralink.makeRequest. cbn [List.length app].
      destruct (Euralink.answer node 2 e3) as [r3 | e].
      + unfold Euralink.finish. destruct r3 as [r3 |]; [| eexists; reflexivity].
        destruct (Euralink.tracksOf node r3); eexists; reflexivity.
      + eexists; reflexivity.
    - unfold Euralink.finish. destruct (Euralink.tracksOf node r2); eexists; reflexivity. }
  split.
  { intros r2 H2 Hm. rewrite H2, Hm. reflexivity. }
  split.
  { intros r2 r3 H2 Hm H3. rewrite H2, Hm.
    unfold Euralink.bind, Euralink.makeRequest. cbn [List.length app]. rewrite H3.
    reflexivity. }
  intros r tracks log Htracks. unfold Euralink.finish. rewrite Htracks. reflexivity.
Qed.

(** C9 on S6 of the specification: query "abc123", two answers without
    matches, then a track. *)
Lemma resolve_fallback_order_witness :
  Euralink.resolve true (Some Sample.thirdTime) "ytmsearch" "abc123" None []
  = (Ok (Euralink.mkResolved (Some "track") [Sample.trackA] None),
     [ "/v4/loadtracks?identifier=ytmsearch%3Aabc123";
       "/v4/loadtracks?identifier=https://open.spotify.com/track/abc123";
       "/v4/loadtracks?identifier=https://www.youtube.com/watch?v=abc123" ]).
Proof.
  destruct (resolve_fallback_order Sample.thirdTime "ytmsearch" "abc123" None
              Euralink.EmptyLoaded eq_refl eq_refl eq_refl)
    as (_ & _ & Hthird & Hfinish).
  cbv zeta in Hthird.
  rewrite (Hthird Euralink.EmptyLoaded
             (Some (Euralink.TrackLoaded
                      (Some (Euralink.mkRaw (track Sample.trackA) (info Sample.trackA)))))
             eq_refl eq_refl eq_refl).
  apply Hfinish. reflexivity.
Defined.

(* ================================================================== *)
(** * Queue: reordering *)

Lemma exchange_Permutation {A : Type} (i j : nat) (q : list A) :
  Queue.exchange i j q ≡ₚ q.
Proof.
  unfold Queue.exchange.
  destruct (q !! i) as [x |] eqn:Hi; [| reflexivity].
  destruct (q !! j) as [y |] eqn:Hj; [| reflexivity].
  apply Permutation_insert_swap; assumption.
Qed.

(** The Fisher-Yates loop only exchanges elements. *)
Lemma fisherYates_Permutation {A : Type} (pick : nat -> nat) (i : nat) (q : list A) :
  Queue.fisherYates pick i q ≡ₚ q.
Proof.
  revert q. induction i as [| i IH]; intros q; [reflexivity |].
  cbn [Queue.fisherYates]. rewrite IH. apply exchange_Permutation.
Qed.

(** [splice(i, 1)] takes out the element at [i], if there is one. *)
Lemma splice_take_out {A : Type} (i : nat) (q : list A) :
  Queue.splice i 1 [] q = (option_list (q !! i), delete i q).
Proof.
  unfold Queue.splice. f_equal.
  - revert i. induction q as [| x q IH]; intros [| i]; try reflexivity. apply IH.
  - rewrite delete_take_drop. cbn [app]. f_equal. f_equal. lia.
Qed.

(** [splice(j, 0, x)] puts [x] in before index [j]. *)
Lemma splice_put_in {A : Type} (j : nat) (x : A) (q : list A) :
  snd (Queue.splice j 0 [x] q) = (take j q ++ x :: drop j q)%list.
Proof. unfold Queue.splice. cbn. rewrite Nat.add_0_r. reflexivity. Qed.

(** What was put in at [j] is found at [j]. *)
Lemma put_in_lookup {A : Type} (j : nat) (x : A) (q : list A) :
  (j <= List.length q)%nat -> (take j q ++ x :: drop j q)%list !! j = Some x.
Proof.
  intros Hj. rewrite lookup_app_r by (rewrite length_take; lia).
  rewrite length_take. replace (j - j `min` List.length q)%nat with 0%nat by lia.
  reflexivity.
Qed.

(** Deleting what was put in at [j] gives the list back. *)
Lemma put_in_delete {A : Type} (j : nat) (x : A) (q : list A) :
  (j <= List.length q)%nat -> delete j (take j q ++ x :: drop j q)%list = q.
Proof.
  intros Hj. rewrite delete_take_drop.
  rewrite take_app_le by (rewrite length_take; lia).
  rewrite take_take. replace (j `min` j)%nat with j by lia.
  rewrite drop_app_ge by (rewrite length_take; lia).
  rewrite length_take. replace (S j - j `min` List.length q)%nat with 1%nat by lia.
  cbn. rewrite drop_0. apply take_drop.
Qed.

(** An index within the queue passes the range check. *)
Lemma outside_false {A : Type} (index : Z) (q : list A) :
  Queue.outside index q = false <-> 0 <= index < Z.of_nat (List.length q).
Proof. unfold Queue.outside. rewrite orb_false_iff, Z.ltb_ge, Z.leb_gt. tauto. Qed.

(** What [move] does for two indices in range. *)
Lemma move_in_range {A : Type} (from to : nat) (x : A) (q : list A) :
  q !! from = Some x -> (to < List.length q)%nat ->
  Queue.move (Z.of_nat from) (Z.of_nat to) q
  = (take to (delete from q) ++ x :: drop to (delete from q))%list.
Proof.
  intros Hx Hto. unfold Queue.move.
  assert (from < List.length q)%nat as Hfrom by (eapply lookup_lt_Some; eassumption).
  assert (Queue.outside (Z.of_nat from) q = false) as -> by (apply outside_false; lia).
  assert (Queue.outside (Z.of_nat to) q = false) as -> by (apply outside_false; lia).
  cbn [orb]. rewrite !Nat2Z.id, splice_take_out, Hx. cbn [option_list].
  apply splice_put_in.
Qed.

(** X1: [move(from, to)] with both indices in range only reorders the
    queue: the track that was at [from] is at [to] afterwards, the length
    is the same and nothing is lost or duplicated; moving it back with
    [move(to, from)] restores the queue.  With an index out of range the
    queue is left as it is. *)
Theorem queue_move_round_trip {A : Type} (from to : Z) (q : list A) :
  (Queue.outside from q || Queue.outside to q = true -> Queue.move from to q = q)
  /\ (0 <= from < Z.of_nat (List.length q) -> 0 <= to < Z.of_nat (List.length q) ->
      Queue.move from to q ≡ₚ q
      /\ Queue.move from to q !! Z.to_nat to = q !! Z.to_nat from
      /\ Queue.move to from (Queue.move from to q) = q).
Proof.
  split.
  { intros H. unfold Queue.move. rewrite H. reflexivity. }
  intros Hfrom Hto.
  destruct (lookup_lt_is_Some_2 q (Z.to_nat from)) as [x Hx]; [lia |].
  assert (Queue.move from to q
          = (take (Z.to_nat to) (delete (Z.to_nat from) q)
               ++ x :: drop (Z.to_nat to) (delete (Z.to_nat from) q))%list) as Hmove.
  { rewrite <- (Z2Nat.id from), <- (Z2Nat.id to) by lia.
    rewrite !Nat2Z.id. apply move_in_range; [exact Hx | lia]. }
  assert (List.length (delete (Z.to_nat from) q) = (List.length q - 1)%nat) as Hlen.
  { rewrite length_delete; [reflexivity | eauto]. }
  split; [| split].
  - rewrite Hmove, <- Permutation_middle, take_drop.
    symmetry. apply delete_Permutation. exact Hx.
  - rewrite Hmove, Hx. apply put_in_lookup. lia.
  - rewrite Hmove.
    set (r := (take _ _ ++ x :: drop _ _)%list).
    assert (r !! Z.to_nat to = Some x) as Hr by (apply put_in_lookup; lia).
    rewrite <- (Z2Nat.id from), <- (Z2Nat.id to) at 1 by lia.
    rewrite (move_in_range _ _ x r Hr).
    + unfold r. rewrite put_in_delete by lia.
      rewrite <- (take_drop_middle q (Z.to_nat from) x Hx) at 3.
      rewrite delete_take_drop.
      rewrite take_app_le by (rewrite length_take; lia).
      rewrite take_take. replace (Z.to_nat from `min` Z.to_nat from)%nat
        with (Z.to_nat from) by lia.
      rewrite drop_app_ge by (rewrite length_take; lia).
      rewrite length_take.
      replace (Z.to_nat from - Z.to_nat from `min` List.length q)%nat with 0%nat by lia.
      reflexivity.
    + unfold r. rewrite length_app, length_take. cbn [List.length].
      rewrite length_drop. lia.
Qed.

(** X1 on a queue of three. *)
Lemma queue_move_round_trip_witness :
  Queue.move 0 2 [10; 20; 30] = [20; 30; 10]
  /\ Queue.move 2 0 (Queue.move 0 2 [10; 20; 30]) = [10; 20; 30].
Proof.
  destruct (queue_move_round_trip 0 2 [10; 20; 30]) as [_ H].
  destruct H as (_ & _ & Hback); [cbn; lia | cbn; lia |].
  split; [reflexivity | exact Hback].
Defined.

(** X2: [insert(index, track)] accepts every index: one below 0 counts as
    0 and one above the length as the length.  The queue grows by one, the
    track sits at that index, and [remove] at that index hands the track
    back and restores the queue. *)
Theorem queue_insert_then_remove {A : Type} (index : Z) (x : A) (q : list A) :
  let at_ := Z.min (Z.max index 0) (Z.of_nat (List.length q)) in
  let q' := Queue.insert index x q in
  List.length q' = S (List.length q)
  /\ q' !! Z.to_nat at_ = Some x
  /\ Queue.remove at_ q' = (Some x, q).
Proof.
  cbv zeta.
  set (at_ := Z.min (Z.max index 0) (Z.of_nat (List.length q))).
  assert (Queue.insert index x q
          = (take (Z.to_nat at_) q ++ x :: drop (Z.to_nat at_) q)%list) as Hins.
  { unfold Queue.insert. rewrite splice_put_in. f_equal; [f_equal | f_equal; f_equal];
      unfold at_; destruct (Z.ltb_spec index 0);
      repeat match goal with |- context [Z.ltb ?a ?b] => destruct (Z.ltb_spec a b) end;
      lia. }
  assert (Z.to_nat at_ <= List.length q)%nat as Hle by (unfold at_; lia).
  rewrite Hins. split; [| split].
  - rewrite length_app, length_take. cbn [List.length]. rewrite length_drop. lia.
  - apply put_in_lookup. exact Hle.
  - unfold Queue.remove.
    assert (Queue.outside at_ (take (Z.to_nat at_) q ++ x :: drop (Z.to_nat at_) q)%list
            = false) as ->.
    { apply outside_false. rewrite length_app, length_take. cbn [List.length].
      rewrite length_drop. unfold at_. lia. }
    rewrite splice_take_out, put_in_lookup, put_in_delete by exact Hle. reflexivity.
Qed.

(** Exchanging the same two places twice changes nothing. *)
Lemma exchange_twice {A : Type} (i j : nat) (q : list A) :
  Queue.exchange i j (Queue.exchange i j q) = q.
Proof.
  unfold Queue.exchange at 2.
  destruct (q !! i) as [x |] eqn:Hi; [| unfold Queue.exchange; now rewrite Hi].
  destruct (q !! j) as [y |] eqn:Hj; [| unfold Queue.exchange; now rewrite Hi, Hj].
  assert (i < List.length q)%nat as Hli by (eapply lookup_lt_Some; eassumption).
  assert (j < List.length q)%nat as Hlj by (eapply lookup_lt_Some; eassumption).
  unfold Queue.exchange.
  destruct (decide (i = j)) as [-> | Hne].
  - rewrite list_insert_insert_eq, list_lookup_insert_eq by lia.
    rewrite list_insert_insert_eq. assert (x = y) as -> by congruence.
    rewrite list_insert_insert_eq. apply list_insert_id. exact Hj.
  - rewrite (list_lookup_insert_ne _ j i) by congruence.
    rewrite list_lookup_insert_eq by lia.
    rewrite list_lookup_insert_eq by (rewrite length_insert; lia).
    apply list_eq. intros k.
    rewrite !list_lookup_insert. rewrite !length_insert.
    repeat case_decide; destruct_and?; subst; try congruence; try lia; reflexivity.
Qed.

(** X3: [swap(index1, index2)] only reorders the queue, and a second
    [swap] of the same two indices undoes the first; with an index out of
    range it does nothing, and with both in range the two tracks change
    places and every other track stays where it is. *)
Theorem queue_swap_involution {A : Type} (index1 index2 : Z) (q : list A) :
  Queue.swap index1 index2 q ≡ₚ q
  /\ List.length (Queue.swap index1 index2 q) = List.length q
  /\ Queue.swap index1 index2 (Queue.swap index1 index2 q) = q
  /\ (Queue.outside index1 q || Queue.outside index2 q = true ->
      Queue.swap index1 index2 q = q)
  /\ (Queue.outside index1 q || Queue.outside index2 q = false ->
      Queue.swap index1 index2 q !! Z.to_nat index1 = q !! Z.to_nat index2
      /\ Queue.swap index1 index2 q !! Z.to_nat index2 = q !! Z.to_nat index1
      /\ (forall k : nat, k <> Z.to_nat index1 -> k <> Z.to_nat index2 ->
                          Queue.swap index1 index2 q !! k = q !! k)).
Proof.
  assert (Queue.swap index1 index2 q ≡ₚ q) as Hperm.
  { unfold Queue.swap. destruct (_ || _); [reflexivity | apply exchange_Permutation]. }
  split; [exact Hperm |]. split; [apply Permutation_length; exact Hperm |].
  split.
  { assert (forall (index : Z) (a b : list A), List.length a = List.length b ->
              Queue.outside index a = Queue.outside index b) as Hout.
    { intros index a b H. unfold Queue.outside. rewrite H. reflexivity. }
    unfold Queue.swap at 1.
    rewrite (Hout index1 _ q), (Hout index2 _ q) by (apply Permutation_length; exact Hperm).
    unfold Queue.swap.
    destruct (_ || _); [reflexivity | apply exchange_twice]. }
  split.
  { intros H. unfold Queue.swap. rewrite H. reflexivity. }
  intros H. unfold Queue.swap. rewrite H.
  apply orb_false_elim in H as [H1 H2]. unfold Queue.outside in H1, H2.
  apply orb_false_elim in H1 as [H1 H1'], H2 as [H2 H2'].
  apply Z.ltb_ge in H1, H2. apply Z.leb_gt in H1', H2'.
  unfold Queue.exchange.
  destruct (lookup_lt_is_Some_2 q (Z.to_nat index1) ltac:(lia)) as [x Hx].
  destruct (lookup_lt_is_Some_2 q (Z.to_nat index2) ltac:(lia)) as [y Hy].
  rewrite Hx, Hy.
  repeat split; intros; rewrite !list_lookup_insert, ?length_insert;
    repeat case_decide; destruct_and?; subst; try congruence; try lia.
Qed.

(** X3 on a queue of three: the first and the last change places, and an
    index past the end changes nothing. *)
Lemma queue_swap_involution_witness :
  Queue.swap 0 2 [10; 20; 30] !! 0%nat = Some 30
  /\ Queue.swap 0 2 [10; 20; 30] !! 2%nat = Some 10
  /\ Queue.swap 0 3 [10; 20; 30] = [10; 20; 30].
Proof.
  destruct (queue_swap_involution 0 2 [10; 20; 30]) as (_ & _ & _ & _ & Hplaces).
  destruct (Hplaces eq_refl) as (H0 & H2 & _).
  split; [exact H0 |]. split; [exact H2 |].
  destruct (queue_swap_involution 0 3 [10; 20; 30]) as (_ & _ & _ & Hnothing & _).
  apply Hnothing. reflexivity.
Defined.

(** X4: [shuffle()] only reorders the queue, whatever is drawn, and a queue
    of at most one track is returned as it is. *)
Theorem queue_shuffle_permutes {A : Type} (pick : nat -> nat) (q : list A) :
  (forall i, (pick i <= i)%nat) ->
  Queue.shuffle pick q ≡ₚ q
  /\ ((List.length q <= 1)%nat -> Queue.shuffle pick q = q).
Proof.
  intros _. unfold Queue.shuffle. split.
  - destruct (Nat.leb _ _); [reflexivity | apply fisherYates_Permutation].
  - intros H. apply Nat.leb_le in H. rewrite H. reflexivity.
Qed.

(** X4 on a queue of three, every draw being 0. *)
Lemma queue_shuffle_permutes_witness :
  Queue.shuffle (fun _ => 0%nat) [10; 20; 30] ≡ₚ [10; 20; 30]
  /\ Queue.shuffle (fun _ => 0%nat) [10; 20; 30] = [20; 30; 10].
Proof.
  split; [| reflexivity].
  apply (queue_shuffle_permutes (fun _ => 0%nat) [10; 20; 30]). intros i. lia.
Defined.

(** X5: [smartShuffle] only reorders the queue, and it puts every track
    whose identifier is among those of the first [recentCount] history
    entries behind all the others. *)
Theorem queue_smartShuffle_recent_last
    (pickOther pickRecent : nat -> nat) (recentCount : nat)
    (history : list HistoryEntry) (q : list (option Track)) :
  (forall i, (pickOther i <= i)%nat) -> (forall i, (pickRecent i <= i)%nat) ->
  (1 < List.length q)%nat ->
  let recent := Queue.recentIdentifiers recentCount history in
  Queue.smartShuffle pickOther pickRecent recentCount history q ≡ₚ q
  /\ exists others recents,
       Queue.smartShuffle pickOther pickRecent recentCount history q
       = (others ++ recents)%list
       /\ Forall (fun x => Queue.isRecent recent x = false) others
       /\ Forall (fun x => Queue.isRecent recent x = true) recents.
Proof.
  intros _ _ Hlen. cbv zeta. unfold Queue.smartShuffle.
  apply Nat.leb_gt in Hlen. rewrite Hlen.
  set (recent := Queue.recentIdentifiers recentCount history).
  set (recents := List.filter (Queue.isRecent recent) q).
  set (others := List.filter (fun x => negb (Queue.isRecent recent x)) q).
  split.
  - rewrite !fisherYates_Permutation.
    unfold others, recents. clear. induction q as [| x q IH]; [reflexivity |].
    cbn. destruct (Queue.isRecent recent x); cbn.
    + rewrite <- Permutation_middle. constructor. exact IH.
    + constructor. exact IH.
  - eexists _, _. split; [reflexivity |]. split.
    + eapply Permutation_Forall; [symmetry; apply fisherYates_Permutation |].
      apply Forall_forall. intros x Hx. apply list_elem_of_In, filter_In in Hx as [_ Hx].
      apply negb_true_iff. exact Hx.
    + eapply Permutation_Forall; [symmetry; apply fisherYates_Permutation |].
      apply Forall_forall. intros x Hx. apply list_elem_of_In, filter_In in Hx as [_ Hx]. exact Hx.
Qed.

(** X5 on a queue that holds the track played last. *)
Lemma queue_smartShuffle_recent_last_witness :
  Queue.smartShuffle (fun _ => 0%nat) (fun _ => 0%nat) 5
    [mkEntry Sample.trackA 0 1]
    [Some Sample.trackA; Some Sample.trackB; None]
  ≡ₚ [Some Sample.trackA; Some Sample.trackB; None].
Proof.
  apply (queue_smartShuffle_recent_last (fun _ => 0%nat) (fun _ => 0%nat) 5
           [mkEntry Sample.trackA 0 1]
           [Some Sample.trackA; Some Sample.trackB; None]).
  - intros i. lia.
  - intros i. lia.
  - cbn. lia.
Defined.

(** An exchange keeps the length. *)
Lemma exchange_length {A : Type} (i j : nat) (q : list A) :
  List.length (Queue.exchange i j q) = List.length q.
Proof.
  unfold Queue.exchange. destruct (q !! i), (q !! j); rewrite ?length_insert; reflexivity.
Qed.

(** An index within a window of the list is found in the window. *)
Lemma window_lookup {A : Type} (lo n i : nat) (q : list A) :
  (lo <= i < lo + n)%nat -> take n (drop lo q) !! (i - lo)%nat = q !! i.
Proof.
  intros Hi. rewrite lookup_take_lt by lia. rewrite lookup_drop. f_equal. lia.
Qed.

(** Writing within a window writes in the window. *)
Lemma window_insert_in {A : Type} (lo n i : nat) (x : A) (q : list A) :
  (lo <= i < lo + n)%nat ->
  take n (drop lo (<[i := x]> q)) = <[(i - lo)%nat := x]> (take n (drop lo q)).
Proof.
  intros Hi. rewrite drop_insert_ge by lia. apply take_insert_lt. lia.
Qed.

(** Writing outside a window leaves the window alone. *)
Lemma window_insert_out {A : Type} (lo n i : nat) (x : A) (q : list A) :
  (i < lo \/ lo + n <= i)%nat ->
  take n (drop lo (<[i := x]> q)) = take n (drop lo q).
Proof.
  intros [Hi | Hi].
  - rewrite drop_insert_lt by lia. reflexivity.
  - rewrite drop_insert_ge by lia. apply take_insert_ge. lia.
Qed.

(** An exchange within a window is an exchange in the window. *)
Lemma window_exchange_in {A : Type} (lo n i j : nat) (q : list A) :
  (lo <= i < lo + n)%nat -> (lo <= j < lo + n)%nat ->
  take n (drop lo (Queue.exchange i j q))
  = Queue.exchange (i - lo) (j - lo) (take n (drop lo q)).
Proof.
  intros Hi Hj. unfold Queue.exchange.
  rewrite (window_lookup lo n i q Hi), (window_lookup lo n j q Hj).
  destruct (q !! i), (q !! j); try reflexivity.
  rewrite !window_insert_in by lia. reflexivity.
Qed.

(** An exchange outside a window leaves the window alone. *)
Lemma window_exchange_out {A : Type} (lo n i j : nat) (q : list A) :
  (i < lo \/ lo + n <= i)%nat -> (j < lo \/ lo + n <= j)%nat ->
  take n (drop lo (Queue.exchange i j q)) = take n (drop lo q).
Proof.
  intros Hi Hj. unfold Queue.exchange.
  destruct (q !! i), (q !! j); try reflexivity.
  rewrite !window_insert_out by lia. reflexivity.
Qed.

(** The inner loop reorders its own chunk and leaves every other chunk
    alone. *)
Lemma shuffleChunk_window {A : Type} (pick : nat -> nat) (c i rounds lo : nat) (q : list A) :
  (forall r, (r <= rounds)%nat -> (pick (i + r)%nat <= r)%nat) ->
  (rounds < c)%nat ->
  (lo = i \/ lo + c <= i \/ i + c <= lo)%nat ->
  take c (drop lo (Queue.shuffleChunk pick i rounds q)) ≡ₚ take c (drop lo q)
  /\ List.length (Queue.shuffleChunk pick i rounds q) = List.length q
  /\ Queue.shuffleChunk pick i rounds q ≡ₚ q.
Proof.
  revert q. induction rounds as [| below IH]; intros q Hpick Hrounds Hlo.
  - cbn. repeat split; reflexivity.
  - cbn [Queue.shuffleChunk].
    destruct (IH (Queue.exchange (i + S below)%nat (i + pick (i + S below)%nat)%nat q))
      as (Hwin & Hlen & Hperm); [intros r Hr; apply Hpick; lia | lia | exact Hlo |].
    pose proof (Hpick (S below) ltac:(lia)) as Hk.
    split; [| split].
    + rewrite Hwin. destruct Hlo as [-> | Hlo].
      * rewrite window_exchange_in by lia. apply exchange_Permutation.
      * rewrite window_exchange_out by lia. reflexivity.
    + rewrite Hlen. apply exchange_length.
    + rewrite Hperm. apply exchange_Permutation.
Qed.

(** So does the outer loop, chunk by chunk. *)
Lemma shuffleChunks_window {A : Type} (pick : nat -> nat) (c chunks m b : nat) (q : list A) :
  (0 < c)%nat ->
  (forall j, (pick j <= j mod c)%nat) ->
  take c (drop (b * c)%nat (Queue.shuffleChunks pick c chunks (m * c)%nat q))
  ≡ₚ take c (drop (b * c)%nat q)
  /\ Queue.shuffleChunks pick c chunks (m * c)%nat q ≡ₚ q.
Proof.
  intros Hc Hpick. revert m q. induction chunks as [| more IH]; intros m q.
  - cbn. split; reflexivity.
  - cbn [Queue.shuffleChunks]. cbv zeta.
    replace (m * c + c)%nat with (S m * c)%nat by lia.
    destruct (IH (S m)
                (Queue.shuffleChunk pick (m * c)%nat
                   (Nat.min (S m * c) (List.length q) - 1 - m * c)%nat q)) as (Hwin & Hperm).
    destruct (shuffleChunk_window pick c (m * c)%nat
                (Nat.min (S m * c) (List.length q) - 1 - m * c)%nat (b * c)%nat q)
      as (Hwin' & _ & Hperm').
    + intros r Hr. specialize (Hpick (m * c + r)%nat).
      replace ((m * c + r) mod c)%nat with r in Hpick; [exact Hpick |].
      rewrite Nat.add_comm, Nat.Div0.mod_add. symmetry. apply Nat.mod_small. lia.
    + lia.
    + destruct (Nat.lt_trichotomy b m) as [Hlt | [-> | Hgt]]; [right; left | left | right; right];
        nia.
    + split; [rewrite Hwin; exact Hwin' | rewrite Hperm; exact Hperm'].
Qed.

(** X29: [shuffleAsync()] only reorders the queue, and it does so within
    each chunk of 1000: the tracks at indices [1000 b .. 1000 b + 999] are
    the same before and after, for every [b].  No track leaves its
    chunk. *)
Theorem queue_shuffleAsync_blocks {A : Type} (pick : nat -> nat) (q : list A) :
  (forall j, (pick j <= j mod 1000)%nat) ->
  let q' := Queue.shuffleAsync pick q in
  q' ≡ₚ q
  /\ forall b, take 1000 (drop (b * 1000)%nat q') ≡ₚ take 1000 (drop (b * 1000)%nat q).
Proof.
  intros Hpick. cbv zeta. unfold Queue.shuffleAsync.
  destruct (Nat.leb _ 1); [split; [reflexivity | intros b; reflexivity] |].
  split.
  - apply (shuffleChunks_window pick 1000 _ 0 0 q); [lia | exact Hpick].
  - intros b. apply (shuffleChunks_window pick 1000 _ 0 b q); [lia | exact Hpick].
Qed.

(** X29 on a queue of three, every draw being 0. *)
Lemma queue_shuffleAsync_blocks_witness :
  Queue.shuffleAsync (fun _ => 0%nat) [10; 20; 30] ≡ₚ [10; 20; 30].
Proof.
  apply (queue_shuffleAsync_blocks (fun _ => 0%nat) [10; 20; 30]). intros j. lia.
Defined.

(* ================================================================== *)
(** * Player: starting, batching, connecting *)





(** [Player.queueUpdate] with batching on: the flush timer is set anew. *)
Lemma player_queueUpdate_timers (now : Z) (data : UpdateData) (w : World) :
  batchUpdates (self w) = true ->
  let w' := Player.queueUpdate now data w in
  timers w'
  = (timers (clearIfSet (updateTimeout (self w)) w)
       ++ [mkTimer (nextHandle w) (batchDelay (self w)) PlayerFlush])%list
  /\ nextHandle w' = S (nextHandle w) /\ nodeUp w' = nodeUp w.
Proof.
  intros Hb. cbv zeta. unfold Player.queueUpdate. rewrite Hb. cbn [negb].
  destruct (updateTimeout (self w)) eqn:E; cbn; rewrite ?E; cbn; repeat split.
Qed.

(** [find] on a list with one more element at its end. *)
Lemma find_snoc {A : Type} (f : A -> bool) (l : list A) (x : A) :
  List.find f (l ++ [x])
  = match List.find f l with
    | Some y => Some y
    | None => if f x then Some x else None
    end.
Proof.
  induction l as [| y l IH]; cbn; [reflexivity |]. destruct (f y); [reflexivity | exact IH].
Qed.

(** A handle that was cleared is not found. *)
Lemma find_cleared (h : nat) (pending : list Timer) :
  List.find (fun t => Nat.eqb (handle t) h)
            (List.filter (fun t => negb (Nat.eqb (handle t) h)) pending) = None.
Proof.
  induction pending as [| t pending IH]; cbn; [reflexivity |].
  destruct (Nat.eqb (handle t) h) eqn:E; cbn; [exact IH | rewrite E; exact IH].
Qed.

(** Clearing a handle keeps the pending timers older than the next handle. *)
Lemma filter_fresh (h : nat) (pending : list Timer) :
  Forall (fun t => (handle t < h)%nat) pending ->
  Forall (fun t => (handle t < S h)%nat)
         (List.filter (fun t => negb (Nat.eqb (handle t) h)) pending).
Proof.
  induction 1 as [| t pending Ht _ IH]; cbn; [constructor |].
  destruct (negb _); [constructor; [lia | exact IH] | exact IH].
Qed.

(** X7: two updates queued one after the other ([pause], [seek], [stop],
    [setVolume] and [play] all go through [queueUpdate]) are sent as one
    PATCH.  The timer set by the first is cancelled, so that its handle
    fires nothing; when the second timer fires, one PATCH carries the
    updates merged over what was already queued; a key of the later
    update wins, and the timestamp is the later one.  When the node fails,
    [playerError] is emitted twice for that one PATCH. *)
Theorem player_updates_coalesce (now1 now2 now3 : Z) (d1 d2 : UpdateData) (w : World) :
  batchUpdates (self w) = true ->
  Forall (fun t => (handle t < nextHandle w)%nat) (timers w) ->
  let w2 := Player.queueUpdate now2 d2 (Player.queueUpdate now1 d1 w) in
  let w3 := fire now3 (S (nextHandle w)) w2 in
  let merged :=
    assign (assign (fold_left assign (updateQueue (self w)) noUpdate)
                   (assign d1 (mkUpdate None None None None (Some now1))))
           (assign d2 (mkUpdate None None None None (Some now2))) in
  fire now3 (nextHandle w) w2 = w2
  /\ trace w2 = trace w
  /\ trace w3
     = (trace w ++ Patch (guildId (self w)) (BodyUpdate merged)
          :: (if nodeUp w then [] else [Emit "playerError"; Emit "playerError"]))%list
  /\ updateQueue (self w3) = []
  /\ u_timestamp merged = Some now2
  /\ (forall v, u_volume d2 = Some v -> u_volume merged = Some v)
  /\ (forall v, u_volume d2 = None -> u_volume d1 = Some v -> u_volume merged = Some v).
Proof.
  intros Hb Hfresh. cbv zeta.
  set (w1 := Player.queueUpdate now1 d1 w).
  destruct (queueUpdate_batched now1 d1 w Hb) as (Hself1 & Htr1 & _ & _).
  destruct (player_queueUpdate_timers now1 d1 w Hb) as (Hti1 & Hnh1 & Hup1).
  cbv zeta in Hself1, Htr1, Hti1, Hnh1, Hup1. fold w1 in Hself1, Htr1, Hti1, Hnh1, Hup1.
  assert (batchUpdates (self w1) = true) as Hb1 by (rewrite Hself1; exact Hb).
  set (w2 := Player.queueUpdate now2 d2 w1).
  destruct (queueUpdate_batched now2 d2 w1 Hb1) as (Hself2 & Htr2 & _ & _).
  destruct (player_queueUpdate_timers now2 d2 w1 Hb1) as (Hti2 & Hnh2 & Hup2).
  cbv zeta in Hself2, Htr2, Hti2, Hnh2, Hup2. fold w2 in Hself2, Htr2, Hti2, Hnh2, Hup2.
  assert (updateTimeout (self w1) = Some (nextHandle w)) as Hto1
    by (rewrite Hself1; reflexivity).
  rewrite Hto1 in Hti2. cbn [clearIfSet clearTimeout timers set_timers] in Hti2.
  rewrite Hti1, List.filter_app in Hti2. cbn [List.filter handle] in Hti2.
  rewrite Nat.eqb_refl in Hti2. cbn [negb] in Hti2. rewrite app_nil_r in Hti2.
  pose proof (clearIfSet_fresh _ (updateTimeout (self w)) w Hfresh) as Hfresh'.
  set (old := timers (clearIfSet (updateTimeout (self w)) w)) in *.
  split.
  { unfold fire. rewrite Hti2, find_snoc, find_cleared. cbn [handle].
    rewrite Hnh1. destruct (Nat.eqb_spec (S (nextHandle w)) (nextHandle w)); [lia |].
    reflexivity. }
  split; [rewrite Htr2; exact Htr1 |].
  assert (List.find (fun t => Nat.eqb (handle t) (S (nextHandle w))) (timers w2)
          = Some (mkTimer (nextHandle w1) (batchDelay (self w1)) PlayerFlush)) as Hfind.
  { rewrite Hti2. apply find_fresh; [cbn; exact Hnh1 |]. apply filter_fresh. exact Hfresh'. }
  unfold fire. rewrite Hfind. cbn [callback].
  unfold Player.processUpdateQueue.
  cbn [self clearTimeout set_timers].
  rewrite Hself2, Hself1. cbn [updateQueue set_updateTimeout set_updateQueue].
  destruct ((updateQueue (self w) ++ _) ++ _)%list as [| u us] eqn:Hq.
  { apply app_eq_nil in Hq as [_ Hq]. discriminate Hq. }
  rewrite <- Hq. rewrite !fold_left_app. cbn [fold_left].
  unfold Player.performUpdate, effect, emit, effect. cbn.
  assert (guildId (self w2) = guildId (self w)) as Hg
    by (rewrite Hself2, Hself1; reflexivity).
  rewrite Hup2, Hup1, Htr2, Htr1, Hg.
  destruct (nodeUp w); cbn; rewrite <- ?app_assoc; repeat split;
    try (intros v Hv; rewrite Hv; reflexivity);
    intros v Hv2 Hv1; rewrite Hv2, Hv1; reflexivity.
Qed.

(** X7 for two [setVolume] updates, 50 then 80: one PATCH, with volume 80. *)
Lemma player_updates_coalesce_witness :
  let volume v := mkUpdate None None None (Some v) None in
  let w2 := Player.queueUpdate 2 (volume 80) (Player.queueUpdate 1 (volume 50) Sample.playingA) in
  fire 3 0 w2 = w2
  /\ trace (fire 3 1 w2)
     = (trace Sample.playingA
          ++ [Patch "1" (BodyUpdate (mkUpdate None None None (Some 80) (Some 2)))])%list.
Proof.
  assert (Forall (fun t => (handle t < nextHandle Sample.playingA)%nat)
                 (timers Sample.playingA)) as Hfresh by constructor.
  destruct (player_updates_coalesce 1 2 3 (mkUpdate None None None (Some 50) None)
              (mkUpdate None None None (Some 80) None) Sample.playingA eq_refl Hfresh)
    as (Hcancelled & _ & Htrace & _).
  split; [exact Hcancelled | exact Htrace].
Defined.

(** X8: [disconnect()] twice is [disconnect()] once: the second call
    changes nothing.  The first, on a Player that has a voice channel and a
    Connection that is not [disconnected], ends with the Player paused, not
    playing, not connected, without a voice channel, the leave packet the
    last thing sent and [playerDisconnect] scheduled last. *)
Theorem disconnect_once (now1 now2 : Z) (w : World) :
  let w1 := Player.disconnect now1 w in
  Player.disconnect now2 w1 = w1
  /\ (connectionState (connection (self w)) <> disconnected ->
      truthyS (voiceChannel (self w)) = true ->
      connectionState (connection (self w1)) = disconnected
      /\ connected (self w1) = false /\ voiceChannel (self w1) = None
      /\ playing (self w1) = false /\ paused (self w1) = true
      /\ last (trace w1) = Some (GatewaySend (guildId (self w)) None false false)
      /\ last (timers w1) = Some (mkTimer (Nat.pred (nextHandle w1)) 100 PlayerDisconnected)).
Proof.
  cbv zeta. split.
  - destruct (disconnect_result now1 w) as (Hguard & _).
    cbv zeta in Hguard. unfold Player.disconnect at 1. rewrite Hguard. reflexivity.
  - intros Hst Hvc. unfold Player.disconnect.
    destruct (connectionState (connection (self w))) eqn:E; try congruence;
      cbn [ConnectionState_eqb orb]; rewrite Hvc; cbn [negb].
    all: unfold Player.pause.
    all: destruct (queueUpdate_frame now1 (mkUpdate None None (Some true) None None) w)
      as (_ & _ & _ & _ & _ & _ & _ & _ & _ & _ & Hg & _); cbv zeta in Hg.
    all: set (w0 := Player.queueUpdate _ _ w) in *; clearbody w0.
    all: cbn; rewrite Hg, !last_snoc; repeat split.
Qed.

(** X8 on the sample Player. *)
Lemma disconnect_once_witness :
  let w1 := Player.disconnect 5 Sample.playingA in
  Player.disconnect 6 w1 = w1
  /\ connected (self w1) = false /\ voiceChannel (self w1) = None
  /\ last (trace w1) = Some (GatewaySend "1" None false false).
Proof.
  destruct (disconnect_once 5 6 Sample.playingA) as (Hsame & Hleft).
  destruct Hleft as (_ & Hco & Hvc & _ & _ & Htr & _); [discriminate | reflexivity |].
  split; [exact Hsame |]. split; [exact Hco |]. split; [exact Hvc | exact Htr].
Defined.

(** X9: a second [connect(options)] after one that succeeded changes
    nothing, so that only one voice join is sent.  A Player that is
    connected or connecting is left as it is; otherwise the Connection
    becomes [connecting], the two channels are stored and the join packet
    is the one thing sent. *)
Theorem connect_twice (guild channel text : option string) (w w1 : World) :
  Player.connect guild channel text w = Ok w1 ->
  Player.connect guild channel text w1 = Ok w1
  /\ (connected (self w) = true
      \/ connectionState (connection (self w)) = connecting -> w1 = w)
  /\ (connected (self w) = false ->
      connectionState (connection (self w)) <> connecting ->
      exists g,
        guild = Some g
        /\ connectionState (connection (self w1)) = connecting
        /\ voiceChannel (self w1) = channel /\ textChannel (self w1) = text
        /\ trace w1
           = (trace w ++ [GatewaySend g channel (mute (self w)) (deaf (self w))])%list).
Proof.
  unfold Player.connect.
  destruct (nodesAvailable w) eqn:Hn; cbn [negb]; [| discriminate].
  destruct (connected (self w)) eqn:Hco.
  - intros [= <-]. rewrite Hn, Hco. cbn [negb]. split; [reflexivity |].
    split; [reflexivity | discriminate].
  - destruct guild as [g |]; [| discriminate].
    destruct (truthyS (Some g) && truthyS channel && truthyS text) eqn:Hopts;
      cbn [negb]; [| discriminate].
    destruct (ConnectionState_eqb (connectionState (connection (self w))) connecting) eqn:Hst.
    + intros [= <-]. rewrite ?Hn, ?Hco, ?Hopts, ?Hst. cbn [negb]. split; [reflexivity |].
      split; [reflexivity |]. intros _ Hne. exfalso. apply Hne.
      destruct (connectionState (connection (self w))); try discriminate Hst. reflexivity.
    + intros [= <-]. cbn. rewrite ?Hn, ?Hco, ?Hopts. cbn. split; [reflexivity |].
      split.
      * intros [H | H]; [discriminate H |]. rewrite H in Hst. discriminate Hst.
      * intros _ _. exists g. repeat split.
Qed.

(** X9 on a registered Player that has not asked for a voice connection. *)
Lemma connect_twice_witness :
  exists w1,
    Player.connect (Some "1") (Some "VC") (Some "TC") Sample.registered = Ok w1
    /\ Player.connect (Some "1") (Some "VC") (Some "TC") w1 = Ok w1
    /\ trace w1 = [GatewaySend "1" (Some "VC") false false].
Proof.
  eexists. split; [reflexivity |].
  split; [| reflexivity].
  apply (connect_twice (Some "1") (Some "VC") (Some "TC") Sample.registered). reflexivity.
Defined.

(** X10: [seekPercentage], for a whole percentage, does nothing without a
    current track or for a percentage outside 0..100; otherwise, for a
    track of non-negative length with [length * 100] below 2^53 (where the
    doubles of the code are exact), it is [seek] to
    [floor(length * percentage / 100)], which lies within the track, and
    is its end at 100. *)
Theorem seekPercentage_in_range (now percentage : Z) (w : World) :
  let w' := Playback.seekPercentage now percentage w in
  (current (self w) = None \/ percentage < 0 \/ 100 < percentage -> w' = w)
  /\ (forall cur,
        current (self w) = Some cur -> 0 <= trackLength (info cur) ->
        trackLength (info cur) * 100 < 2 ^ 53 ->
        0 <= percentage <= 100 ->
        w' = Player.seek now (trackLength (info cur) * percentage / 100) w
        /\ 0 <= position (self w') <= trackLength (info cur)
        /\ (percentage = 100 -> position (self w') = trackLength (info cur))).
Proof.
  cbv zeta. unfold Playback.seekPercentage. split.
  - intros [H | H]; [rewrite H; reflexivity |].
    destruct (current (self w)); [| reflexivity].
    destruct (Z.ltb_spec percentage 0), (Z.ltb_spec 100 percentage);
      try reflexivity; lia.
  - intros cur Hcur Hlen _ Hpct. rewrite Hcur.
    destruct (Z.ltb_spec percentage 0); [lia |].
    destruct (Z.ltb_spec 100 percentage); [lia |]. cbn [orb].
    split; [reflexivity |].
    change (position (self (Player.seek now ?pos w))) with pos.
    repeat split.
    + apply Z.div_pos; nia.
    + apply Z.div_le_upper_bound; nia.
    + intros ->. apply Z.div_mul. lia.
Qed.

(** X10: half of a track of three minutes. *)
Lemma seekPercentage_in_range_witness :
  position (self (Playback.seekPercentage 3 50 Sample.playingA)) = 90000.
Proof.
  destruct (seekPercentage_in_range 3 50 Sample.playingA) as (_ & H).
  destruct (H Sample.trackA eq_refl) as (Heq & _); [cbn; lia | cbn; lia | lia |].
  rewrite Heq. reflexivity.
Defined.

(** X11: a Player restored by [fromJSON] from what [toJSON] saved of it
    saves to the same sixteen fields again, but for one: with a saved
    position above 0, [lastPosition] of [autoResumeState] becomes that
    position.  So the round trip gives back
    what was saved exactly when the position is not above 0, or there is no
    [autoResumeState], or its [lastPosition] is the position already; and
    saving and restoring a second time changes nothing more.  What is not
    saved starts afresh: the history limit is 20 again, the Connection
    [disconnected] (whatever [connected] says), mute, deaf, fade-in and
    autoplay are off and no update is queued. *)
Theorem fromJSON_toJSON (now later : Z) (i : Playback.Instance) :
  let saved := Playback.toJSON i in
  let restored := Playback.fromJSON now saved in
  let p := Playback.player i in
  Playback.toJSON restored
  = Playback.set_s_autoResumeState
      (Playback.resumeAt (position p) (Playback.autoResumeState i)) saved
  /\ (position p <= 0 \/ Playback.autoResumeState i = None
      \/ (exists a, Playback.autoResumeState i = Some a
                    /\ Playback.lastPosition a = position p) ->
      Playback.toJSON restored = saved)
  /\ (forall a,
        Playback.autoResumeState i = Some a -> 0 < position p ->
        Playback.lastPosition a <> position p ->
        Playback.toJSON restored <> saved
        /\ Playback.s_autoResumeState (Playback.toJSON restored)
           = Some (Playback.mkAutoResume (Playback.enabled a) (Playback.lastTrack a)
                     (position p) (Playback.lastVolume a) (Playback.lastFilters a)
                     (Playback.lastUpdate a)))
  /\ Playback.toJSON (Playback.fromJSON later (Playback.toJSON restored))
     = Playback.toJSON restored
  /\ historyLimit (Playback.player restored) = 20%nat
  /\ connectionState (connection (Playback.player restored)) = disconnected
  /\ mute (Playback.player restored) = false /\ deaf (Playback.player restored) = false
  /\ fadeInMs (Playback.player restored) = 0
  /\ isAutoplay (Playback.player restored) = false
  /\ updateQueue (Playback.player restored) = [].
Proof.
  cbv zeta.
  assert (Playback.toJSON (Playback.fromJSON now (Playback.toJSON i))
          = Playback.set_s_autoResumeState
              (Playback.resumeAt (position (Playback.player i)) (Playback.autoResumeState i))
              (Playback.toJSON i)) as Hround by reflexivity.
  split; [exact Hround |].
  split.
  { intros H. rewrite Hround. unfold Playback.set_s_autoResumeState, Playback.toJSON.
    cbn. f_equal. unfold Playback.resumeAt.
    destruct (Playback.autoResumeState i) as [a |]; [| reflexivity].
    destruct (Z.ltb_spec 0 (position (Playback.player i))) as [Hpos | _]; [| reflexivity].
    destruct H as [H | [H | (a' & [= <-] & H)]]; [lia | discriminate |].
    rewrite <- H. destruct a; reflexivity. }
  split.
  { intros a Ha Hpos Hne.
    assert (Playback.s_autoResumeState
              (Playback.toJSON (Playback.fromJSON now (Playback.toJSON i)))
            = Some (Playback.mkAutoResume (Playback.enabled a) (Playback.lastTrack a)
                      (position (Playback.player i)) (Playback.lastVolume a)
                      (Playback.lastFilters a) (Playback.lastUpdate a))) as Hstate.
    { rewrite Hround. cbn. rewrite Ha. cbn.
      destruct (Z.ltb_spec 0 (position (Playback.player i))); [reflexivity | lia]. }
    split; [| exact Hstate].
    intros Heq. rewrite Heq in Hstate. cbn in Hstate. rewrite Ha in Hstate.
    injection Hstate as Hstate. apply Hne. rewrite Hstate. reflexivity. }
  split.
  { unfold Playback.toJSON, Playback.fromJSON. cbn. f_equal.
    unfold Playback.resumeAt.
    destruct (Playback.autoResumeState i) as [a |]; [| reflexivity].
    destruct (Z.ltb_spec 0 (position (Playback.player i))) as [Hpos | Hpos]; cbn.
    - destruct (Z.ltb_spec 0 (position (Playback.player i))); [reflexivity | lia].
    - destruct (Z.ltb_spec 0 (position (Playback.player i))); [lia | reflexivity]. }
  repeat split.
Qed.

(** X11 on the sample Player, saved at position 5000 with an
    [autoResumeState] of [lastPosition] 0: restored, [lastPosition] is 5000
    and all the rest is as saved. *)
Lemma fromJSON_toJSON_witness :
  let state := Playback.mkAutoResume true (Some Sample.trackA) 0 100 None 0 in
  let i := Playback.mkInstance (set_position 5000 (self Sample.playingA)) 12
             [("requester", "42")] (Some state) in
  Playback.s_autoResumeState (Playback.toJSON (Playback.fromJSON 9 (Playback.toJSON i)))
  = Some (Playback.mkAutoResume true (Some Sample.trackA) 5000 100 None 0)
  /\ Playback.toJSON (Playback.fromJSON 9 (Playback.toJSON i)) <> Playback.toJSON i
  /\ Playback.toJSON
       (Playback.fromJSON 9
          (Playback.toJSON (Playback.mkInstance (self Sample.playingA) 12
                              [("requester", "42")] (Some state))))
     = Playback.toJSON (Playback.mkInstance (self Sample.playingA) 12
                          [("requester", "42")] (Some state)).
Proof.
  cbv zeta.
  destruct (fromJSON_toJSON 9 9
              (Playback.mkInstance (set_position 5000 (self Sample.playingA)) 12
                 [("requester", "42")]
                 (Some (Playback.mkAutoResume true (Some Sample.trackA) 0 100 None 0))))
    as (_ & _ & Hmoved & _).
  destruct (Hmoved (Playback.mkAutoResume true (Some Sample.trackA) 0 100 None 0) eq_refl)
    as (Hne & Hstate); [cbn; lia | cbn; lia |].
  split; [exact Hstate |]. split; [exact Hne |].
  destruct (fromJSON_toJSON 9 9
              (Playback.mkInstance (self Sample.playingA) 12 [("requester", "42")]
                 (Some (Playback.mkAutoResume true (Some Sample.trackA) 0 100 None 0))))
    as (_ & Hsame & _).
  apply Hsame. left. cbn. lia.
Defined.

(** [clearTimeout] keeps the timers of other handles. *)
Lemma clearTimeout_keeps (h : nat) (t : Timer) (w : World) :
  In t (timers w) -> handle t <> h -> In t (timers (clearTimeout h w)).
Proof.
  intros Hin Hne. cbn. apply filter_In. split; [exact Hin |].
  apply negb_true_iff, Nat.eqb_neq. exact Hne.
Qed.

(** [Player.queueUpdate] keeps a pending timer that is not the Player's own. *)
Lemma player_queueUpdate_keeps (now : Z) (data : UpdateData) (t : Timer) (w : World) :
  In t (timers w) -> updateTimeout (self w) <> Some (handle t) ->
  (handle t < nextHandle w)%nat ->
  let w' := Player.queueUpdate now data w in
  In t (timers w') /\ updateTimeout (self w') <> Some (handle t)
  /\ (handle t < nextHandle w')%nat
  /\ connection (self w') = connection (self w).
Proof.
  intros Hin Hne Hlt. cbv zeta. unfold Player.queueUpdate, Player.performUpdate.
  destruct (batchUpdates (self w)); cbn [negb].
  - destruct (updateTimeout (self w)) as [h |] eqn:E; cbn; rewrite ?E; cbn.
    + repeat split; try lia.
      * apply in_or_app. left. apply filter_In. split; [exact Hin |].
        apply negb_true_iff, Nat.eqb_neq. congruence.
      * intros [= H]. lia.
    + repeat split; try lia; [apply in_or_app; left; exact Hin |]. intros [= H]. lia.
  - destruct (nodeUp w) eqn:Hn; cbn; rewrite ?Hn; cbn; repeat split; assumption.
Qed.

(** [disconnect] keeps such a timer too, and leaves the Connection's queue
    alone. *)
Lemma disconnect_keeps (now : Z) (t : Timer) (w : World) :
  In t (timers w) -> updateTimeout (self w) <> Some (handle t) ->
  (handle t < nextHandle w)%nat ->
  let w' := Player.disconnect now w in
  In t (timers w') /\ updateTimeout (self w') <> Some (handle t)
  /\ connUpdateQueue (connection (self w')) = connUpdateQueue (connection (self w))
  /\ connUpdateTimeout (connection (self w')) = connUpdateTimeout (connection (self w))
  /\ (connectionState (connection (self w')) = connectionState (connection (self w))
      \/ connectionState (connection (self w')) = disconnected).
Proof.
  intros Hin Hne Hlt. cbv zeta. unfold Player.disconnect.
  destruct (_ || _); [repeat split; try assumption; left; reflexivity |].
  unfold Player.pause.
  destruct (player_queueUpdate_keeps now (mkUpdate None None (Some true) None None) t w
              Hin Hne Hlt) as (Hin' & Hne' & _ & Hconn).
  cbv zeta in Hin', Hne', Hconn.
  set (w0 := Player.queueUpdate _ _ w) in *. clearbody w0.
  cbn. rewrite Hconn. repeat split.
  - apply in_or_app. left. exact Hin'.
  - exact Hne'.
  - right. reflexivity.
Qed.

(** X12: [destroy] clears the Player's own flush timer and no other: a
    timer that was pending before is still pending after, if it is not the
    one [updateTimeout] names.  In particular the flush timer of the
    Connection stays, with the Connection's queue as it was and its state
    never [destroyed]: the voice PATCH it sends can follow the DELETE. *)
Theorem destroy_keeps_other_timers (now : Z) (disconnectFirst : bool) (t : Timer) (w : World) :
  In t (timers w) ->
  updateTimeout (self w) <> Some (handle t) ->
  (handle t < nextHandle w)%nat ->
  let w' := Player.destroy now disconnectFirst w in
  In t (timers w')
  /\ connUpdateQueue (connection (self w')) = connUpdateQueue (connection (self w))
  /\ connUpdateTimeout (connection (self w')) = connUpdateTimeout (connection (self w))
  /\ (connectionState (connection (self w')) = connectionState (connection (self w))
      \/ connectionState (connection (self w')) = disconnected).
Proof.
  intros Hin Hne Hlt. cbv zeta.
  assert (forall v : World,
            In t (timers v) -> updateTimeout (self v) <> Some (handle t) ->
            In t (timers (Player.destroy now false v))
            /\ connection (self (Player.destroy now false v)) = connection (self v))
    as Hrest.
  { intros v Hv Hnv.
    destruct (destroy_without_disconnect now v) as (Hself & _ & Htimers & _).
    cbv zeta in Hself, Htimers. rewrite Hself, Htimers. split; [| reflexivity].
    destruct (updateTimeout (self v)) as [h |]; [| exact Hv].
    apply clearTimeout_keeps; [exact Hv | congruence]. }
  destruct disconnectFirst.
  - rewrite destroy_unfold.
    destruct (disconnect_keeps now t w Hin Hne Hlt) as (Hin' & Hne' & Hq & Hto & Hst).
    cbv zeta in Hin', Hne', Hq, Hto, Hst.
    destruct (Hrest _ Hin' Hne') as (Hin2 & ->).
    repeat split; assumption.
  - destruct (Hrest _ Hin Hne) as (Hin2 & ->). repeat split; try assumption.
    left. reflexivity.
Qed.

(** X12 after a voice server update: the Connection's flush timer outlives
    [destroy], and its PATCH follows the DELETE. *)
Lemma destroy_keeps_other_timers_witness :
  exists w1,
    Euralink.updateVoiceState 10 Sample.serverUpdate Sample.created = Ok w1
    /\ let w2 := Player.destroy 20 true w1 in
       In (mkTimer 0 50 ConnectionFlush) (timers w2)
       /\ List.filter (fun e => isPatch e || isDelete e) (trace (fire 70 0 w2))
          = [Delete "1";
             Patch "1" (BodyVoice (mkVoice None None (Some "us-east42.example:443") (Some "T"))
                                  100)].
Proof.
  eexists. split; [vm_compute; reflexivity |]. cbv zeta. split; [| vm_compute; reflexivity].
  apply (destroy_keeps_other_timers 20 true (mkTimer 0 50 ConnectionFlush)).
  - vm_compute. left. reflexivity.
  - vm_compute. discriminate.
  - vm_compute. lia.
Defined.

(* ================================================================== *)
(** * Connection: state updates, flush, region *)

Lemma not_elem_of_removed (X : gset string) (g : string) : g ∉ X ∖ {[ g ]}.
Proof. rewrite elem_of_difference, elem_of_singleton. tauto. Qed.

(** X13: a voice state update without a channel destroys the Player:
    [playerDisconnect], the DELETE and [playerDestroy] follow in this
    order, no leave packet is sent, the guild leaves the players map, and
    the voice packets for that guild that come later change nothing.  The
    Player's [voiceChannel] is not cleared. *)
Theorem state_update_without_channel (now : Z) (d : Connection.StateUpdate) (w : World) :
  Connection.st_channel_id d = None ->
  let w' := Connection.setStateUpdate now d w in
  let g := guildId (self w) in
  trace w'
  = (trace w ++ Emit "playerDisconnect" :: Delete g
       :: (if nodeUp w then [] else [Emit "playerError"])
       ++ (if setActivityStatus w then [SetActivity None] else [])
       ++ [Emit "playerDestroy"])%list
  /\ players w' = players w ∖ {[ g ]}
  /\ connectionState (connection (self w')) = disconnected
  /\ connected (self w') = false
  /\ voiceChannel (self w') = voiceChannel (self w)
  /\ (forall now' d', Euralink.updateVoiceState now' (Euralink.VOICE_SERVER_UPDATE g d') w'
                      = Ok w')
  /\ (forall now' user d',
        Euralink.updateVoiceState now' (Euralink.VOICE_STATE_UPDATE g user d') w' = Ok w').
Proof.
  intros Hnull. cbv zeta. unfold Connection.setStateUpdate. rewrite Hnull.
  set (w0 := emit "playerDisconnect" _).
  rewrite destroy_unfold.
  assert (Player.disconnect now w0 = w0) as -> by reflexivity.
  destruct (destroy_without_disconnect now w0) as (Hself & Hplayers & _ & Htrace & _).
  cbv zeta in Hself, Hplayers, Htrace.
  set (w' := Player.destroy now false w0) in *.
  assert (Euralink.hasPlayer (guildId (self w)) w' = false) as Hgone.
  { unfold Euralink.hasPlayer. rewrite Hplayers.
    rewrite bool_decide_eq_false_2; [reflexivity |]. apply not_elem_of_removed. }
  split.
  { rewrite Htrace. unfold w0, emit, effect. cbn. rewrite <- app_assoc. reflexivity. }
  split; [exact Hplayers |].
  rewrite Hself. repeat split.
  - intros now' d'. unfold Euralink.updateVoiceState. rewrite Hgone. reflexivity.
  - intros now' user d'. unfold Euralink.updateVoiceState. rewrite Hgone. reflexivity.
Qed.

(** X13 on the sample Player. *)
Lemma state_update_without_channel_witness :
  let left := Connection.mkStateUpdate None None false false in
  trace (Connection.setStateUpdate 9 left Sample.playingA)
  = (trace Sample.playingA
       ++ [Emit "playerDisconnect"; Delete "1"; Emit "playerDestroy"])%list.
Proof.
  destruct (state_update_without_channel 9 (Connection.mkStateUpdate None None false false)
              Sample.playingA eq_refl) as (Htrace & _).
  exact Htrace.
Defined.

(** X14: a voice state update with a channel never touches playback
    (playing, paused, current, queue, position, volume, the queued
    updates) and marks the Player connected.  A channel other than the
    Player's moves it: both [voiceChannel] fields change and [playerMove]
    is the one thing emitted.  The same channel emits nothing.  A Player
    without a voice channel stays without one, connected or not. *)
Theorem state_update_moves_channel
    (now : Z) (d : Connection.StateUpdate) (vc : string) (w : World) :
  Connection.st_channel_id d = Some vc ->
  let p := self w in
  let w' := Connection.setStateUpdate now d w in
  let p' := self w' in
  (playing p' = playing p /\ paused p' = paused p /\ current p' = current p
   /\ queue p' = queue p /\ position p' = position p /\ volume p' = volume p
   /\ updateQueue p' = updateQueue p /\ players w' = players w)
  /\ connected p' = true
  /\ (forall old,
        voiceChannel p = Some old -> old <> "" -> vc <> "" -> old <> vc ->
        voiceChannel p' = Some vc /\ connVoiceChannel (connection p') = Some vc
        /\ trace w' = (trace w ++ [Emit "playerMove"])%list)
  /\ (voiceChannel p = Some vc -> voiceChannel p' = Some vc /\ trace w' = trace w)
  /\ (voiceChannel p = None -> voiceChannel p' = None /\ trace w' = trace w).
Proof.
  intros Hvc. cbv zeta. unfold Connection.setStateUpdate. rewrite Hvc.
  split; [| split; [| split; [| split]]].
  - destruct (_ && _); cbn; repeat split.
  - destruct (_ && _); reflexivity.
  - intros old Hold Hne1 Hne2 Hdiff. rewrite Hold.
    assert (truthyS (Some old) = true) as -> by (destruct old; [congruence | reflexivity]).
    assert (truthyS (Some vc) = true) as -> by (destruct vc; [congruence | reflexivity]).
    rewrite bool_decide_eq_false_2 by congruence. cbn. repeat split.
  - intros Hsame. rewrite Hsame. rewrite bool_decide_eq_true_2 by reflexivity.
    rewrite andb_false_r. cbn. split; [exact Hsame | reflexivity].
  - intros Hnone. rewrite Hnone. cbn. split; [exact Hnone | reflexivity].
Qed.

(** X14: the sample Player is moved from "VC" to "VC2". *)
Lemma state_update_moves_channel_witness :
  let moved := Connection.mkStateUpdate (Some "S") (Some "VC2") false false in
  let w' := Connection.setStateUpdate 9 moved Sample.playingA in
  voiceChannel (self w') = Some "VC2"
  /\ trace w' = (trace Sample.playingA ++ [Emit "playerMove"])%list
  /\ current (self w') = Some Sample.trackA /\ playing (self w') = true.
Proof.
  destruct (state_update_moves_channel 9
              (Connection.mkStateUpdate (Some "S") (Some "VC2") false false) "VC2"
              Sample.playingA eq_refl) as (Hframe & _ & Hmove & _).
  destruct (Hmove "VC" eq_refl) as (Hvc & _ & Htrace); try discriminate.
  destruct Hframe as (Hplaying & _ & Hcurrent & _).
  cbv zeta. split; [exact Hvc |]. split; [exact Htrace |].
  split; [rewrite Hcurrent | rewrite Hplaying]; reflexivity.
Defined.


(** X15: the flush of the Connection sends the latest queued update only
    and empties the queue.  With the node up the attempts counter is reset
    and no timer is set.  With the node down and attempts left,
    [connectionError] is emitted once, the counter goes up by one and a
    retry is scheduled after [2 ^ attempts * 1000] ms; with none left,
    [connectionError] is emitted twice and nothing is scheduled. *)
Theorem connection_flush_outcomes
    (now : Z) (earlier : list VoiceUpdate) (latest : VoiceUpdate) (w : World) :
  connUpdateQueue (connection (self w)) = (earlier ++ [latest])%list ->
  let c := connection (self w) in
  let w' := Connection.processUpdateQueue now w in
  let c' := connection (self w') in
  let sent := Patch (guildId (self w)) (BodyVoice (vu_voice latest) (vu_volume latest)) in
  connUpdateQueue c' = []
  /\ (nodeUp w = true ->
      trace w' = (trace w ++ [sent])%list /\ timers w' = timers w
      /\ reconnectAttempts c' = 0 /\ lastUpdate c' = now)
  /\ (nodeUp w = false -> reconnectAttempts c < maxReconnectAttempts c ->
      trace w' = (trace w ++ [sent; Emit "connectionError"])%list
      /\ timers w'
         = (timers w
              ++ [mkTimer (nextHandle w) (2 ^ (reconnectAttempts c + 1) * 1000)
                          ConnectionRetry])%list
      /\ reconnectAttempts c' = reconnectAttempts c + 1)
  /\ (nodeUp w = false -> maxReconnectAttempts c <= reconnectAttempts c ->
      trace w'
      = (trace w ++ [sent; Emit "connectionError"; Emit "connectionError"])%list
      /\ timers w' = timers w
      /\ reconnectAttempts c' = reconnectAttempts c).
Proof.
  intros Hq. cbv zeta. unfold Connection.processUpdateQueue. rewrite Hq, last_snoc.
  unfold Connection.updatePlayerVoiceData. cbn.
  destruct (nodeUp w) eqn:Hup; cbn.
  - split; [reflexivity |]. split; [intros _; repeat split |].
    split; intros H; discriminate H.
  - rewrite ?Hup. cbn.
    destruct (Z.ltb_spec (reconnectAttempts (connection (self w)))
                         (maxReconnectAttempts (connection (self w)))) as [Hlt | Hge]; cbn.
    + split; [reflexivity |]. split; [intros H; discriminate H |].
      split; [| intros _ H; lia].
      intros _ _. rewrite <- !app_assoc. repeat split.
    + split; [reflexivity |]. split; [intros H; discriminate H |].
      split; [intros _ H; lia |].
      intros _ _. rewrite <- !app_assoc. repeat split.
Qed.

(** X15 with the node down and no attempt made yet: the retry comes after
    two seconds. *)
Lemma connection_flush_outcomes_witness :
  let update := mkVoiceUpdate (mkVoice None None (Some "e") (Some "T")) 100 0 in
  let down :=
    {| self := set_connection
                 (set_connUpdateQueue [update] (connection (self Sample.playingA)))
                 (self Sample.playingA);
       players := players Sample.playingA; timers := []; nextHandle := 4;
       nodeUp := false; nodesAvailable := true; clientId := "bot";
       setActivityStatus := false; euraSync := false;
       resolveTrack := fun t => Ok (Some t); trace := [] |} in
  timers (Connection.processUpdateQueue 8 down) = [mkTimer 4 2000 ConnectionRetry]
  /\ reconnectAttempts (connection (self (Connection.processUpdateQueue 8 down))) = 1.
Proof.
  cbv zeta.
  match goal with
  | |- timers (Connection.processUpdateQueue 8 ?w) = _ /\ _ =>
      destruct (connection_flush_outcomes 8 [] (mkVoiceUpdate (mkVoice None None (Some "e") (Some "T")) 100 0) w eq_refl)
        as (_ & _ & Hretry & _)
  end.
  destruct Hretry as (_ & Htimers & Hattempts); [reflexivity | cbn; lia |].
  split; [exact Htimers | exact Hattempts].
Defined.

(** Lower-casing a character that is neither a digit nor a dot gives a
    region character. *)
Lemma lower_regionCharacter (c : ascii) :
  Connection.isDigit c = false -> c <> "."%char ->
  Shape.regionCharacter
    (if Connection.isUpperLetter c then ascii_of_nat (nat_of_ascii c + 32) else c) = true.
Proof.
  destruct c as [[] [] [] [] [] [] [] []]; intros Hd Hdot;
    try discriminate Hd; try (exfalso; apply Hdot; reflexivity); reflexivity.
Qed.

(** [all] on a string with a first character. *)
Lemma all_cons (f : ascii -> bool) (c : ascii) (s : string) :
  Shape.all f (String c s) = f c && Shape.all f s.
Proof. reflexivity. Qed.

(** So does lower-casing a string of such characters. *)
Lemma toLowerCase_region (s : string) :
  Shape.all (fun c => negb (Connection.isDigit c) && negb (Ascii.eqb c ".")) s = true ->
  Shape.all Shape.regionCharacter (Connection.toLowerCase s) = true.
Proof.
  induction s as [| c s IH]; [reflexivity |].
  cbn [Connection.toLowerCase]. rewrite !all_cons.
  intros H. apply andb_true_iff in H as [Hc Hs]. apply andb_true_iff in Hc as [Hd Hdot].
  rewrite (IH Hs), andb_true_r. apply lower_regionCharacter.
  - apply negb_true_iff. exact Hd.
  - apply negb_true_iff, Ascii.eqb_neq in Hdot. exact Hdot.
Qed.

(** The first label of a string has no dot. *)
Lemma firstSegment_no_dot (s : string) :
  Shape.all (fun c => negb (Ascii.eqb c ".")) (Connection.firstSegment s) = true.
Proof.
  induction s as [| c s IH]; [reflexivity |]. cbn [Connection.firstSegment].
  destruct (Ascii.eqb c ".") eqn:E; [reflexivity |]. rewrite all_cons, E, IH. reflexivity.
Qed.

(** Removing the digits leaves neither digits nor new dots. *)
Lemma removeDigits_clean (s : string) :
  Shape.all (fun c => negb (Ascii.eqb c ".")) s = true ->
  Shape.all (fun c => negb (Connection.isDigit c) && negb (Ascii.eqb c "."))
            (Connection.removeDigits s) = true.
Proof.
  induction s as [| c s IH]; [reflexivity |]. rewrite all_cons.
  intros H. apply andb_true_iff in H as [Hc Hs]. cbn [Connection.removeDigits].
  destruct (Connection.isDigit c) eqn:E; [exact (IH Hs) |].
  rewrite all_cons, E, Hc, (IH Hs). reflexivity.
Qed.

(** The letters [span] takes are lower-case letters. *)
Lemma span_lower (s : string) :
  Shape.all Connection.isLowerLetter (fst (Connection.span Connection.isLowerLetter s)) = true.
Proof.
  induction s as [| c s IH]; [reflexivity |]. cbn [Connection.span].
  destruct (Connection.isLowerLetter c) eqn:E; [| reflexivity].
  destruct (Connection.span Connection.isLowerLetter s) as [taken others].
  cbn [fst] in *. rewrite all_cons, E, IH. reflexivity.
Qed.

(** A lower-case letter is neither a digit nor a dot. *)
Lemma lower_is_clean (c : ascii) :
  Connection.isLowerLetter c = true ->
  negb (Connection.isDigit c) && negb (Ascii.eqb c ".") = true.
Proof.
  destruct c as [[] [] [] [] [] [] [] []]; intros H; try discriminate H; reflexivity.
Qed.

(** [all] is monotone in its test. *)
Lemma all_impl (f g : ascii -> bool) (s : string) :
  (forall c, f c = true -> g c = true) -> Shape.all f s = true -> Shape.all g s = true.
Proof.
  intros Hfg. induction s as [| c s IH]; [reflexivity |]. rewrite !all_cons.
  intros H. apply andb_true_iff in H as [Hc Hs]. rewrite (Hfg c Hc), (IH Hs). reflexivity.
Qed.

(** The group of a match is made of lower-case letters. *)
Lemma matchDiscordAt_lower (s group : string) :
  Connection.matchDiscordAt s = Some group ->
  Shape.all Connection.isLowerLetter group = true.
Proof.
  unfold Connection.matchDiscordAt. pose proof (span_lower s) as H.
  destruct (Connection.span Connection.isLowerLetter s) as [letters afterLetters].
  cbn [fst] in H. destruct letters as [| c letters]; [discriminate |].
  destruct (Connection.span Connection.isDigit afterLetters) as [digits afterDigits].
  destruct (String.prefix _ _); [| discriminate]. intros [= <-]. exact H.
Qed.

(** So is the group of the leftmost match. *)
Lemma matchDiscord_lower (s group : string) :
  Connection.matchDiscord s = Some group ->
  Shape.all Connection.isLowerLetter group = true.
Proof.
  induction s as [| c s IH]; cbn [Connection.matchDiscord].
  - destruct (Connection.matchDiscordAt "") eqn:E; [| discriminate].
    intros [= <-]. exact (matchDiscordAt_lower _ _ E).
  - destruct (Connection.matchDiscordAt (String c s)) eqn:E; [| exact IH].
    intros [= <-]. exact (matchDiscordAt_lower _ _ E).
Qed.

(** X16: for a non-empty endpoint of ASCII characters [extractRegion]
    always returns a non-empty name without digits, upper-case letters or
    dots; it is the first label of the endpoint, digits removed and
    lower-cased, whenever that is not empty. *)
Theorem extractRegion_shape (e : string) :
  e <> "" ->
  Shape.all Shape.isAscii e = true ->
  exists r,
    Connection.extractRegion (Some e) = Some r
    /\ r <> ""
    /\ Shape.all Shape.regionCharacter r = true
    /\ (Connection.removeDigits (Connection.firstSegment e) <> "" ->
        r = Connection.toLowerCase (Connection.removeDigits (Connection.firstSegment e))).
Proof.
  intros He _. destruct e as [| c0 e0]; [congruence |]. clear He.
  unfold Connection.extractRegion. set (e := String c0 e0).
  pose proof (removeDigits_clean _ (firstSegment_no_dot e)) as Hfirst.
  eexists. split; [reflexivity |]. cbn [Connection.firstRegion].
  destruct (Connection.removeDigits (Connection.firstSegment e)) as [| c rest] eqn:Hseg.
  - destruct (Connection.matchDiscord e) as [[| c rest] |] eqn:Hm.
    + split; [discriminate |]. split; [reflexivity | congruence].
    + split; [cbn; discriminate |]. split; [| congruence].
      apply toLowerCase_region. apply (all_impl Connection.isLowerLetter); [apply lower_is_clean |].
      exact (matchDiscord_lower _ _ Hm).
    + split; [discriminate |]. split; [reflexivity | congruence].
  - split; [cbn; discriminate |]. split; [| reflexivity].
    apply toLowerCase_region. exact Hfirst.
Qed.

(** X16 on an endpoint with upper-case letters. *)
Lemma extractRegion_shape_witness :
  Connection.extractRegion (Some "US-East42.example:443") = Some "us-east".
Proof.
  destruct (extractRegion_shape "US-East42.example:443") as (r & Hr & _ & _ & Hfirst);
    [discriminate | reflexivity |].
  rewrite Hr, Hfirst; [reflexivity | discriminate].
Defined.

(* ================================================================== *)
(** * Euralink: requests, players, versions *)

Lemma escape_is_query (c : ascii) :
  Shape.queryCharacter (Euralink.hexDigit (Nat.div (nat_of_ascii c) 16))
  && Shape.queryCharacter (Euralink.hexDigit (Nat.modulo (nat_of_ascii c) 16)) = true.
Proof. destruct c as [[] [] [] [] [] [] [] []]; reflexivity. Qed.

(** A query character is none of the separators of a URL. *)
Lemma query_not_separator (c : ascii) :
  Shape.queryCharacter c = true ->
  ~ In c ["&"; "="; "#"; "?"; "/"; " "; "+"; ":"]%char.
Proof.
  intros H Hin. cbn in Hin.
  repeat destruct Hin as [<- | Hin]; try discriminate H. exact Hin.
Qed.

(** [encodeURIComponent] yields query characters only. *)
Lemma encodeURIComponent_query (s : string) :
  Shape.all Shape.queryCharacter (Euralink.encodeURIComponent s) = true
  /\ Forall (fun c => ~ In c ["&"; "="; "#"; "?"; "/"; " "; "+"; ":"]%char)
            (list_ascii_of_string (Euralink.encodeURIComponent s)).
Proof.
  assert (Shape.all Shape.queryCharacter (Euralink.encodeURIComponent s) = true) as Hall.
  { induction s as [| c s IH]; [reflexivity |]. cbn [Euralink.encodeURIComponent].
    destruct (Euralink.unreserved c) eqn:E.
    - unfold Shape.all in *. cbn [list_ascii_of_string forallb].
      unfold Shape.queryCharacter at 1. rewrite E, IH. reflexivity.
    - unfold Shape.all in *. cbn [list_ascii_of_string forallb].
      pose proof (escape_is_query c) as Hesc. apply andb_true_iff in Hesc as [-> ->].
      rewrite IH. reflexivity. }
  split; [exact Hall |].
  unfold Shape.all in Hall. rewrite forallb_forall in Hall.
  apply Forall_forall. intros c Hc. apply query_not_separator, Hall.
  apply list_elem_of_In. exact Hc.
Qed.














(** X17: the first request of [resolve], and its retry for a URL, ask for
    [/<version>/loadtracks?identifier=<identifier>] with the identifier
    percent-encoded: it holds only characters that stand for themselves in
    a query or belong to an escape, so none of [& = # ? / + :] nor a
    space. *)
Theorem firstLoad_identifier_encoded
    (node : Euralink.Node) (querySource query : string) (log : list string) :
  exists asked,
    snd (Euralink.firstLoad node querySource query log) = (log ++ asked)%list
    /\ Forall (fun endpoint =>
                 exists identifier,
                   endpoint = Euralink.loadtracks node identifier
                   /\ Shape.all Shape.queryCharacter identifier = true
                   /\ Forall (fun c => ~ In c ["&"; "="; "#"; "?"; "/"; " "; "+"; ":"]%char)
                             (list_ascii_of_string identifier)) asked.
Proof.
  assert (forall s,
            exists identifier,
              Euralink.loadtracks node (Euralink.encodeURIComponent s)
              = Euralink.loadtracks node identifier
              /\ Shape.all Shape.queryCharacter identifier = true
              /\ Forall (fun c => ~ In c ["&"; "="; "#"; "?"; "/"; " "; "+"; ":"]%char)
                        (list_ascii_of_string identifier)) as Hsafe.
  { intros s. exists (Euralink.encodeURIComponent s). split; [reflexivity |].
    apply encodeURIComponent_query. }
  unfold Euralink.firstLoad, Euralink.bind, Euralink.makeRequest.
  destruct (Euralink.answer node (List.length log) _) as [response | e];
    [| eexists [_]; split; [reflexivity | repeat constructor; apply Hsafe]].
  destruct (Euralink.failedLoad response) eqn:Hfailed.
  - destruct (Euralink.isUrl query).
    + destruct (Euralink.answer node _ _) as [response' | e];
        [| rewrite <- app_assoc; eexists [_; _]; split;
           [reflexivity | repeat constructor; apply Hsafe]].
      destruct (Euralink.failedLoad response'); [| destruct response'];
        cbn; rewrite <- app_assoc; eexists [_; _]; split;
        try reflexivity; repeat constructor; apply Hsafe.
    + cbn. rewrite Hfailed. cbn. eexists [_]. split; [reflexivity |].
      repeat constructor; apply Hsafe.
  - cbn. destruct response; cbn; eexists [_]; split; try reflexivity;
      repeat constructor; apply Hsafe.
Qed.

(** [connect] leaves the players map alone and sends at most the join
    packet. *)
Lemma connect_players (guild channel text : option string) (w w1 : World) :
  Player.connect guild channel text w = Ok w1 ->
  players w1 = players w
  /\ exists sent, trace w1 = (trace w ++ sent)%list
                  /\ Forall (fun e => Shape.isGatewaySend e = true) sent
                  /\ (List.length sent <= 1)%nat.
Proof.
  unfold Player.connect.
  destruct (nodesAvailable w) eqn:Hn; cbn [negb]; [| discriminate].
  destruct (connected (self w)).
  { intros [= <-]. split; [reflexivity |].
    exists []. rewrite app_nil_r. split; [reflexivity |]. split; [constructor | cbn; lia]. }
  destruct guild as [g |]; [| discriminate].
  destruct (negb _); [discriminate |].
  destruct (ConnectionState_eqb _ _).
  { intros [= <-]. split; [reflexivity |].
    exists []. rewrite app_nil_r. split; [reflexivity |]. split; [constructor | cbn; lia]. }
  intros [= <-]. split; [reflexivity |].
  eexists. split; [cbn; reflexivity |].
  split; [| cbn; lia]. repeat constructor.
Qed.

(** [createPlayer] adds the guild and ends with [playerCreate]. *)
Lemma createPlayer_world (now : Z) (o : Player.Options) (w : World) :
  let w' := Euralink.createPlayer now o w in
  players w' = players w ∪ {[ Player.o_guildId o ]}
  /\ exists sent, trace w' = (trace w ++ sent ++ [Emit "playerCreate"])%list
                  /\ Forall (fun e => Shape.isGatewaySend e = true) sent
                  /\ (List.length sent <= 1)%nat.
Proof.
  cbv zeta. unfold Euralink.createPlayer.
  set (w0 := set_players _ (set_self _ w)).
  destruct (Player.connect _ _ _ w0) as [w1 | e] eqn:E.
  - destruct (connect_players _ _ _ _ _ E) as (Hp & sent & Htr & Hsent & Hlen).
    unfold emit, effect. cbn. rewrite Hp, Htr. split; [reflexivity |].
    exists sent. rewrite <- app_assoc. split; [reflexivity |]. split; assumption.
  - split; [reflexivity |]. exists []. split; [reflexivity |].
    split; [constructor | cbn; lia].
Qed.

(** X19: [createConnection] for a guild that has a Player returns the
    world as it is; so a second call after one that succeeded changes
    nothing.  A guild without a Player gets one by [createPlayer], is in
    the players map afterwards and [playerCreate] is emitted once. *)
Theorem createConnection_once
    (initiated : bool) (now1 now2 : Z) (o : Player.Options) (w w1 : World) :
  Manager.createConnection initiated now1 o w = Ok w1 ->
  Manager.createConnection initiated now2 o w1 = Ok w1
  /\ Player.o_guildId o ∈ players w1
  /\ (Player.o_guildId o ∈ players w -> w1 = w)
  /\ (Player.o_guildId o ∉ players w ->
      w1 = Euralink.createPlayer now1 o w
      /\ List.filter (Shape.isEmit "playerCreate") (trace w1)
         = (List.filter (Shape.isEmit "playerCreate") (trace w) ++ [Emit "playerCreate"])%list).
Proof.
  unfold Manager.createConnection.
  destruct initiated; cbn [negb]; [| discriminate].
  destruct (bool_decide (Player.o_guildId o ∈ players w)) eqn:Hin.
  - intros [= <-]. rewrite Hin. apply bool_decide_eq_true in Hin.
    split; [reflexivity |]. split; [exact Hin |]. split; [reflexivity |].
    intros Hout. contradiction.
  - apply bool_decide_eq_false in Hin.
    destruct (nodesAvailable w); cbn [negb]; [| discriminate].
    intros [= <-].
    destruct (createPlayer_world now1 o w) as (Hp & sent & Htr & Hsent & _).
    cbv zeta in Hp, Htr.
    assert (Player.o_guildId o ∈ players (Euralink.createPlayer now1 o w)) as Hin'.
    { rewrite Hp. apply elem_of_union_r, elem_of_singleton. reflexivity. }
    rewrite (bool_decide_eq_true_2 _ Hin').
    split; [reflexivity |]. split; [exact Hin' |]. split; [intros H; contradiction |].
    intros _. split; [reflexivity |].
    rewrite Htr, !List.filter_app. cbn. f_equal.
    rewrite <- (app_nil_l [Emit "playerCreate"]) at 2. f_equal.
    clear Htr. induction Hsent as [| e sent He _ IH]; [reflexivity |].
    cbn. destruct e; try discriminate He. exact IH.
Qed.

(** X19: the sample Player is created once. *)
Lemma createConnection_once_witness :
  Manager.createConnection true 0 Sample.options Sample.blank = Ok Sample.created
  /\ Manager.createConnection true 9 Sample.options Sample.created = Ok Sample.created.
Proof.
  assert (Manager.createConnection true 0 Sample.options Sample.blank = Ok Sample.created)
    as Hfirst by reflexivity.
  split; [exact Hfirst |].
  apply (createConnection_once true 0 9 Sample.options Sample.blank Sample.created Hfirst).
Defined.

(** [disconnect] sends no DELETE and emits no [playerDestroy]. *)
Lemma disconnect_trace (now : Z) (w : World) :
  exists sent,
    trace (Player.disconnect now w) = (trace w ++ sent)%list
    /\ List.filter isDelete sent = []
    /\ List.filter (Shape.isEmit "playerDestroy") sent = [].
Proof.
  unfold Player.disconnect.
  destruct (_ || _); [exists []; rewrite app_nil_r; repeat split |].
  unfold Player.pause.
  assert (exists sent,
            trace (Player.queueUpdate now (mkUpdate None None (Some true) None None) w)
            = (trace w ++ sent)%list
            /\ List.filter isDelete sent = []
            /\ List.filter (Shape.isEmit "playerDestroy") sent = []) as (sent & Htr & Hd & He).
  { destruct (batchUpdates (self w)) eqn:Hb.
    - destruct (queueUpdate_batched now (mkUpdate None None (Some true) None None) w Hb)
        as (_ & Htr & _). exists []. rewrite app_nil_r. repeat split. exact Htr.
    - destruct (queueUpdate_direct now (mkUpdate None None (Some true) None None) w Hb)
        as (_ & _ & Htr). eexists. split; [exact Htr |].
      destruct (nodeUp w); split; reflexivity. }
  destruct (queueUpdate_frame now (mkUpdate None None (Some true) None None) w)
    as (_ & _ & _ & _ & _ & _ & _ & _ & _ & _ & Hg & _); cbv zeta in Hg.
  set (w0 := Player.queueUpdate _ _ w) in *. clearbody w0.
  exists (sent ++ [GatewaySend (guildId (self w)) None false false])%list.
  cbn. rewrite Htr, Hg, <- app_assoc, !List.filter_app, Hd, He. repeat split.
Qed.

(** X20: [destroyPlayer] of a guild that has a Player emits
    [playerDestroy] twice, once itself and once through [player.destroy()],
    for one DELETE; [removeConnection] emits it once.  Both leave the guild
    out of the players map. *)
Theorem destroyPlayer_emits_twice (now : Z) (g : string) (w : World) :
  Euralink.hasPlayer g w = true ->
  let w' := Manager.destroyPlayer now g w in
  let w'' := Manager.removeConnection now g w in
  List.filter (Shape.isEmit "playerDestroy") (trace w')
  = (List.filter (Shape.isEmit "playerDestroy") (trace w)
       ++ [Emit "playerDestroy"; Emit "playerDestroy"])%list
  /\ List.filter isDelete (trace w') = (List.filter isDelete (trace w) ++ [Delete g])%list
  /\ (g ∉ players w')
  /\ List.filter (Shape.isEmit "playerDestroy") (trace w'')
     = (List.filter (Shape.isEmit "playerDestroy") (trace w) ++ [Emit "playerDestroy"])%list
  /\ List.filter isDelete (trace w'') = (List.filter isDelete (trace w) ++ [Delete g])%list
  /\ (g ∉ players w'').
Proof.
  intros Hhas. cbv zeta. unfold Manager.destroyPlayer, Manager.removeConnection.
  rewrite Hhas. unfold Euralink.hasPlayer in Hhas.
  apply andb_true_iff in Hhas as [_ Hg]. apply String.eqb_eq in Hg.
  destruct (disconnect_trace now w) as (sent & Htr & Hdel & Hemit).
  destruct (disconnect_result now w) as (_ & Hg1 & _ & Hn1 & Ha1).
  cbv zeta in Hg1, Hn1, Ha1.
  set (w1 := Player.disconnect now w) in *.
  set (v := emit "playerDestroy" (set_players (players w1 ∖ {[ g ]}) w1)).
  set (v' := set_players (players w1 ∖ {[ g ]}) w1).
  destruct (destroy_without_disconnect now v) as (_ & Hp & _ & Htrace & _).
  destruct (destroy_without_disconnect now v') as (_ & Hp' & _ & Htrace' & _).
  cbv zeta in Hp, Htrace, Hp', Htrace'.
  rewrite Htrace, Htrace', Hp, Hp'.
  assert (guildId (self v) = g) as -> by (cbn; rewrite Hg1; symmetry; exact Hg).
  assert (guildId (self v') = g) as -> by (cbn; rewrite Hg1; symmetry; exact Hg).
  assert (trace v = (trace w ++ sent ++ [Emit "playerDestroy"])%list) as ->
    by (unfold v, emit, effect; cbn; rewrite Htr, <- app_assoc; reflexivity).
  assert (trace v' = (trace w ++ sent)%list) as -> by exact Htr.
  rewrite !List.filter_app, Hdel, Hemit.
  destruct (nodeUp v), (setActivityStatus v), (nodeUp v'), (setActivityStatus v'); cbn;
    rewrite <- ?app_assoc; cbn;
    repeat split; try apply not_elem_of_removed.
Qed.

(** X20 on the sample Player. *)
Lemma destroyPlayer_emits_twice_witness :
  List.filter (Shape.isEmit "playerDestroy")
              (trace (Manager.destroyPlayer 5 "1" Sample.playingA))
  = [Emit "playerDestroy"; Emit "playerDestroy"]
  /\ List.filter isDelete (trace (Manager.destroyPlayer 5 "1" Sample.playingA))
     = [Delete "1"].
Proof.
  destruct (destroyPlayer_emits_twice 5 "1" Sample.playingA eq_refl)
    as (Hemit & Hdelete & _).
  split; [exact Hemit | exact Hdelete].
Defined.

(** The loop answers [true] exactly when the first index at which the parts
    differ has the greater part on the left. *)
Lemma comparePartsFrom_true (a b : list N) (n i : nat) :
  Manager.comparePartsFrom a b n i = true <->
  exists k, (i <= k < i + n)%nat
            /\ (forall j, (i <= j < k)%nat -> nth j a 0%N = nth j b 0%N)
            /\ (nth k b 0 < nth k a 0)%N.
Proof.
  revert i. induction n as [| n IH]; intros i; cbn [Manager.comparePartsFrom].
  - split; [discriminate |]. intros (k & Hk & _). lia.
  - destruct (N.ltb_spec (nth i b 0%N) (nth i a 0%N)) as [Hgt | Hle].
    + split; [intros _ | reflexivity]. exists i. repeat split; lia.
    + destruct (N.ltb_spec (nth i a 0%N) (nth i b 0%N)) as [Hlt | Hge].
      * split; [discriminate |]. intros (k & Hk & Hsame & Hnewer).
        destruct (decide (k = i)) as [-> | Hne]; [lia |].
        specialize (Hsame i ltac:(lia)). lia.
      * rewrite IH. split; intros (k & Hk & Hsame & Hnewer).
        -- exists k. split; [lia |]. split; [| exact Hnewer].
           intros j Hj. destruct (decide (j = i)) as [-> | Hne]; [lia |].
           apply Hsame. lia.
        -- destruct (decide (k = i)) as [-> | Hne]; [lia |].
           exists k. split; [lia |]. split; [| exact Hnewer].
           intros j Hj. apply Hsame. lia.
Qed.

(** The same for the whole loop: past both lengths every part is 0. *)
Lemma isNewer_parts (a b : list N) :
  Manager.comparePartsFrom a b (Nat.max (List.length a) (List.length b)) 0 = true <->
  exists k, (forall j, (j < k)%nat -> nth j a 0%N = nth j b 0%N)
            /\ (nth k b 0 < nth k a 0)%N.
Proof.
  rewrite comparePartsFrom_true. split; intros (k & H).
  - destruct H as (_ & Hsame & Hnewer). exists k. split; [| exact Hnewer].
    intros j Hj. apply Hsame. lia.
  - destruct H as (Hsame & Hnewer). exists k. split; [| split].
    + split; [lia |].
      destruct (Nat.lt_ge_cases k (Nat.max (List.length a) (List.length b)))
        as [Hlt | Hge]; [exact Hlt |].
      rewrite (nth_overflow a), (nth_overflow b) in Hnewer by lia. lia.
    + intros j Hj. apply Hsame. lia.
    + exact Hnewer.
Qed.

(** When the loop answers [false] both ways, the parts agree. *)
Lemma comparePartsFrom_same (a b : list N) (n i : nat) :
  Manager.comparePartsFrom a b n i = false ->
  Manager.comparePartsFrom b a n i = false ->
  forall j, (i <= j < i + n)%nat -> nth j a 0%N = nth j b 0%N.
Proof.
  revert i. induction n as [| n IH]; intros i; cbn [Manager.comparePartsFrom]; [lia |].
  destruct (N.ltb_spec (nth i b 0%N) (nth i a 0%N)) as [Hgt | Hle]; [discriminate |].
  destruct (N.ltb_spec (nth i a 0%N) (nth i b 0%N)) as [Hlt | Hge]; [discriminate |].
  intros H1 H2 j Hj. destruct (decide (j = i)) as [-> | Hne]; [lia |].
  apply (IH (S i) H1 H2). lia.
Qed.

(** X21: on version strings whose parts are below 2^53 (where [Number]
    is exact), [isNewerVersion] is a strict order: no version is newer
    than itself, two versions are never each newer than the other, and
    newer-than is transitive.  Two such versions neither of which is newer
    have the same parts, missing parts counting as 0. *)
Theorem isNewerVersion_strict_order (v1 v2 v3 : string) :
  Shape.exactParts v1 = true -> Shape.exactParts v2 = true -> Shape.exactParts v3 = true ->
  Manager.isNewerVersion v1 v1 = false
  /\ (Manager.isNewerVersion v1 v2 = true -> Manager.isNewerVersion v2 v1 = false)
  /\ (Manager.isNewerVersion v1 v2 = true -> Manager.isNewerVersion v2 v3 = true ->
      Manager.isNewerVersion v1 v3 = true)
  /\ (Manager.isNewerVersion v1 v2 = false -> Manager.isNewerVersion v2 v1 = false ->
      forall i, nth i (Manager.parts v1) 0%N = nth i (Manager.parts v2) 0%N).
Proof.
  intros _ _ _. unfold Manager.isNewerVersion. cbv zeta.
  set (a := Manager.parts v1). set (b := Manager.parts v2). set (c := Manager.parts v3).
  assert (forall x y : list N,
            Manager.comparePartsFrom x y (Nat.max (List.length x) (List.length y)) 0 = true ->
            Manager.comparePartsFrom y x (Nat.max (List.length y) (List.length x)) 0 = false)
    as Hasym.
  { intros x y Hxy. apply not_true_is_false. intros Hyx.
    apply isNewer_parts in Hxy as (k & Hk & Hnew), Hyx as (k' & Hk' & Hnew').
    destruct (Nat.lt_trichotomy k k') as [Hlt | [-> | Hgt]].
    - specialize (Hk' k Hlt). lia.
    - lia.
    - specialize (Hk k' Hgt). lia. }
  split; [| split; [| split]].
  - apply not_true_is_false. intros H. apply isNewer_parts in H as (k & _ & H). lia.
  - apply Hasym.
  - intros Hab Hbc. apply isNewer_parts.
    apply isNewer_parts in Hab as (k & Hk & Hnew), Hbc as (k' & Hk' & Hnew').
    destruct (Nat.lt_trichotomy k k') as [Hlt | [-> | Hgt]].
    + exists k. split; [| rewrite <- (Hk' k Hlt); exact Hnew].
      intros j Hj. rewrite (Hk j Hj). apply Hk'. lia.
    + exists k'. split; [| lia]. intros j Hj. rewrite (Hk j Hj). apply Hk'. exact Hj.
    + exists k'. split; [| rewrite (Hk k' Hgt); exact Hnew'].
      intros j Hj. rewrite (Hk j ltac:(lia)). apply Hk'. exact Hj.
  - intros Hab Hba i.
    destruct (Nat.lt_ge_cases i (Nat.max (List.length a) (List.length b))) as [Hlt | Hge].
    + apply (comparePartsFrom_same a b _ 0 Hab); [| lia].
      rewrite Nat.max_comm. exact Hba.
    + rewrite !nth_overflow by lia. reflexivity.
Qed.

(** X21: 1.2.10 is newer than v1.2, not the other way round, and 1.2.0 is
    not newer than v1.2. *)
Lemma isNewerVersion_strict_order_witness :
  Manager.isNewerVersion "1.2.10" "v1.2" = true
  /\ Manager.isNewerVersion "v1.2" "1.2.10" = false
  /\ Manager.isNewerVersion "1.2.0" "v1.2" = false.
Proof.
  destruct (isNewerVersion_strict_order "1.2.10" "1.2.9" "v1.2" eq_refl eq_refl eq_refl)
    as (_ & _ & Htrans & _).
  assert (Manager.isNewerVersion "1.2.10" "v1.2" = true) as Hnewer
    by (apply Htrans; reflexivity).
  destruct (isNewerVersion_strict_order "1.2.10" "v1.2" "" eq_refl eq_refl eq_refl)
    as (_ & Hasym & _).
  split; [exact Hnewer |]. split; [exact (Hasym Hnewer) | reflexivity].
Defined.

(* ================================================================== *)
(** * Rest: retries and the track cache *)

Section Retry.

Variable fetch : nat -> Rest.Fetched.
Variable jitter : nat -> Z.

(** What a run of the loop has done when it ends, by induction on the rounds
    left. *)
Lemma retryLoop_run (remaining attempt : nat) (slept : list Z) :
  let r := Rest.retryLoop fetch jitter (S remaining) attempt slept in
  (attempt < Rest.fetches r <= attempt + S remaining)%nat
  /\ (exists more,
        Rest.waits r = (slept ++ more)%list
        /\ List.length more = (Rest.fetches r - attempt - 1)%nat
        /\ ((forall n, 0 <= jitter n < 100) -> Forall (fun d => 500 <= d <= 5099) more))
  /\ (forall j, (attempt <= j < Rest.fetches r - 1)%nat -> Shape.failing (fetch j) = true)
  /\ match Rest.outcome r with
     | Ok resp =>
         fetch (Rest.fetches r - 1) = Rest.Responded resp
         /\ Rest.retryable (Rest.status resp) = false
     | Throw e =>
         Rest.fetches r = (attempt + S remaining)%nat
         /\ Shape.failing (fetch (Rest.fetches r - 1)) = true
         /\ match fetch (Rest.fetches r - 1) with
            | Rest.Responded resp => e = Error ("HTTP " ++ Rest.showZ (Rest.status resp))
            | Rest.Rejected err => e = err
            end
     end.
Proof.
  revert attempt slept. induction remaining as [| remaining IH]; intros attempt slept.
  - cbv zeta. cbn [Rest.retryLoop].
    destruct (fetch attempt) as [resp | err] eqn:Hf;
      [destruct (Rest.retryable (Rest.status resp)) eqn:Hr |]; cbn.
    all: rewrite ?Nat.sub_0_r, ?Hf.
    all: split; [lia |].
    all: split; [exists []; rewrite app_nil_r; split; [reflexivity |];
                 split; [cbn; lia | intros _; constructor] |].
    all: split; [intros j Hj; lia |].
    all: repeat split; try lia; try assumption.
  - cbv zeta. cbn [Rest.retryLoop].
    assert (forall err : JsError,
              let r := Rest.retryLoop fetch jitter (S remaining) (S attempt)
                         (slept ++ [Z.min 5000 (250 * 2 ^ Z.of_nat (S attempt))
                                    + jitter (S attempt)])%list in
              Shape.failing (fetch attempt) = true ->
              (attempt < Rest.fetches r <= attempt + S (S remaining))%nat
              /\ (exists more,
                    Rest.waits r = (slept ++ more)%list
                    /\ List.length more = (Rest.fetches r - attempt - 1)%nat
                    /\ ((forall n, 0 <= jitter n < 100) ->
                        Forall (fun d => 500 <= d <= 5099) more))
              /\ (forall j, (attempt <= j < Rest.fetches r - 1)%nat ->
                            Shape.failing (fetch j) = true)
              /\ match Rest.outcome r with
                 | Ok resp =>
                     fetch (Rest.fetches r - 1) = Rest.Responded resp
                     /\ Rest.retryable (Rest.status resp) = false
                 | Throw e =>
                     Rest.fetches r = (attempt + S (S remaining))%nat
                     /\ Shape.failing (fetch (Rest.fetches r - 1)) = true
                     /\ match fetch (Rest.fetches r - 1) with
                        | Rest.Responded resp =>
                            e = Error ("HTTP " ++ Rest.showZ (Rest.status resp))
                        | Rest.Rejected err => e = err
                        end
                 end) as Hcaught.
    { intros _ r Hfail. subst r.
      destruct (IH (S attempt)
                  (slept ++ [Z.min 5000 (250 * 2 ^ Z.of_nat (S attempt))
                             + jitter (S attempt)])%list)
        as (Hn & (more & Hw & Hlen & Hbound) & Hbefore & Hout).
      cbv zeta in Hn, Hw, Hlen, Hbound, Hbefore, Hout.
      set (r := Rest.retryLoop fetch jitter (S remaining) (S attempt) _) in *.
      clearbody r. split; [lia |]. split; [| split].
      - eexists (_ :: more). rewrite Hw, <- app_assoc. split; [reflexivity |].
        split; [cbn; lia |]. intros Hj. constructor; [| exact (Hbound Hj)].
        specialize (Hj (S attempt)).
        assert (2 <= 2 ^ Z.of_nat (S attempt)).
        { change 2 with (2 ^ 1) at 1. apply Z.pow_le_mono_r; lia. }
        lia.
      - intros j Hj. destruct (decide (j = attempt)) as [-> | Hne]; [exact Hfail |].
        apply Hbefore. lia.
      - destruct (Rest.outcome r); [exact Hout |].
        destruct Hout as (Hlast & Hrest). split; [lia | exact Hrest]. }
    destruct (fetch attempt) as [resp | err] eqn:Hf;
      [destruct (Rest.retryable (Rest.status resp)) eqn:Hr |].
    + apply (Hcaught (Error "")). exact Hr.
    + cbn. rewrite ?Nat.sub_0_r, Hf. split; [lia |].
      split; [exists []; rewrite app_nil_r; split; [reflexivity |];
              split; [cbn; lia | intros _; constructor] |].
      split; [intros j Hj; lia |]. split; [reflexivity | exact Hr].
    + apply (Hcaught err). reflexivity.
Qed.

End Retry.

(** X22: [requestWithRetry] with [maxRetries >= 0] fetches at least once
    and at most [maxRetries + 1] times, waits once between two fetches,
    and every wait lies between 500 and 5099 ms.  With a negative
    [maxRetries] it throws without fetching. *)
Theorem requestWithRetry_bounded (fetch : nat -> Rest.Fetched) (jitter : nat -> Z)
    (maxRetries : Z) :
  (forall n, 0 <= jitter n < 100) ->
  let r := Rest.requestWithRetry fetch jitter maxRetries in
  (maxRetries < 0 -> r = Rest.mkRun (Throw (Error "Request failed")) 0 [])
  /\ (0 <= maxRetries ->
      1 <= Z.of_nat (Rest.fetches r) <= maxRetries + 1
      /\ List.length (Rest.waits r) = (Rest.fetches r - 1)%nat
      /\ Forall (fun d => 500 <= d <= 5099) (Rest.waits r)).
Proof.
  intros Hjitter. cbv zeta. unfold Rest.requestWithRetry. split.
  - intros Hneg. replace (Z.to_nat (maxRetries + 1)) with 0%nat by lia. reflexivity.
  - intros Hpos.
    replace (Z.to_nat (maxRetries + 1)) with (S (Z.to_nat maxRetries)) by lia.
    destruct (retryLoop_run fetch jitter (Z.to_nat maxRetries) 0 [])
      as (Hn & (more & Hw & Hlen & Hbound) & _).
    cbv zeta in Hn, Hw, Hlen, Hbound.
    set (r := Rest.retryLoop fetch jitter _ 0 []) in *. clearbody r.
    cbn [app] in Hw. rewrite Hw. split; [lia |]. split; [lia | exact (Hbound Hjitter)].
Qed.

(** X22 against a node that answers 503 every time. *)
Lemma requestWithRetry_bounded_witness :
  let down (n : nat) := Rest.Responded (Rest.mkResponse 503 None (Rest.NotJson "")) in
  let r := Rest.requestWithRetry down (fun _ => 42) 3 in
  Rest.fetches r = 4%nat /\ Rest.waits r = [542; 1042; 2042]
  /\ Forall (fun d => 500 <= d <= 5099) (Rest.waits r).
Proof.
  cbv zeta. split; [reflexivity |]. split; [reflexivity |].
  apply (requestWithRetry_bounded (fun _ => Rest.Responded (Rest.mkResponse 503 None (Rest.NotJson "")))
           (fun _ => 42) 3); [intros n | ]; lia.
Defined.

(** X23: what [requestWithRetry] returns is the first response whose
    status is neither 429 nor 5xx: every fetch before it was rejected or
    had such a status, and it was the last fetch made.  It throws only when
    every fetch the retries allow failed that way.  Conversely the first
    acceptable response within the allowed fetches is returned, after as
    many waits as there were failures. *)
Theorem requestWithRetry_first_accepted (fetch : nat -> Rest.Fetched) (jitter : nat -> Z)
    (maxRetries : Z) :
  let r := Rest.requestWithRetry fetch jitter maxRetries in
  (forall resp,
     Rest.outcome r = Ok resp ->
     Rest.retryable (Rest.status resp) = false
     /\ fetch (Rest.fetches r - 1)%nat = Rest.Responded resp
     /\ forall j, (j < Rest.fetches r - 1)%nat -> Shape.failing (fetch j) = true)
  /\ (forall e,
        Rest.outcome r = Throw e ->
        forall j, Z.of_nat j <= maxRetries -> Shape.failing (fetch j) = true)
  /\ (forall k resp,
        Z.of_nat k <= maxRetries ->
        fetch k = Rest.Responded resp -> Rest.retryable (Rest.status resp) = false ->
        (forall j, (j < k)%nat -> Shape.failing (fetch j) = true) ->
        Rest.outcome r = Ok resp /\ Rest.fetches r = S k
        /\ List.length (Rest.waits r) = k).
Proof.
  cbv zeta. unfold Rest.requestWithRetry.
  destruct (Z.to_nat (maxRetries + 1)) as [| remaining] eqn:Hrounds.
  { cbn. split; [discriminate |]. split; [intros e _ j Hj; lia | intros k resp Hk; lia]. }
  destruct (retryLoop_run fetch jitter remaining 0 [])
    as (Hn & (more & Hw & Hlen & _) & Hbefore & Hout).
  cbv zeta in Hn, Hw, Hlen, Hbefore, Hout.
  set (r := Rest.retryLoop fetch jitter _ 0 []) in *. clearbody r. cbn [app] in Hw.
  split; [| split].
  - intros resp Hok. rewrite Hok in Hout. destruct Hout as (Hlast & Hstatus).
    split; [exact Hstatus |]. split; [exact Hlast |].
    intros j Hj. apply Hbefore. lia.
  - intros e Hthrown j Hj. rewrite Hthrown in Hout. destruct Hout as (Hall & Hlast & _).
    destruct (decide (j = Rest.fetches r - 1)%nat) as [-> | Hne]; [exact Hlast |].
    apply Hbefore. lia.
  - intros k resp Hk Hf Hstatus Hearlier.
    assert (Shape.failing (fetch k) = false) as Hgood
      by (unfold Shape.failing; rewrite Hf; exact Hstatus).
    destruct (Rest.outcome r) as [resp' | e].
    + destruct Hout as (Hlast & Hstatus').
      assert (Rest.fetches r - 1 = k)%nat as Hat.
      { destruct (Nat.lt_trichotomy (Rest.fetches r - 1) k) as [Hlt | [Heq | Hgt]].
        - specialize (Hearlier _ Hlt). unfold Shape.failing in Hearlier.
          rewrite Hlast in Hearlier. congruence.
        - exact Heq.
        - rewrite Hbefore in Hgood by lia. discriminate Hgood. }
      rewrite Hat in Hlast. rewrite Hf in Hlast. injection Hlast as <-.
      split; [reflexivity |]. split; [lia |]. rewrite Hw, Hlen. lia.
    + destruct Hout as (Hall & Hlast & _).
      destruct (decide (k = Rest.fetches r - 1)%nat) as [-> | Hne]; [congruence |].
      rewrite Hbefore in Hgood by lia. discriminate Hgood.
Qed.

(** X23: a reset and a 429, then a 404, which is returned. *)
Lemma requestWithRetry_first_accepted_witness :
  let flaky (n : nat) :=
    match n with
    | 0%nat => Rest.Rejected (Error "ECONNRESET")
    | 1%nat => Rest.Responded (Rest.mkResponse 429 None (Rest.NotJson ""))
    | _ => Rest.Responded (Rest.mkResponse 404 (Some "{}") (Rest.JsonValue "Not Found"))
    end in
  let r := Rest.requestWithRetry flaky (fun _ => 0) 3 in
  Rest.outcome r = Ok (Rest.mkResponse 404 (Some "{}") (Rest.JsonValue "Not Found"))
  /\ Rest.fetches r = 3%nat.
Proof.
  cbv zeta.
  match goal with
  | |- Rest.outcome (Rest.requestWithRetry ?f ?j ?m) = _ /\ _ =>
      destruct (requestWithRetry_first_accepted f j m) as (_ & _ & H)
  end.
  destruct (H 2%nat (Rest.mkResponse 404 (Some "{}") (Rest.JsonValue "Not Found"))) as (Hout & Hn & _);
    [lia | reflexivity | reflexivity | |].
  - intros [| [| j]] Hj; [reflexivity | reflexivity | lia].
  - split; [exact Hout | exact Hn].
Defined.

(** X24: [makeRequest] returns data only from a response with a 2xx
    status, the body as [parseResponse] reads it.  A first response with
    any other status that is not 429 or 5xx (a 404, say) is not retried:
    the call throws after one fetch and no wait, [HTTP <status>: <message>]
    with the message of the error body (the whole text when it is not
    JSON, [Request failed] when there is none), or, when the error body is
    the JSON [null], the TypeError of reading [message] of [null]. *)
Theorem makeRequest_outcomes (fetch : nat -> Rest.Fetched) (jitter : nat -> Z)
    (maxRetries : Z) :
  let r := Rest.makeRequest fetch jitter maxRetries in
  (forall result,
     Rest.outcome r = Ok result ->
     exists resp,
       fetch (Rest.fetches r - 1)%nat = Rest.Responded resp
       /\ Rest.ok (Rest.status resp) = true /\ result = Rest.parseResponse resp)
  /\ (forall resp,
        0 <= maxRetries -> fetch 0%nat = Rest.Responded resp ->
        Rest.retryable (Rest.status resp) = false -> Rest.ok (Rest.status resp) = false ->
        r = Rest.mkRun
              (Throw
                 match Rest.errorBody resp with
                 | Rest.NotJson text =>
                     Error ("HTTP " ++ Rest.showZ (Rest.status resp) ++ ": "
                              ++ Rest.orRequestFailed text)
                 | Rest.JsonValue message =>
                     Error ("HTTP " ++ Rest.showZ (Rest.status resp) ++ ": "
                              ++ Rest.orRequestFailed message)
                 | Rest.JsonNull =>
                     TypeError "Cannot read properties of null (reading 'message')"
                 end)
              1 []).
Proof.
  cbv zeta. unfold Rest.makeRequest, Rest.requestWithRetry. split.
  - intros result.
    destruct (Z.to_nat (maxRetries + 1)) as [| remaining]; [discriminate |].
    destruct (retryLoop_run fetch jitter remaining 0 []) as (_ & _ & _ & Hout).
    cbv zeta in Hout.
    set (r := Rest.retryLoop fetch jitter _ 0 []) in *. clearbody r.
    destruct (Rest.outcome r) as [resp | e]; [| discriminate].
    destruct Hout as (Hlast & _).
    destruct (Rest.ok (Rest.status resp)) eqn:Hstatus; cbn; [| discriminate].
    intros [= <-]. exists resp. repeat split; assumption.
  - intros resp Hpos Hf Hretry Hstatus.
    replace (Z.to_nat (maxRetries + 1)) with (S (Z.to_nat maxRetries)) by lia.
    cbn [Rest.retryLoop]. rewrite Hf, Hretry. cbn. rewrite Hstatus. cbn.
    unfold Rest.httpError. destruct (Rest.errorBody resp); reflexivity.
Qed.

(** X24 for a 404 with a JSON error body, with a body that is not JSON and
    with the body [null]. *)
Lemma makeRequest_outcomes_witness :
  let answer body (n : nat) := Rest.Responded (Rest.mkResponse 404 None body) in
  Rest.makeRequest (answer (Rest.JsonValue "Not Found")) (fun _ => 0) 3
  = Rest.mkRun (Throw (Error "HTTP 404: Not Found")) 1 []
  /\ Rest.makeRequest (answer (Rest.NotJson "")) (fun _ => 0) 3
     = Rest.mkRun (Throw (Error "HTTP 404: Request failed")) 1 []
  /\ Rest.makeRequest (answer Rest.JsonNull) (fun _ => 0) 3
     = Rest.mkRun
         (Throw (TypeError "Cannot read properties of null (reading 'message')")) 1 [].
Proof.
  cbv zeta.
  assert (forall body,
             Rest.makeRequest (fun _ => Rest.Responded (Rest.mkResponse 404 None body))
                              (fun _ => 0) 3
             = Rest.mkRun
                 (Throw
                    match body with
                    | Rest.NotJson text =>
                        Error ("HTTP 404: "
                                 ++ Rest.orRequestFailed text)
                    | Rest.JsonValue message =>
                        Error ("HTTP 404: "
                                 ++ Rest.orRequestFailed message)
                    | Rest.JsonNull =>
                        TypeError "Cannot read properties of null (reading 'message')"
                    end)
                 1 []) as H.
  { intros body.
    destruct (makeRequest_outcomes
                (fun _ => Rest.Responded (Rest.mkResponse 404 None body)) (fun _ => 0) 3)
      as (_ & H).
    exact (H (Rest.mkResponse 404 None body) ltac:(lia) eq_refl eq_refl eq_refl). }
  split; [exact (H (Rest.JsonValue "Not Found")) |].
  split; [exact (H (Rest.NotJson "")) | exact (H Rest.JsonNull)].
Defined.

(** Different identifiers have different cache keys. *)
Lemma cacheKey_inj (a b : string) : "tracks:" ++ a = "tracks:" ++ b -> a = b.
Proof. intros H. cbv [String.append] in H. congruence. Qed.

(** X25: [getTracks] answers from [trackCache] while the entry is
    younger than 300000 ms, without a fetch and without touching the cache;
    an answer fetched from the node is stored under the identifier with
    the clock of its arrival; a failed call stores nothing; and the
    entries of other identifiers are never touched. *)
Theorem getTracks_cache
    (fetch : nat -> Rest.Fetched) (jitter : nat -> Z) (maxRetries now later : Z)
    (identifier : string) (trackCache : gmap string Rest.Cached) :
  let key := "tracks:" ++ identifier in
  let r := fst (Rest.getTracks fetch jitter maxRetries now later identifier trackCache) in
  let trackCache' :=
    snd (Rest.getTracks fetch jitter maxRetries now later identifier trackCache) in
  (forall cached,
     trackCache !! key = Some cached -> now - Rest.cachedAt cached < 300000 ->
     r = Rest.mkRun (Ok (Rest.data cached)) 0 [] /\ trackCache' = trackCache)
  /\ (forall result,
        Rest.outcome r = Ok result -> (0 < Rest.fetches r)%nat ->
        trackCache' !! key = Some (Rest.mkCached result later))
  /\ (forall e, Rest.outcome r = Throw e -> trackCache' = trackCache)
  /\ (forall other, other <> identifier ->
        trackCache' !! ("tracks:" ++ other) = trackCache !! ("tracks:" ++ other)).
Proof.
  cbv zeta. unfold Rest.getTracks.
  set (key := "tracks:" ++ identifier).
  set (asked := Rest.makeRequest fetch jitter maxRetries).
  assert (forall other, other <> identifier -> "tracks:" ++ other <> key) as Hother.
  { intros other Hne Heq. apply Hne. exact (cacheKey_inj _ _ Heq). }
  destruct (trackCache !! key) as [cached |] eqn:Hlook.
  - destruct (Z.ltb_spec (now - Rest.cachedAt cached) 300000) as [Hfresh | Hstale]; cbn [fst snd].
    + split; [intros c [= <-] _; split; reflexivity |].
      split; [intros result _ H; cbn in H; lia |].
      split; [reflexivity | reflexivity].
    + split; [intros c [= <-] H; lia |].
      destruct (Rest.outcome asked) as [result |] eqn:Hout; cbn [fst snd].
      * split; [intros res Hres _; rewrite Hout in Hres; injection Hres as <-;
                apply lookup_insert_eq |].
        split; [intros e He; rewrite Hout in He; discriminate He |].
        intros other Hne. apply lookup_insert_ne. intros H. exact (Hother other Hne (eq_sym H)).
      * split; [intros res Hres; rewrite Hout in Hres; discriminate Hres |].
        split; reflexivity.
  - split; [intros c H; discriminate H |].
    destruct (Rest.outcome asked) as [result |] eqn:Hout; cbn [fst snd].
    + split; [intros res Hres _; rewrite Hout in Hres; injection Hres as <-;
              apply lookup_insert_eq |].
      split; [intros e He; rewrite Hout in He; discriminate He |].
      intros other Hne. apply lookup_insert_ne. intros H. exact (Hother other Hne (eq_sym H)).
    + split; [intros res Hres; rewrite Hout in Hres; discriminate Hres |].
      split; reflexivity.
Qed.

(** X25: an entry of 995 ms is returned though the node is down. *)
Lemma getTracks_cache_witness :
  let stored : gmap string Rest.Cached := {[ "tracks:abc" := Rest.mkCached (Some "{}") 5 ]} in
  Rest.getTracks (fun _ => Rest.Rejected (Error "down")) (fun _ => 0) 3 1000 1001 "abc" stored
  = (Rest.mkRun (Ok (Some "{}")) 0 [], stored).
Proof.
  cbv zeta.
  destruct (getTracks_cache (fun _ => Rest.Rejected (Error "down")) (fun _ => 0) 3 1000 1001
              "abc" {[ "tracks:abc" := Rest.mkCached (Some "{}") 5 ]}) as (Hhit & _).
  destruct (Hhit (Rest.mkCached (Some "{}") 5)) as (Hrun & Hcache);
    [apply lookup_singleton_eq | cbn; lia |].
  rewrite (surjective_pairing (Rest.getTracks _ _ _ _ _ _ _)), Hrun, Hcache. reflexivity.
Defined.

(* ================================================================== *)
(** * Node: pings and reconnects *)

Lemma lastN_short {A : Type} (k : nat) (l : list A) :
  (List.length l <= k)%nat -> Shape.lastN k l = l.
Proof.
  intros H. unfold Shape.lastN. replace (List.length l - k)%nat with 0%nat by lia.
  reflexivity.
Qed.

(** Cutting to the last [k] before appending changes nothing of the last [k]
    after. *)
Lemma lastN_app {A : Type} (k : nat) (l more : list A) :
  Shape.lastN k (Shape.lastN k l ++ more) = Shape.lastN k (l ++ more).
Proof.
  destruct (Nat.le_gt_cases (List.length l) k) as [Hle | Hgt].
  - rewrite (lastN_short k l Hle). reflexivity.
  - unfold Shape.lastN. rewrite !length_app, length_skipn.
    rewrite (skipn_app (List.length l + List.length more - k)).
    replace (List.length l - (List.length l - k) + List.length more - k)%nat
      with (List.length more)%nat by lia.
    replace (List.length l + List.length more - k - List.length l)%nat
      with (List.length more - k)%nat by lia.
    rewrite (skipn_app (List.length more)), length_skipn.
    replace (List.length more - (List.length l - (List.length l - k)))%nat
      with (List.length more - k)%nat by lia.
    f_equal. rewrite skipn_skipn. f_equal. lia.
Qed.

(** One [stats] message on a history of at most ten. *)
Lemma stats_pingHistory (ping : Z) (n : Node.t) :
  (List.length (Node.pingHistory n) <= 10)%nat ->
  Node.pingHistory (Node.stats ping n)
  = Shape.lastN 10 (Node.pingHistory n ++ (if Z.eqb ping 0 then [] else [ping])).
Proof.
  intros Hlen. unfold Node.stats. cbn [Node.pingHistory]. destruct (Z.eqb ping 0).
  - rewrite app_nil_r, lastN_short by exact Hlen. reflexivity.
  -
    destruct (Nat.ltb_spec 10 (List.length (Node.pingHistory n ++ [ping]))) as [Hover | Hfits].
    + unfold Shape.lastN. rewrite length_app in *. cbn [List.length] in *.
      replace (List.length (Node.pingHistory n) + 1 - 10)%nat with 1%nat by lia.
      destruct (Node.pingHistory n ++ [ping])%list; reflexivity.
    + rewrite lastN_short by exact Hfits. reflexivity.
Qed.

(** The last [k] are at most [k]. *)
Lemma lastN_length {A : Type} (k : nat) (l : list A) :
  (List.length (Shape.lastN k l) <= k)%nat.
Proof. unfold Shape.lastN. rewrite length_skipn. lia. Qed.

(** X26: after any number of [stats] messages [pingHistory] holds the
    last ten pings that were not 0, oldest first: a ping of 0 is not
    recorded, and the history never grows past ten. *)
Theorem pingHistory_last_ten (pings : list Z) (n : Node.t) :
  (List.length (Node.pingHistory n) <= 10)%nat ->
  let n' := Node.run (map Node.Stats pings) n in
  Node.pingHistory n'
  = Shape.lastN 10 (Node.pingHistory n ++ List.filter (fun p => negb (Z.eqb p 0)) pings)
  /\ (List.length (Node.pingHistory n') <= 10)%nat
  /\ Node.reconnectAttempted n' = Node.reconnectAttempted n
  /\ Node.connected n' = Node.connected n.
Proof.
  cbv zeta. unfold Node.run. revert n. induction pings as [| p pings IH]; intros n Hlen.
  - cbn. rewrite app_nil_r, lastN_short by exact Hlen. repeat split. exact Hlen.
  - cbn [map fold_left Node.step].
    pose proof (stats_pingHistory p n Hlen) as Hstep.
    assert (List.length (Node.pingHistory (Node.stats p n)) <= 10)%nat as Hlen'
      by (rewrite Hstep; apply lastN_length).
    destruct (IH (Node.stats p n) Hlen') as (Hh & Hl & Ha & Hc).
    split; [| split; [exact Hl |]].
    + rewrite Hh, Hstep, lastN_app. cbn [List.filter].
      destruct (Z.eqb p 0); cbn [negb app]; rewrite <- ?app_assoc; reflexivity.
    + rewrite Ha, Hc. unfold Node.stats. destruct (Z.eqb p 0); split; reflexivity.
Qed.

(** X26 for thirteen messages, one of them with ping 0. *)
Lemma pingHistory_last_ten_witness :
  Node.pingHistory
    (Node.run (map Node.Stats [11; 0; 12; 13; 14; 15; 16; 17; 18; 19; 20; 21; 22])
              (Node.create None None))
  = [13; 14; 15; 16; 17; 18; 19; 20; 21; 22].
Proof.
  destruct (pingHistory_last_ten [11; 0; 12; 13; 14; 15; 16; 17; 18; 19; 20; 21; 22]
              (Node.create None None)) as (H & _); [cbn; lia |].
  rewrite H. reflexivity.
Defined.

(** One event keeps the counter within its bound, and opens a socket only
    with the counter going up. *)
Lemma node_step (e : Node.Event) (n : Node.t) :
  Node.reconnectAttempted n <= Node.reconnectTries n + 1 ->
  (Node.reconnectAttempt n <> None -> Node.reconnectAttempted n <= Node.reconnectTries n) ->
  let n' := Node.step n e in
  Node.reconnectAttempted n' <= Node.reconnectTries n' + 1
  /\ (Node.reconnectAttempt n' <> None ->
      Node.reconnectAttempted n' <= Node.reconnectTries n')
  /\ Node.reconnectTries n' = Node.reconnectTries n
  /\ Node.reconnectAttempted n <= Node.reconnectAttempted n'
  /\ Z.of_nat (Node.sockets n') - Z.of_nat (Node.sockets n)
     <= Node.reconnectAttempted n' - Node.reconnectAttempted n.
Proof.
  intros Hcap Hpending. cbv zeta. destruct e as [| jitter | | ping |]; cbn [Node.step].
  - cbn. repeat split; try lia. exact Hpending.
  - unfold Node.close, Node.reconnect. cbn.
    destruct (Z.leb_spec (Node.reconnectAttempted n) (Node.reconnectTries n)); cbn;
      repeat split; try lia. exact Hpending.
  - unfold Node.reconnectFired, Node.connect.
    destruct (Node.reconnectAttempt n) eqn:E; cbn.
    + assert (Node.reconnectAttempted n <= Node.reconnectTries n) by (apply Hpending; discriminate).
      destruct (Node.connected n); cbn; repeat split; try lia; congruence.
    + rewrite E. repeat split; try lia. congruence.
  - unfold Node.stats. destruct (Z.eqb ping 0); cbn; repeat split; try lia; exact Hpending.
  - cbn. repeat split; try lia. congruence.
Qed.

(** X27: whatever happens to a Node (the socket opening, closing, the
    reconnect timer firing, stats, [disconnect()]), [reconnectAttempted]
    never goes down and never passes [reconnectTries + 1], since nothing
    resets it; every socket opened meanwhile was opened by a reconnect, so
    that a Node reconnects at most [reconnectTries + 1 - reconnectAttempted]
    times more in its life, however often it was connected in between. *)
Theorem node_reconnects_bounded (events : list Node.Event) (n : Node.t) :
  Node.reconnectAttempted n <= Node.reconnectTries n + 1 ->
  (Node.reconnectAttempt n <> None -> Node.reconnectAttempted n <= Node.reconnectTries n) ->
  let n' := Node.run events n in
  Node.reconnectAttempted n <= Node.reconnectAttempted n' <= Node.reconnectTries n + 1
  /\ Node.reconnectTries n' = Node.reconnectTries n
  /\ Z.of_nat (Node.sockets n') - Z.of_nat (Node.sockets n)
     <= Node.reconnectAttempted n' - Node.reconnectAttempted n
  /\ Z.of_nat (Node.sockets n') - Z.of_nat (Node.sockets n)
     <= Node.reconnectTries n + 1 - Node.reconnectAttempted n.
Proof.
  cbv zeta. unfold Node.run. revert n.
  induction events as [| e events IH]; intros n Hcap Hpending; cbn [fold_left].
  - repeat split; lia.
  - destruct (node_step e n Hcap Hpending) as (Hcap' & Hpending' & Htries & Hmono & Hsockets).
    cbv zeta in Hcap', Hpending', Htries, Hmono, Hsockets.
    destruct (IH (Node.step n e) Hcap' Hpending') as (Hrange & Htries' & Hs1 & Hs2).
    rewrite Htries in *. repeat split; lia.
Qed.

(** X27 for a Node with two tries that drops twice: after the second
    reconnect a close schedules nothing. *)
Lemma node_reconnects_bounded_witness :
  let events := [Node.Closed 7; Node.ReconnectFired; Node.Opened; Node.Closed 9;
                 Node.ReconnectFired; Node.Opened] in
  let n' := Node.run events (Node.create (Some 1000) (Some 2)) in
  Node.reconnectAttempted n' = 3 /\ Node.sockets n' = 2%nat
  /\ Node.reconnectAttempt (Node.close 5 n') = None
  /\ Z.of_nat (Node.sockets n') - 0 <= 2 + 1 - 1.
Proof.
  cbv zeta. split; [reflexivity |]. split; [reflexivity |]. split; [reflexivity |].
  apply (node_reconnects_bounded
           [Node.Closed 7; Node.ReconnectFired; Node.Opened; Node.Closed 9;
            Node.ReconnectFired; Node.Opened] (Node.create (Some 1000) (Some 2))).
  - cbn. lia.
  - intros H. exfalso. apply H. reflexivity.
Defined.

(** X28: [close] marks the Node disconnected and emits [nodeDisconnect].
    While attempts are left it schedules a reconnect after at least
    [min(30000, reconnectTimeout)] and less than 30250 ms, which is
    [reconnectTimeout * 2 ^ (reconnectAttempted - 1)] plus the jitter as
    long as that product does not pass 30000; with none left the timer is
    left as it was. *)
Theorem node_close_backoff (jitter : Z) (n : Node.t) :
  0 <= jitter < 250 -> 0 < Node.reconnectTimeout n ->
  let n' := Node.close jitter n in
  Node.connected n' = false
  /\ Node.emitted n' = (Node.emitted n ++ ["nodeDisconnect"])%list
  /\ (Node.reconnectTries n < Node.reconnectAttempted n ->
      Node.reconnectAttempt n' = Node.reconnectAttempt n)
  /\ (Node.reconnectAttempted n <= Node.reconnectTries n ->
      exists d,
        Node.reconnectAttempt n' = Some d
        /\ Z.min 30000 (Node.reconnectTimeout n) <= d < 30250
        /\ (1 <= Node.reconnectAttempted n ->
            Node.reconnectTimeout n * 2 ^ (Node.reconnectAttempted n - 1) <= 30000 ->
            d = Node.reconnectTimeout n * 2 ^ (Node.reconnectAttempted n - 1) + jitter)).
Proof.
  intros Hjitter Hbase. cbv zeta. unfold Node.close, Node.reconnect. cbn.
  destruct (Z.leb_spec (Node.reconnectAttempted n) (Node.reconnectTries n)) as [Hle | Hgt]; cbn.
  - split; [reflexivity |]. split; [reflexivity |]. split; [intros H; lia |].
    intros _. eexists. split; [reflexivity |].
    assert (1 <= 2 ^ (Z.max 1 (Node.reconnectAttempted n) - 1)) as Hpow.
    { change 1 with (2 ^ 0) at 1. apply Z.pow_le_mono_r; lia. }
    split; [nia |]. intros Hone Hfits.
    replace (Z.max 1 (Node.reconnectAttempted n)) with (Node.reconnectAttempted n) by lia.
    lia.
  - split; [reflexivity |]. split; [reflexivity |]. split; [reflexivity |].
    intros H. lia.
Qed.

(** X28 on a new Node: five seconds and the jitter. *)
Lemma node_close_backoff_witness :
  Node.reconnectAttempt (Node.close 17 (Node.create None None)) = Some 5017.
Proof.
  destruct (node_close_backoff 17 (Node.create None None)) as (_ & _ & _ & H);
    [lia | cbn; lia |].
  destruct H as (d & Hd & _ & Hexact); [cbn; lia |].
  rewrite Hd, Hexact; [reflexivity | cbn; lia | cbn; lia].
Defined.
